(** * Shopify / eShopaid synchronisation service: a shallow embedding

    The JavaScript services under [services/eshopaid] (token manager,
    order, customer and inventory services, webhook handlers) are embedded
    as Rocq functions over a small model of the JavaScript values they
    handle.  Pure helpers return [Res] (a value or a thrown exception);
    methods that await the network or touch the token cache run in the
    state-and-exception monad [M] over a [World].

    Conventions of the embedding:
    - a JavaScript string is a [string] whose characters are the code
      units below 256;
    - a JavaScript number is a [Num]: an exact decimal [m * 10^e], or
      NaN, or an infinity; binary64 rounding is not modelled;
    - an object is a record as [JSON.parse] builds it: its members are
      data, never functions;
    - [console.log] and friends print nothing here, but the template
      literals handed to them are evaluated, since converting a value to
      a string can throw;
    - an [await] is a sequential step: one task runs at a time. *)

From Stdlib Require Import ZArith List String Ascii Bool Lia DecimalString.
Import ListNotations.

Local Open Scope string_scope.
Local Open Scope Z_scope.

(** ** JavaScript values and built-ins *)
Module Js.

(** A number is [NaN], an infinity, or a decimal [m * 10^e] kept with the
    digits it was written or computed with.  The engine holds the
    binary64 value nearest to that decimal and prints the shortest
    digits that denote it; the decimal and that value have the same sign
    and are zero together, since a decimal read from a string is first
    brought into the range of binary64 ([clip64] below).  Rounding to 53
    bits is not represented: a sum is the exact sum of the decimals, so
    it is the engine's sum whenever that one is exact, as it is for the
    counts and line numbers of this program. *)
Inductive Num : Type :=
| NaN
| Inf (negative : bool)
| Dec (m e : Z).

#[warnings="-register-all"]
Inductive JsVal : Type :=
| JUndefined
| JNull
| JBool (b : bool)
| JNum (n : Num)
| JStr (s : string)
| JArr (elems : list JsVal)
| JObj (fields : list (string * JsVal))
| JBuiltin (name : string).

Inductive Exn : Type :=
| TypeError (msg : string)
| RangeError (msg : string)
| Error (msg : string).

Definition message (e : Exn) : string :=
  match e with TypeError m | RangeError m | Error m => m end.

(** Outcome of an evaluation that may throw. *)
Inductive Res (A : Type) : Type :=
| Ret (a : A)
| Throw (e : Exn).
Arguments Ret {A} a.
Arguments Throw {A} e.

Definition bindR {A B} (r : Res A) (k : A -> Res B) : Res B :=
  match r with
  | Ret a => k a
  | Throw e => Throw e
  end.

Fixpoint mapiR {A B} (f : A -> nat -> Res B) (i : nat) (l : list A) : Res (list B) :=
  match l with
  | [] => Ret []
  | x :: r =>
      bindR (f x i) (fun y => bindR (mapiR f (S i) r) (fun ys => Ret (y :: ys)))
  end.

Fixpoint foldR {A B} (f : A -> B -> Res A) (acc : A) (l : list B) : Res A :=
  match l with
  | [] => Ret acc
  | x :: r => bindR (f acc x) (fun acc' => foldR f acc' r)
  end.

(** *** Numbers *)

Definition int (z : Z) : Num := Dec z 0.
Definition num (z : Z) : JsVal := JNum (int z).

Definition num_truthy (n : Num) : bool :=
  match n with
  | NaN => false
  | Inf _ => true
  | Dec m _ => negb (m =? 0)
  end.

(** [n > 0] *)
Definition num_gt0 (n : Num) : bool :=
  match n with
  | NaN => false
  | Inf neg => negb neg
  | Dec m _ => 0 <? m
  end.

Definition num_add (a b : Num) : Num :=
  match a, b with
  | NaN, _ | _, NaN => NaN
  | Inf x, Inf y => if Bool.eqb x y then Inf x else NaN
  | Inf x, _ | _, Inf x => Inf x
  | Dec m1 e1, Dec m2 e2 =>
      let e := Z.min e1 e2 in
      Dec (m1 * 10 ^ (e1 - e) + m2 * 10 ^ (e2 - e)) e
  end.

(** Truncation of a finite number towards zero. *)
Definition num_trunc (m e : Z) : Z :=
  if 0 <=? e then m * 10 ^ e else Z.quot m (10 ^ (- e)).

(** The decimal [m * 10^e] read as a binary64 value, as far as its range
    goes: a magnitude of [2^1024 - 2^970] or more, half way between the
    largest finite value and [2^1024], is rounded to an infinity; a
    magnitude of [2^-1075] or less, half the smallest value above zero,
    is rounded to zero. *)
Definition clip64 (m e : Z) : Num :=
  let a := Z.abs m in
  let largest := 2 ^ 1024 - 2 ^ 970 in
  if a =? 0 then Dec 0 0
  else if (if 0 <=? e then largest <=? a * 10 ^ e else largest * 10 ^ (- e) <=? a)
  then Inf (m <? 0)
  else if (e <? 0) && (a * 2 ^ 1075 <=? 10 ^ (- e)) then Dec 0 0
  else Dec m e.

(** *** Strings *)

Definition digits (n : Z) : string := NilZero.string_of_uint (N.to_uint (Z.to_N n)).

Fixpoint repeat_char (c : ascii) (n : nat) : string :=
  match n with
  | O => ""
  | S k => String c (repeat_char c k)
  end.

Definition zeros (n : Z) : string := repeat_char "0" (Z.to_nat n).

Definition slen (s : string) : Z := Z.of_nat (String.length s).

(** [s.slice(i, j)] for [0 <= i <= j]. *)
Definition slice (i j : nat) (s : string) : string := substring i (j - i) s.

Fixpoint drop (n : nat) (s : string) : string :=
  match n, s with
  | S k, String _ r => drop k r
  | _, _ => s
  end.

Fixpoint rev_acc (s acc : string) : string :=
  match s with
  | EmptyString => acc
  | String c r => rev_acc r (String c acc)
  end.

Fixpoint strip_leading_zeros (s : string) : string :=
  match s with
  | String "0" r => strip_leading_zeros r
  | _ => s
  end.

Definition strip_trailing_zeros (s : string) : string :=
  rev_acc (strip_leading_zeros (rev_acc s "")) "".

(** [s.replace(/-/g, '')] *)
Fixpoint remove_dashes (s : string) : string :=
  match s with
  | EmptyString => ""
  | String c r => if Ascii.eqb c "-" then remove_dashes r else String c (remove_dashes r)
  end.

Definition lower_char (c : ascii) : ascii :=
  let n := N_of_ascii c in
  if ((65 <=? n) && (n <=? 90))%N then ascii_of_N (n + 32)
  else if ((192 <=? n) && (n <=? 222) && negb (n =? 215))%N then ascii_of_N (n + 32)
  else c.

Fixpoint toLowerCase (s : string) : string :=
  match s with
  | EmptyString => ""
  | String c r => String (lower_char c) (toLowerCase r)
  end.

(** Number::toString of a finite value [m * 10^e]. *)
Definition num_to_string (m e : Z) : string :=
  if m =? 0 then "0" else
  let sign := if m <? 0 then "-" else "" in
  let all := digits (Z.abs m) in
  let ds := strip_trailing_zeros all in
  let k := slen ds in
  let n := slen all + e in
  sign ++
  (if ((k <=? n) && (n <=? 21))%Z then ds ++ zeros (n - k)
   else if ((0 <? n) && (n <=? 21))%Z then
     slice 0 (Z.to_nat n) ds ++ "." ++ drop (Z.to_nat n) ds
   else if ((-6 <? n) && (n <=? 0))%Z then "0." ++ zeros (- n) ++ ds
   else
     let ex := (if (n - 1 <? 0)%Z then "-" else "+") ++ digits (Z.abs (n - 1)) in
     if (k =? 1)%Z then ds ++ "e" ++ ex
     else slice 0 1 ds ++ "." ++ drop 1 ds ++ "e" ++ ex)%string.

Definition Num_toString (n : Num) : string :=
  match n with
  | NaN => "NaN"
  | Inf neg => if neg then "-Infinity" else "Infinity"
  | Dec m e => num_to_string m e
  end.

(** *** Truthiness, equality, property reads *)

Definition truthy (v : JsVal) : bool :=
  match v with
  | JUndefined | JNull => false
  | JBool b => b
  | JNum n => num_truthy n
  | JStr s => negb (s =? "")%string
  | JArr _ | JObj _ | JBuiltin _ => true
  end.

Definition nullish (v : JsVal) : bool :=
  match v with
  | JUndefined | JNull => true
  | _ => false
  end.

(** [v === 'lit'] for a string literal. *)
Definition is_str (lit : string) (v : JsVal) : bool :=
  match v with
  | JStr s => (s =? lit)%string
  | _ => false
  end.

Definition isArray (v : JsVal) : bool :=
  match v with
  | JArr _ => true
  | _ => false
  end.

Fixpoint lookup (k : string) (fs : list (string * JsVal)) : option JsVal :=
  match fs with
  | [] => None
  | (k', v) :: r => if (k' =? k)%string then Some v else lookup k r
  end.

Definition nullish_name (v : JsVal) : string :=
  match v with
  | JNull => "null"
  | _ => "undefined"
  end.

(** An own [toString] member: it shadows [Object.prototype.toString] and,
    being data, cannot be called. *)
Definition shadows_toString (fs : list (string * JsVal)) : bool :=
  match lookup "toString" fs with
  | Some _ => true
  | None => false
  end.

(** [String(v)] and template-literal interpolation.  An array joins the
    strings of its elements; an object gives ["[object Object]"] unless
    it shadows [toString], in which case no primitive can be had. *)
Fixpoint ToString (v : JsVal) : Res string :=
  match v with
  | JUndefined => Ret "undefined"
  | JNull => Ret "null"
  | JBool b => Ret (if b then "true" else "false")
  | JNum n => Ret (Num_toString n)
  | JStr s => Ret s
  | JArr l =>
      (fix join (l : list JsVal) : Res string :=
         match l with
         | [] => Ret ""
         | x :: r =>
             bindR (match x with
                    | JUndefined | JNull => Ret ""
                    | _ => ToString x
                    end)
               (fun sx =>
                  match r with
                  | [] => Ret sx
                  | _ => bindR (join r) (fun sr => Ret (sx ++ "," ++ sr)%string)
                  end)
         end) l
  | JObj fs =>
      if shadows_toString fs
      then Throw (TypeError "Cannot convert object to primitive value")
      else Ret "[object Object]"
  | JBuiltin name => Ret ("function " ++ name ++ "() { [native code] }")%string
  end.

(** Members every object literal inherits from [Object.prototype]. *)
Definition object_prototype : list string :=
  [ "constructor"; "__defineGetter__"; "__defineSetter__"; "hasOwnProperty";
    "__lookupGetter__"; "__lookupSetter__"; "isPrototypeOf";
    "propertyIsEnumerable"; "toString"; "valueOf"; "__proto__";
    "toLocaleString" ].

Definition inherited (k : string) : bool :=
  existsb (fun p => (p =? k)%string) object_prototype.

(** A property key that is a canonical array index. *)
Definition array_index (k : string) : option nat :=
  let n := fold_left
             (fun acc c => 10 * acc + (Z.of_N (N_of_ascii c) - 48))
             (list_ascii_of_string k) 0 in
  if (digits n =? k)%string then Some (Z.to_nat n) else None.

(** [v[k]] on a value that is neither [null] nor [undefined]: own
    properties, then the members of [Object.prototype] for objects.  The
    methods of strings and arrays are reached through the call helpers
    below, not through this read. *)
Definition prop (v : JsVal) (k : string) : JsVal :=
  match v with
  | JObj fs =>
      match lookup k fs with
      | Some x => x
      | None => if inherited k then JBuiltin k else JUndefined
      end
  | JArr l =>
      if (k =? "length")%string then num (Z.of_nat (List.length l))
      else match array_index k with
           | Some i => nth i l JUndefined
           | None => JUndefined
           end
  | JStr s =>
      if (k =? "length")%string then num (slen s)
      else match array_index k with
           | Some i => match String.get i s with
                       | Some c => JStr (String c "")
                       | None => JUndefined
                       end
           | None => JUndefined
           end
  | _ => JUndefined
  end.

(** [v.k]: a [TypeError] on [null] and [undefined]. *)
Definition get (v : JsVal) (k : string) : Res JsVal :=
  if nullish v then
    Throw (TypeError ("Cannot read properties of " ++ nullish_name v
                        ++ " (reading '" ++ k ++ "')"))
  else Ret (prop v k).

(** [v?.k] *)
Definition getOpt (v : JsVal) (k : string) : JsVal :=
  if nullish v then JUndefined else prop v k.

(** [a || b], the right operand evaluated only when needed. *)
Definition orR (a b : Res JsVal) : Res JsVal :=
  bindR a (fun x => if truthy x then Ret x else b).

(** An object literal: the initialisers run in source order. *)
Fixpoint fieldsR (fs : list (string * Res JsVal)) : Res (list (string * JsVal)) :=
  match fs with
  | [] => Ret []
  | (k, r) :: rest =>
      bindR r (fun v => bindR (fieldsR rest) (fun vs => Ret ((k, v) :: vs)))
  end.

Definition object (fs : list (string * Res JsVal)) : Res JsVal :=
  bindR (fieldsR fs) (fun vs => Ret (JObj vs)).

Definition str (s : string) : Res JsVal := Ret (JStr s).

(** [recv.name(...)] where [name] is an [Array.prototype] method and
    [src] the source text of the receiver: the call runs [body] on the
    elements of an array and throws on anything else. *)
Definition array_method (src name : string) (recv : JsVal)
    (body : list JsVal -> Res JsVal) : Res JsVal :=
  match recv with
  | JUndefined | JNull =>
      Throw (TypeError ("Cannot read properties of " ++ nullish_name recv
                          ++ " (reading '" ++ name ++ "')"))
  | JArr l => body l
  | _ => Throw (TypeError (src ++ "." ++ name ++ " is not a function"))
  end.

(** [recv?.name(...)] for the same methods: [undefined] on [null] and
    [undefined], and the optional call is named as it is written when the
    member cannot be called. *)
Definition array_methodOpt (src name : string) (recv : JsVal)
    (body : list JsVal -> Res JsVal) : Res JsVal :=
  match recv with
  | JUndefined | JNull => Ret JUndefined
  | JArr l => body l
  | _ => Throw (TypeError (src ++ "?." ++ name ++ " is not a function"))
  end.

(** [recv?.toLowerCase()], [src] the source text of the receiver. *)
Definition toLowerCaseOpt (src : string) (recv : JsVal) : Res JsVal :=
  match recv with
  | JUndefined | JNull => Ret JUndefined
  | JStr s => Ret (JStr (toLowerCase s))
  | _ => Throw (TypeError (src ++ "?.toLowerCase is not a function"))
  end.

(** [v?.toString()], [src] the source text of the receiver. *)
Definition toStringOpt (src : string) (v : JsVal) : Res JsVal :=
  match v with
  | JUndefined | JNull => Ret JUndefined
  | JObj fs =>
      if shadows_toString fs
      then Throw (TypeError (src ++ "?.toString is not a function"))
      else Ret (JStr "[object Object]")
  | _ => bindR (ToString v) (fun s => Ret (JStr s))
  end.

(** [v > 0] for a value that is a number. *)
Definition gt0 (v : JsVal) : bool :=
  match v with
  | JNum n => num_gt0 n
  | _ => false
  end.

(** [o.k = v] on an object. *)
Fixpoint assign (k : string) (v : JsVal) (fs : list (string * JsVal))
    : list (string * JsVal) :=
  match fs with
  | [] => [(k, v)]
  | (k', x) :: r => if (k' =? k)%string then (k, v) :: r else (k', x) :: assign k v r
  end.

Definition set_prop (o : JsVal) (k : string) (v : JsVal) : JsVal :=
  match o with
  | JObj fs => JObj (assign k v fs)
  | _ => o
  end.

(** [table[key] || dflt] for an object literal [table]. *)
Definition table_lookup (table : list (string * string)) (key : JsVal)
    (dflt : string) : Res JsVal :=
  bindR (ToString key) (fun k =>
    let v := prop (JObj (map (fun p => (fst p, JStr (snd p))) table)) k in
    Ret (if truthy v then v else JStr dflt)).

(** *** parseFloat *)

Definition is_space (c : ascii) : bool :=
  let n := N_of_ascii c in
  (((9 <=? n) && (n <=? 13)) || (n =? 32) || (n =? 160))%N.

Definition is_digit (c : ascii) : bool :=
  let n := N_of_ascii c in ((48 <=? n) && (n <=? 57))%N.

Fixpoint skip_spaces (s : string) : string :=
  match s with
  | String c r => if is_space c then skip_spaces r else s
  | EmptyString => s
  end.

(** The leading run of decimal digits: its value, its length, the rest. *)
Fixpoint take_digits (s : string) (acc : Z) (len : Z) : Z * Z * string :=
  match s with
  | String c r =>
      if is_digit c
      then take_digits r (10 * acc + (Z.of_N (N_of_ascii c) - 48)) (len + 1)
      else (acc, len, s)
  | EmptyString => (acc, len, s)
  end.

(** An exponent part [e[+-]ddd] at the head of [s], when there is one. *)
Definition take_exponent (s : string) : Z :=
  match s with
  | String c r =>
      if (Ascii.eqb c "e" || Ascii.eqb c "E")%bool then
        let '(neg, r') :=
          match r with
          | String "-" t => (true, t)
          | String "+" t => (false, t)
          | _ => (false, r)
          end in
        let '(v, len, _) := take_digits r' 0 0 in
        if len =? 0 then 0 else if neg then - v else v
      else 0
  | EmptyString => 0
  end.

Definition parseFloat_string (s : string) : Num :=
  let s := skip_spaces s in
  let '(neg, s) :=
    match s with
    | String "-" t => (true, t)
    | String "+" t => (false, t)
    | _ => (false, s)
    end in
  if prefix "Infinity" s then Inf neg else
  let '(ip, ilen, s) := take_digits s 0 0 in
  let '(fp, flen, s) :=
    match s with
    | String "." t => take_digits t 0 0
    | _ => (0, 0, s)
    end in
  if ilen + flen =? 0 then NaN else
  let m := ip * 10 ^ flen + fp in
  clip64 (if neg then - m else m) (take_exponent s - flen).

Definition parseFloat (v : JsVal) : Res Num :=
  bindR (ToString v) (fun s => Ret (parseFloat_string s)).

(** [parseFloat(v) || 0] *)
Definition parseFloat_or_0 (v : JsVal) : Res JsVal :=
  bindR (parseFloat v) (fun n => Ret (if num_truthy n then JNum n else num 0)).

(** *** Dates *)

(** A [Date] object holds a time value in milliseconds since the epoch,
    or NaN ([None]). *)
Definition Date := option Z.

Definition msPerDay : Z := 86400000.

(** Year, month (1-12) and day of a day number counted from 1970-01-01. *)
Definition civil_from_days (z : Z) : Z * Z * Z :=
  let z := z + 719468 in
  let era := z / 146097 in
  let doe := z - era * 146097 in
  let yoe := (doe - doe / 1460 + doe / 36524 - doe / 146096) / 365 in
  let doy := doe - (365 * yoe + yoe / 4 - yoe / 100) in
  let mp := (5 * doy + 2) / 153 in
  let d := doy - (153 * mp + 2) / 5 + 1 in
  let m := if mp <? 10 then mp + 3 else mp - 9 in
  let y := yoe + era * 400 in
  (if m <=? 2 then y + 1 else y, m, d).

Definition days_from_civil (y m d : Z) : Z :=
  let y := if m <=? 2 then y - 1 else y in
  let era := y / 400 in
  let yoe := y - era * 400 in
  let doy := (153 * (if 2 <? m then m - 3 else m + 9) + 2) / 5 + d - 1 in
  let doe := yoe * 365 + yoe / 4 - yoe / 100 + doy in
  era * 146097 + doe - 719468.

Definition pad (width : Z) (n : Z) : string :=
  let ds := digits n in (zeros (width - slen ds) ++ ds)%string.

Definition iso_string (t : Z) : string :=
  let '(y, m, d) := civil_from_days (t / msPerDay) in
  let ms := t mod msPerDay in
  let year := if (0 <=? y) && (y <=? 9999) then pad 4 y
              else ((if (y <? 0)%Z then "-" else "+") ++ pad 6 (Z.abs y))%string in
  (year ++ "-" ++ pad 2 m ++ "-" ++ pad 2 d ++ "T"
     ++ pad 2 (ms / 3600000) ++ ":" ++ pad 2 (ms / 60000 mod 60) ++ ":"
     ++ pad 2 (ms / 1000 mod 60) ++ "." ++ pad 3 (ms mod 1000) ++ "Z")%string.

(** [d.toISOString()] *)
Definition toISOString (d : Date) : Res string :=
  match d with
  | Some t => Ret (iso_string t)
  | None => Throw (RangeError "Invalid time value")
  end.

Definition TimeClip (n : Num) : Date :=
  match n with
  | Dec m e =>
      let t := num_trunc m e in
      if Z.abs t <=? 8640000000000000 then Some t else None
  | _ => None
  end.

Definition ToNumber_primitive (v : JsVal) : Num :=
  match v with
  | JNull => int 0
  | JBool b => int (if b then 1 else 0)
  | JNum n => n
  | _ => NaN
  end.

(** What the program takes from its host: how [Date] reads a string (the
    accepted formats are the engine's), the offset of the local time zone
    at a given instant, and the process environment. *)
Record Host : Type := {
  Date_parse : string -> Date;
  LocalTZA : Z -> Z;
  process_env : string -> option string;
}.

(** [new Date(v)]: a string is parsed, an object is first turned into
    its string, any other value is a time value. *)
Definition Date_new (h : Host) (v : JsVal) : Res Date :=
  match v with
  | JStr s => Ret (Date_parse h s)
  | JArr _ | JObj _ | JBuiltin _ =>
      bindR (ToString v) (fun s => Ret (Date_parse h s))
  | _ => Ret (TimeClip (ToNumber_primitive v))
  end.

Definition local_civil (h : Host) (t : Z) : Z * Z * Z :=
  civil_from_days ((t + LocalTZA h t) / msPerDay).

Definition getFullYear (h : Host) (t : Z) : Z := fst (fst (local_civil h t)).
Definition getMonth (h : Host) (t : Z) : Z := snd (fst (local_civil h t)) - 1.
Definition getDate (h : Host) (t : Z) : Z := snd (local_civil h t).

(** *** The match of [/<Access_Token>(.*?)<\/Access_Token>/] *)

Definition is_line_terminator (c : ascii) : bool :=
  (Ascii.eqb c "010" || Ascii.eqb c "013")%bool.

(** [(.*?)</Access_Token>] anchored at the head of [s]: the capture. *)
Fixpoint lazy_capture (s : string) : option string :=
  if prefix "</Access_Token>" s then Some ""
  else match s with
       | EmptyString => None
       | String c r =>
           if is_line_terminator c then None
           else option_map (String c) (lazy_capture r)
       end.

(** The capture of the leftmost match in [s], when the pattern matches. *)
Fixpoint match_Access_Token (s : string) : option string :=
  let here := if prefix "<Access_Token>" s
              then lazy_capture (drop 14 s) else None in
  match here with
  | Some g => Some g
  | None => match s with
            | EmptyString => None
            | String _ r => match_Access_Token r
            end
  end.

(** *** Number conversion, [Math.floor], [parseInt], [for ... of] *)

Fixpoint rev_string (s acc : string) : string :=
  match s with
  | EmptyString => acc
  | String c r => rev_string r (String c acc)
  end.

(** White space and line terminators stripped from both ends. *)
Definition trim (s : string) : string :=
  rev_string (skip_spaces (rev_string (skip_spaces s) "")) "".

(** The value of a digit in radixes up to 36. *)
Definition digit_value (c : ascii) : option Z :=
  let n := Z.of_N (N_of_ascii c) in
  if (48 <=? n) && (n <=? 57) then Some (n - 48)
  else if (97 <=? n) && (n <=? 122) then Some (n - 87)
  else if (65 <=? n) && (n <=? 90) then Some (n - 55)
  else None.

(** The leading run of digits of [radix]: value, length, rest. *)
Fixpoint take_radix_digits (radix : Z) (s : string) (acc len : Z)
    : Z * Z * string :=
  match s with
  | String c r =>
      match digit_value c with
      | Some d =>
          if d <? radix then take_radix_digits radix r (radix * acc + d) (len + 1)
          else (acc, len, s)
      | None => (acc, len, s)
      end
  | EmptyString => (acc, len, s)
  end.


(** A whole string of digits of [radix], as the literals [0x..], [0o..]
    and [0b..] need it. *)
Definition radix_literal (radix : Z) (s : string) : Num :=
  let '(v, len, rest) := take_radix_digits radix s 0 0 in
  if (0 <? len) && (rest =? "")%string then int v else NaN.

(** The exponent part of a numeric string, which must be the whole of
    [s]. *)
Definition exponent_exact (s : string) : option Z :=
  match s with
  | EmptyString => Some 0
  | String c r =>
      if (Ascii.eqb c "e" || Ascii.eqb c "E")%bool then
        let '(neg, r') :=
          match r with
          | String "-" t => (true, t)
          | String "+" t => (false, t)
          | _ => (false, r)
          end in
        let '(v, len, rest) := take_digits r' 0 0 in
        if (0 <? len) && (rest =? "")%string
        then Some (if neg then - v else v) else None
      else None
  end.

(** The number a string stands for, [NaN] unless the whole string is a
    numeric literal. *)
Definition StringToNumber (s : string) : Num :=
  let s := trim s in
  if (s =? "")%string then int 0
  else if (prefix "0x" s || prefix "0X" s)%bool then radix_literal 16 (drop 2 s)
  else if (prefix "0o" s || prefix "0O" s)%bool then radix_literal 8 (drop 2 s)
  else if (prefix "0b" s || prefix "0B" s)%bool then radix_literal 2 (drop 2 s)
  else
    let '(neg, s) :=
      match s with
      | String "-" t => (true, t)
      | String "+" t => (false, t)
      | _ => (false, s)
      end in
    if (s =? "Infinity")%string then Inf neg else
    let '(ip, ilen, s) := take_digits s 0 0 in
    let '(fp, flen, s) :=
      match s with
      | String "." t => take_digits t 0 0
      | _ => (0, 0, s)
      end in
    if ilen + flen =? 0 then NaN else
    match exponent_exact s with
    | Some ex =>
        let m := ip * 10 ^ flen + fp in
        clip64 (if neg then - m else m) (ex - flen)
    | None => NaN
    end.

(** [Number(v)], as the arithmetic built-ins convert their argument. *)
Definition ToNumber (v : JsVal) : Res Num :=
  match v with
  | JStr s => Ret (StringToNumber s)
  | JArr _ | JObj _ | JBuiltin _ =>
      bindR (ToString v) (fun s => Ret (StringToNumber s))
  | _ => Ret (ToNumber_primitive v)
  end.

Definition floor_num (n : Num) : Num :=
  match n with
  | Dec m e => if 0 <=? e then Dec m e else Dec (m / 10 ^ (- e)) 0
  | _ => n
  end.

(** [Math.floor(v)] *)
Definition Math_floor (v : JsVal) : Res JsVal :=
  bindR (ToNumber v) (fun n => Ret (JNum (floor_num n))).

Fixpoint chars (s : string) : list JsVal :=
  match s with
  | EmptyString => []
  | String c r => JStr (String c "") :: chars r
  end.

(** The values [for (const x of v)] runs over, [src] the source text of
    [v]: the elements of an array, the characters of a string; nothing
    else can be iterated. *)
Definition for_of (src : string) (v : JsVal) : Res (list JsVal) :=
  match v with
  | JArr l => Ret l
  | JStr s => Ret (chars s)
  | _ => Throw (TypeError (src ++ " is not iterable"))
  end.

(** [recv.toString()], [src] the source text of the receiver. *)
Definition toStringCall (src : string) (recv : JsVal) : Res JsVal :=
  match recv with
  | JUndefined | JNull =>
      Throw (TypeError ("Cannot read properties of " ++ nullish_name recv
                          ++ " (reading 'toString')"))
  | JObj fs =>
      if shadows_toString fs
      then Throw (TypeError (src ++ ".toString is not a function"))
      else Ret (JStr "[object Object]")
  | _ => bindR (ToString recv) (fun s => Ret (JStr s))
  end.

End Js.

(** ** The world the services run in *)
Module Runtime.
Import Js.

(** One [axios.post(url, data, { headers })]. *)
Record Request : Type := {
  url : string;
  body : JsVal;
  headers : list (string * JsVal);
}.

(** What the transport gives back: [response.data], or a rejection. *)
Inductive Reply : Type :=
| Response (data : JsVal)
| Failure (msg : string).

(** The clock read by [Date.now()], the two fields of the singleton token
    manager, the requests posted so far, and the remote end: its reply to
    a request after a given history, with the time the round trip takes. *)
Record World : Type := {
  now : Z;
  token : JsVal;
  tokenExpiry : option Z;
  sent : list Request;
  network : list Request -> Request -> Reply * Z;
}.

Definition M (A : Type) : Type := World -> Res A * World.

Definition ret {A} (a : A) : M A := fun w => (Ret a, w).

Definition throw {A} (e : Exn) : M A := fun w => (Throw e, w).

Definition bind {A B} (m : M A) (k : A -> M B) : M B :=
  fun w =>
    match m w with
    | (Ret a, w') => k a w'
    | (Throw e, w') => (Throw e, w')
    end.

(** [try { m } catch (error) { handler error }] *)
Definition try_catch {A} (m : M A) (handler : Exn -> M A) : M A :=
  fun w =>
    match m w with
    | (Ret a, w') => (Ret a, w')
    | (Throw e, w') => handler e w'
    end.

Definition liftR {A} (r : Res A) : M A := fun w => (r, w).

Definition Date_now : M Z := fun w => (Ret (now w), w).

Definition this_token : M JsVal := fun w => (Ret (token w), w).

Definition this_tokenExpiry : M (option Z) := fun w => (Ret (tokenExpiry w), w).

Definition set_token (v : JsVal) : M unit :=
  fun w => (Ret tt, {| now := now w; token := v; tokenExpiry := tokenExpiry w;
                       sent := sent w; network := network w |}).

Definition set_tokenExpiry (e : option Z) : M unit :=
  fun w => (Ret tt, {| now := now w; token := token w; tokenExpiry := e;
                       sent := sent w; network := network w |}).

(** [await axios.post(url, data, { headers })], then [.data]. *)
Definition axios_post (u : string) (data : JsVal)
    (hs : list (string * JsVal)) : M JsVal :=
  fun w =>
    let req := {| url := u; body := data; headers := hs |} in
    let '(reply, elapsed) := network w (sent w) req in
    let w' := {| now := now w + elapsed; token := token w;
                 tokenExpiry := tokenExpiry w;
                 sent := sent w ++ [req]; network := network w |} in
    match reply with
    | Response d => (Ret d, w')
    | Failure msg => (Throw (Error msg), w')
    end.

End Runtime.

Declare Scope js_scope.
Delimit Scope js_scope with js.
Notation "x <- m ;; k" := (Runtime.bind m (fun x => k))
  (at level 61, m at next level, right associativity) : js_scope.
Notation "m ;; k" := (Runtime.bind m (fun _ => k))
  (at level 61, right associativity) : js_scope.
Notation "'let*' x := r 'in' k" := (Js.bindR r (fun x => k))
  (at level 10, x name, r at level 100, k at level 200).
Notation "a ||| b" := (Js.orR a b) (at level 50, left associativity).

(** ** config.js *)
Module Config.
Import Js.

Record Eshopaid : Type := {
  serverUrl : string;
  tokenEndpoint : string;
  processDataEndpoint : string;
  username : string;
  password : string;
  storeLocation : string;
  sourceChannel : string;
  tokenLifetimeMinutes : Z;
  tokenRefreshBuffer : Z;
}.

(** [process.env.NAME || dflt] *)
Definition env_or (h : Host) (name dflt : string) : string :=
  match process_env h name with
  | Some v => if (v =? "")%string then dflt else v
  | None => dflt
  end.

Definition eshopaid (h : Host) : Eshopaid := {|
  serverUrl := env_or h "ESHOPAID_SERVER_URL" "http://localhost/eShopaidService.svc";
  tokenEndpoint := "/Token";
  processDataEndpoint := "/ProcessData";
  username := env_or h "ESHOPAID_USERNAME" "Wondersoft";
  password := env_or h "ESHOPAID_PASSWORD" "Wondersoft#12";
  storeLocation := env_or h "ESHOPAID_STORE_LOCATION" "HO";
  sourceChannel := env_or h "ESHOPAID_SOURCE_CHANNEL" "Shopify";
  tokenLifetimeMinutes := 30;
  tokenRefreshBuffer := 5;
|}.

Definition GET_TOKEN : string := "GetToken".
Definition GET_INVENTORY : string := "GetInventory".
Definition ADD_CUSTOMER : string := "AddCustomer".
Definition MODIFY_CUSTOMER : string := "ModifyCustomer".
Definition CREATE_SALES_ORDER : string := "CreateSalesOrder".
Definition GET_ORDER_DETAIL : string := "GetOrderDetail".
Definition CREATE_RETURN_ORDER : string := "CreateReturnOrder".
Definition SET_ORDER_STATUS : string := "SetOrderStatus".


End Config.

(** ** token-manager.js *)
Module TokenManager.
Import Js Runtime.
Local Open Scope js_scope.

(** The fields as the constructor leaves them. *)
Definition constructor (clock : Z)
    (net : list Request -> Request -> Reply * Z) : World :=
  {| now := clock; token := JNull; tokenExpiry := None;
     sent := []; network := net |}.

(** [!this.tokenExpiry] *)
Definition expiry_falsy (e : option Z) : bool :=
  match e with
  | None => true
  | Some t => t =? 0
  end.

Section WithHost.
Variable h : Host.

Definition isTokenValid : M bool :=
  tok <- this_token ;;
  expiry <- this_tokenExpiry ;;
  if negb (truthy tok) || expiry_falsy expiry then ret false
  else
    let bufferMs := Config.tokenRefreshBuffer (Config.eshopaid h) * 60 * 1000 in
    t <- Date_now ;;
    ret (match expiry with
         | Some e => t <? e - bufferMs
         | None => false
         end).

(** The access token read out of [response.data], [undefined] when there
    is none (the body of the [try] up to the test of [accessToken]). *)
Definition accessToken_of (data : JsVal) : Res JsVal :=
  match data with
  | JStr s =>
      match match_Access_Token s with
      | Some g => Ret (JStr g)
      | None => Ret JUndefined
      end
  | _ =>
      let* r := get data "Response" in
      if truthy r then
        let* result := get r "Result" in
        get r "Access_Token"
      else Ret JUndefined
  end.

Definition generateToken : M JsVal :=
  try_catch
    (let cfg := Config.eshopaid h in
     let u := (Config.serverUrl cfg ++ Config.tokenEndpoint cfg)%string in
     data <- axios_post u (JStr "")
               [ ("SERVICE_METHODNAME", JStr Config.GET_TOKEN);
                 ("Username", JStr (Config.username cfg));
                 ("Password", JStr (Config.password cfg));
                 ("Content-Type", JStr "application/json") ] ;;
     accessToken <- liftR (accessToken_of data) ;;
     if truthy accessToken then
       set_token accessToken ;;
       t <- Date_now ;;
       set_tokenExpiry (Some (t + Config.tokenLifetimeMinutes cfg * 60 * 1000)) ;;
       this_token
     else throw (Error "Failed to extract token from response"))
    (fun error => throw error).

Definition getToken : M JsVal :=
  valid <- isTokenValid ;;
  if valid then this_token else generateToken.

Definition refreshToken : M JsVal := generateToken.

Definition clearToken : M unit :=
  set_token JNull ;;
  set_tokenExpiry None.

End WithHost.
End TokenManager.

(** ** order-service.js *)
Module OrderService.
Import Js Runtime.
Local Open Scope js_scope.

Definition gatewayMap : list (string * string) :=
  [ ("shopify_payments", "CreditCard");
    ("paypal", "PayPal");
    ("razorpay", "OnlinePayment");
    ("paytm", "OnlinePayment");
    ("cod", "Cash");
    ("cash_on_delivery", "Cash");
    ("manual", "Cash") ].

Definition gstCodes : list (string * string) :=
  [ ("jammu and kashmir", "01"); ("himachal pradesh", "02"); ("punjab", "03");
    ("chandigarh", "04"); ("uttarakhand", "05"); ("haryana", "06");
    ("delhi", "07"); ("rajasthan", "08"); ("uttar pradesh", "09");
    ("bihar", "10"); ("sikkim", "11"); ("arunachal pradesh", "12");
    ("nagaland", "13"); ("manipur", "14"); ("mizoram", "15");
    ("tripura", "16"); ("meghalaya", "17"); ("assam", "18");
    ("west bengal", "19"); ("jharkhand", "20"); ("odisha", "21");
    ("chattisgarh", "22"); ("madhya pradesh", "23"); ("gujarat", "24");
    ("dadra and nagar haveli", "26"); ("maharashtra", "27"); ("karnataka", "29");
    ("goa", "30"); ("lakshadweep", "31"); ("kerala", "32");
    ("tamil nadu", "33"); ("puducherry", "34"); ("andaman and nicobar", "35");
    ("telangana", "36"); ("andhra pradesh", "37"); ("ladakh", "38") ].

Definition mapPaymentGateway (gateway : JsVal) : Res JsVal :=
  let* key := toLowerCaseOpt "gateway" gateway in
  table_lookup gatewayMap key "OnlinePayment".

Definition getStateGSTCode (stateName : JsVal) : Res JsVal :=
  let* key := toLowerCaseOpt "stateName" stateName in
  table_lookup gstCodes key "".

Definition parseOrderResponse (response : JsVal) : Res JsVal :=
  let* r := get response "Response" in
  if truthy r then
    object
      [ ("success", let* result := get r "Result" in
                    Ret (JBool (is_str "SUCCESS" result)));
        ("message", get r "StatusMessage");
        ("data", get r "StatusReference" ||| get r "Data");
        ("error", get r "FailureReason") ]
  else
    Ret (JObj [ ("success", JBool false);
                ("error", JStr "Invalid response format") ]).

Definition parseStatusResponse (response : JsVal) : Res JsVal :=
  let* r := get response "Response" in
  if truthy r then
    object
      [ ("success", let* result := get r "Result" in
                    Ret (JBool (is_str "SUCCESS" result)));
        ("data", let* d := get r "Data" in Ret (getOpt d "OrderStatusUpdate"));
        ("error", get r "FailureReason") ]
  else
    Ret (JObj [ ("success", JBool false);
                ("error", JStr "Invalid response format") ]).

Section WithHost.
Variable h : Host.

Definition makeRequest (method : string) (data : JsVal) : M JsVal :=
  tok <- TokenManager.getToken h ;;
  let cfg := Config.eshopaid h in
  let u := (Config.serverUrl cfg ++ Config.processDataEndpoint cfg)%string in
  try_catch
    (axios_post u data
       [ ("SERVICE_METHODNAME", JStr method);
         ("AUTHORIZATION", tok);
         ("Content-Type", JStr "application/json") ])
    (fun error => throw error).

(** The callback of [order.line_items.map]. *)
Definition transform_line_item (item : JsVal) (index : nat) : Res JsVal :=
  object
    [ ("LineNumber", Ret (num (Z.of_nat index + 1)));
      ("ItemCode", get item "sku"
                   ||| (let* v := get item "variant_id" in
                        toStringOpt "item.variant_id" v));
      ("Quantity", get item "quantity");
      ("Rate", let* p := get item "price" in
               let* n := parseFloat p in Ret (JNum n));
      ("DiscountAmount", let* d := get item "total_discount" ||| Ret (num 0) in
                         let* n := parseFloat d in Ret (JNum n));
      ("LineRemarks", get item "name") ].

(** The callback of [order.shipping_lines?.reduce]; the accumulator
    starts at [0] and stays a number. *)
Definition add_shipping_line (sum : Num) (line : JsVal) : Res Num :=
  let* p := get line "price" ||| Ret (num 0) in
  let* n := parseFloat p in
  Ret (num_add sum n).

Definition transformShopifyOrder (order : JsVal) : Res JsVal :=
  let cfg := Config.eshopaid h in
  let* customer := get order "customer" ||| Ret (JObj []) in
  let* shippingAddress :=
    get order "shipping_address" ||| get order "billing_address" ||| Ret (JObj []) in
  let* billingAddress := get order "billing_address" ||| Ret (JObj []) in
  (* Format date as YYYYMMDD *)
  let* created_at := get order "created_at" in
  let* orderDate := Date_new h created_at in
  let* iso := toISOString orderDate in
  let formattedDate := remove_dashes (slice 0 10 iso) in
  (* Transform line items *)
  let* line_items := get order "line_items" in
  let* items :=
    array_method "order.line_items" "map" line_items
      (fun l => let* out := mapiR transform_line_item 0 l in Ret (JArr out)) in
  (* Calculate shipping charge *)
  let* shipping_lines := get order "shipping_lines" in
  let* shippingCharge :=
    array_methodOpt "order.shipping_lines" "reduce" shipping_lines
      (fun l => let* s := foldR add_shipping_line (int 0) l in Ret (JNum s))
    ||| Ret (num 0) in
  (* Other charges (shipping) *)
  let* otherCharges :=
    if gt0 shippingCharge then
      object
        [ ("Charge",
           let* c := object
             [ ("ChargeDescription", str "Shipping");
               ("ChargeValue", Ret shippingCharge);
               ("ChargeReference",
                (let* sl := get order "shipping_lines" in
                 Ret (getOpt (getOpt sl "0") "title"))
                ||| str "Standard Shipping") ] in
           Ret (JArr [c])) ]
    else Ret (JObj []) in
  (* Payment information *)
  let* payments :=
    object
      [ ("Payment",
         let* p := object
           [ ("PaymentMode", let* g := get order "gateway" in mapPaymentGateway g);
             ("PaymentValue", let* t := get order "total_price" in
                              let* n := parseFloat t in Ret (JNum n));
             ("ModeType", (let* names := get order "payment_gateway_names" in
                           Ret (getOpt names "0")) ||| str "");
             ("PaymentReference", get order "checkout_token" ||| str "") ] in
         Ret (JArr [p])) ] in
  (* Extract state GST code (for Indian orders) *)
  let* province := get shippingAddress "province" in
  let* stateGSTCode := getStateGSTCode province in
  object
    [ ("Order", object
        [ ("Customer", object
            [ ("TitleName", str "");
              ("FirstName", get customer "first_name"
                            ||| get shippingAddress "first_name" ||| str "Guest");
              ("MiddleName", str "");
              ("LastName", get customer "last_name"
                           ||| get shippingAddress "last_name" ||| str "");
              ("Gender", str "");
              ("MobileNumber", get shippingAddress "phone"
                               ||| get customer "phone" ||| str "");
              ("EmailID", get customer "email" ||| get order "email" ||| str "");
              ("CustomerAddressLine1", get billingAddress "address1" ||| str "");
              ("CustomerAddressLine2", get billingAddress "address2" ||| str "");
              ("CustomerAddressLine3", str "");
              ("CustomerCityName", get billingAddress "city" ||| str "");
              ("CustomerStateName", get billingAddress "province" ||| str "");
              ("CustomerStateGSTCode", Ret stateGSTCode);
              ("Pincode", get billingAddress "zip" ||| str "") ]);
          ("Header", object
            [ ("OrderDate", str formattedDate);
              ("OrderNumber", get order "name"
                              ||| (let* id := get order "id" in
                                   let* s := ToString id in
                                   str ("ORD" ++ s)));
              ("OrderLocation", str (Config.storeLocation cfg));
              ("CustomerCode", str "");
              ("DeliveryAddressLine1", get shippingAddress "address1" ||| str "");
              ("DeliveryAddressLine2", get shippingAddress "address2" ||| str "");
              ("DeliveryAddressLine3", str "");
              ("DeliveryCityName", get shippingAddress "city" ||| str "");
              ("DeliveryStateName", get shippingAddress "province" ||| str "");
              ("DeliveryStateGSTCode", Ret stateGSTCode);
              ("DeliveryPincode", get shippingAddress "zip" ||| str "");
              ("TotalOrderValue", let* t := get order "total_price" in
                                  let* n := parseFloat t in Ret (JNum n));
              ("ExpectedDeliveryDate", str "");
              ("OrderRemarks", get order "note" ||| str "");
              ("SourceChannel", str (Config.sourceChannel cfg)) ]);
          ("Items", object [ ("Item", Ret items) ]);
          ("OtherCharges", Ret otherCharges);
          ("Payments", Ret payments) ]) ].

Definition createSalesOrder (shopifyOrder : JsVal) : M JsVal :=
  orderData <- liftR (transformShopifyOrder shopifyOrder) ;;
  liftR (let* label := get shopifyOrder "name"
                       ||| get shopifyOrder "order_number" in
         ToString label) ;;
  response <- makeRequest Config.CREATE_SALES_ORDER orderData ;;
  liftR (parseOrderResponse response).

(** [setOrderStatus(orderNumber, orderDate, status)]: [location] takes
    its default, [config.eshopaid.storeLocation]. *)
Definition setOrderStatus (orderNumber orderDate status : JsVal) : M JsVal :=
  let location := JStr (Config.storeLocation (Config.eshopaid h)) in
  let statusData :=
    JObj [ ("OrderStatusUpdate",
            JObj [ ("VendorOrderDate", orderDate);
                   ("VendorOrderNumber", orderNumber);
                   ("OrderLocation", location);
                   ("OrderStatus", status) ]) ] in
  liftR (let* _ := ToString orderNumber in ToString status) ;;
  response <- makeRequest Config.SET_ORDER_STATUS statusData ;;
  liftR (parseStatusResponse response).

Definition createReturnOrder (returnData : JsVal) : M JsVal :=
  let cfg := Config.eshopaid h in
  liftR (let* ref := get returnData "refOrderNumber" in ToString ref) ;;
  returnOrder <- liftR (object
    [ ("ReturnOrder", object
        [ ("Customer", get returnData "customer");
          ("Header", object
            [ ("ReturnOrderDate", get returnData "returnDate");
              ("ReturnOrderNumber", get returnData "returnOrderNumber");
              ("RefOrderDate", get returnData "refOrderDate");
              ("RefOrderNumber", get returnData "refOrderNumber");
              ("RefOrderLocation", get returnData "location"
                                   ||| str (Config.storeLocation cfg));
              ("TotalReturnOrderValue", get returnData "totalValue");
              ("ReturnOrderRemarks", get returnData "remarks" ||| str "");
              ("SourceChannel", str (Config.sourceChannel cfg)) ]);
          ("Items", object [ ("Item", get returnData "items") ]);
          ("Payments", object [ ("Payment", get returnData "payments") ]) ]) ]) ;;
  response <- makeRequest Config.CREATE_RETURN_ORDER returnOrder ;;
  liftR (parseOrderResponse response).

End WithHost.
End OrderService.

(** ** customer-service.js *)
Module CustomerService.
Import Js Runtime.
Local Open Scope js_scope.

Definition formatCustomerData (data : JsVal) : Res JsVal :=
  object
    [ ("TitleName", get data "title" ||| str "");
      ("FirstName", get data "firstName" ||| get data "first_name" ||| str "");
      ("MiddleName", get data "middleName" ||| str "");
      ("LastName", get data "lastName" ||| get data "last_name" ||| str "");
      ("Gender", get data "gender" ||| str "");
      ("MobileNumber", get data "phone" ||| get data "mobileNumber" ||| str "");
      ("EmailID", get data "email" ||| get data "emailId" ||| str "");
      ("CustomerAddressLine1",
       get data "address1" ||| get data "customerAddressLine1" ||| str "");
      ("CustomerAddressLine2",
       get data "address2" ||| get data "customerAddressLine2" ||| str "");
      ("CustomerAddressLine3",
       get data "address3" ||| get data "customerAddressLine3" ||| str "");
      ("CustomerCityName", get data "city" ||| get data "customerCityName" ||| str "");
      ("CustomerStateName", get data "state" ||| get data "customerStateName" ||| str "");
      ("Pincode", get data "pincode" ||| get data "zip" ||| str "");
      ("DeliveryAddressLine1", get data "deliveryAddress1" ||| str "");
      ("DeliveryAddressLine2", get data "deliveryAddress2" ||| str "");
      ("DeliveryAddressLine3", get data "deliveryAddress3" ||| str "");
      ("DeliveryCityName", get data "deliveryCity" ||| str "");
      ("DeliveryStateName", get data "deliveryState" ||| str "");
      ("DeliveryPincode", get data "deliveryPincode" ||| str "");
      ("DOBDay", get data "dobDay" ||| str "");
      ("DOBMonth", get data "dobMonth" ||| str "");
      ("DOBYear", get data "dobYear" ||| str "") ].

Definition parseResponse (response : JsVal) : Res JsVal :=
  let* r := get response "Response" in
  if truthy r then
    object
      [ ("success", let* result := get r "Result" in
                    Ret (JBool (is_str "SUCCESS" result)));
        ("customerCode", let* d := get r "Data" in Ret (getOpt d "CustomerCode"));
        ("error", get r "FailureReason") ]
  else
    Ret (JObj [ ("success", JBool false);
                ("error", JStr "Invalid response format") ]).

Section WithHost.
Variable h : Host.

Definition makeRequest (method : string) (data : JsVal) : M JsVal :=
  tok <- TokenManager.getToken h ;;
  let cfg := Config.eshopaid h in
  let u := (Config.serverUrl cfg ++ Config.processDataEndpoint cfg)%string in
  try_catch
    (axios_post u data
       [ ("SERVICE_METHODNAME", JStr method);
         ("AUTHORIZATION", tok);
         ("Content-Type", JStr "application/json") ])
    (fun error => throw error).

Definition addCustomer (customerData : JsVal) : M JsVal :=
  customer <- liftR (formatCustomerData customerData) ;;
  liftR (let* label := get customerData "email" ||| get customerData "phone" in
         ToString label) ;;
  response <- makeRequest Config.ADD_CUSTOMER (JObj [ ("Customer", customer) ]) ;;
  liftR (parseResponse response).

Definition modifyCustomer (customerCode customerData : JsVal) : M JsVal :=
  customer <- liftR (formatCustomerData customerData) ;;
  let customer := set_prop customer "CustomerCode" customerCode in
  liftR (ToString customerCode) ;;
  response <- makeRequest Config.MODIFY_CUSTOMER (JObj [ ("Customer", customer) ]) ;;
  liftR (parseResponse response).

(** [dobDay], [dobMonth] and [dobYear]. *)
Definition parse_dob (customer : JsVal) : Res (JsVal * JsVal * JsVal) :=
  let* present := get customer "birthday"
                  ||| (let* m := get customer "metafields" in Ret (getOpt m "dob")) in
  if truthy present then
    let* source := get customer "birthday"
                   ||| (let* m := get customer "metafields" in get m "dob") in
    let* dob := Date_new h source in
    match dob with
    | Some t => Ret (num (getDate h t), num (getMonth h t + 1), num (getFullYear h t))
    | None => Ret (JStr "", JStr "", JStr "")
    end
  else Ret (JStr "", JStr "", JStr "").

Definition transformShopifyCustomer (customer : JsVal) : Res JsVal :=
  let* address :=
    get customer "default_address"
    ||| (let* a := get customer "addresses" in Ret (getOpt a "0"))
    ||| Ret (JObj []) in
  (* Parse DOB if available *)
  let* dob := parse_dob customer in
  let '(dobDay, dobMonth, dobYear) := dob in
  object
    [ ("firstName", get customer "first_name" ||| str "");
      ("lastName", get customer "last_name" ||| str "");
      ("email", get customer "email" ||| str "");
      ("phone", get customer "phone" ||| get address "phone" ||| str "");
      ("address1", get address "address1" ||| str "");
      ("address2", get address "address2" ||| str "");
      ("city", get address "city" ||| str "");
      ("state", get address "province" ||| str "");
      ("pincode", get address "zip" ||| str "");
      ("dobDay", Ret dobDay);
      ("dobMonth", Ret dobMonth);
      ("dobYear", Ret dobYear) ].

(** [syncFromShopify(shopifyCustomer, existingCode = null)] *)
Definition syncFromShopify (shopifyCustomer existingCode : JsVal) : M JsVal :=
  let existingCode := match existingCode with
                      | JUndefined => JNull
                      | c => c
                      end in
  customerData <- liftR (transformShopifyCustomer shopifyCustomer) ;;
  if truthy existingCode then modifyCustomer existingCode customerData
  else addCustomer customerData.

End WithHost.
End CustomerService.

(** ** inventory-service.js *)
Module InventoryService.
Import Js Runtime.
Local Open Scope js_scope.

(** The callback of [itemArray.map]. *)
Definition normalize_item (item : JsVal) (_ : nat) : Res JsVal :=
  object
    [ ("productCode", get item "ProductCode");
      ("eanCode", let* c := get item "EANCode" in
                  let* s := ToString c in Ret (JStr s));
      ("itemCode", get item "ItemCode");
      ("itemName", get item "ItemName");
      ("mrp", let* v := get item "MRP" in parseFloat_or_0 v);
      ("stock", let* v := get item "Stock" in parseFloat_or_0 v);
      ("salesPrice", let* v := get item "SalesPrice" in parseFloat_or_0 v);
      ("taxRate", let* v := get item "TaxRate" in parseFloat_or_0 v);
      ("lastModified", get item "LastModifiedOn");
      ("saleUnit", get item "SaleUnit");
      ("perUnitPrice", let* v := get item "PerUnitSalesPrice" in
                       parseFloat_or_0 v) ].

Definition normalizeItems (items : JsVal) : Res JsVal :=
  if negb (truthy items) then Ret (JArr [])
  else
    let itemArray := match items with
                     | JArr l => l
                     | _ => [items]
                     end in
    let* out := mapiR normalize_item 0 itemArray in
    Ret (JArr out).

(** One entry of [inventoryByLocation]. *)
Definition normalize_location (loc : JsVal) (_ : nat) : Res JsVal :=
  object
    [ ("location", get loc "Location");
      ("items", let* its := get loc "Items" in normalizeItems (getOpt its "Item")) ].

(** The callback of [inventoryByLocation.reduce]: [sum + loc.items.length],
    both numbers. *)
Definition add_item_count (sum : Num) (loc : JsVal) : Res Num :=
  let* items := get loc "items" in
  let* len := get items "length" in
  Ret (num_add sum (ToNumber_primitive len)).

Definition parseInventoryResponse (response : JsVal) : Res JsVal :=
  let result success inventoryByLocation totalItems error :=
    JObj [ ("success", JBool success);
           ("inventoryByLocation", JArr inventoryByLocation);
           ("totalItems", JNum totalItems);
           ("error", error) ] in
  (* Handle JSON response format *)
  let* r := get response "Response" in
  if truthy r then
    let* res := get r "Result" in
    if is_str "SUCCESS" res then
      let* data := get r "Data" in
      let inventoryData := getOpt data "Inventory" in
      let* inventoryByLocation :=
        match inventoryData with
        | JArr l => mapiR normalize_location 0 l
        | _ =>
            if truthy inventoryData then
              let* one := normalize_location inventoryData 0%nat in Ret [one]
            else Ret []
        end in
      let* totalItems := foldR add_item_count (int 0) inventoryByLocation in
      Ret (result true inventoryByLocation totalItems JNull)
    else
      let* error := get r "FailureReason" ||| str "Unknown error" in
      Ret (result false [] (int 0) error)
  else Ret (result false [] (int 0) JNull).

(** One entry of [updates]. *)
Definition shopify_update (item : JsVal) : Res JsVal :=
  object
    [ ("sku", get item "eanCode" ||| get item "itemCode");
      ("quantity", let* stock := get item "stock" in Math_floor stock);
      ("price", get item "salesPrice");
      ("compareAtPrice", get item "mrp") ].

(** The inner loop: the updates of one location pushed onto [updates]. *)
Definition push_location (updates : list JsVal) (location : JsVal)
    : Res (list JsVal) :=
  let* its := get location "items" in
  let* items := for_of "location.items" its in
  foldR (fun updates item =>
           let* u := shopify_update item in Ret (updates ++ [u])%list)
        updates items.

Definition formatForShopify (inventoryData : JsVal) : Res JsVal :=
  let* locs := get inventoryData "inventoryByLocation" in
  let* locations := for_of "inventoryData.inventoryByLocation" locs in
  let* updates := foldR push_location [] locations in
  Ret (JArr updates).

Section WithHost.
Variable h : Host.

Definition makeRequest (method : string) (data : JsVal) : M JsVal :=
  tok <- TokenManager.getToken h ;;
  let cfg := Config.eshopaid h in
  let u := (Config.serverUrl cfg ++ Config.processDataEndpoint cfg)%string in
  try_catch
    (axios_post u data
       [ ("SERVICE_METHODNAME", JStr method);
         ("AUTHORIZATION", tok);
         ("Content-Type", JStr "application/json") ])
    (fun error => throw error).

(** A parameter with the default [config.eshopaid.storeLocation]. *)
Definition or_storeLocation (location : JsVal) : JsVal :=
  match location with
  | JUndefined => JStr (Config.storeLocation (Config.eshopaid h))
  | _ => location
  end.

(** [getInventoryByLocation(location = config.eshopaid.storeLocation)] *)
Definition getInventoryByLocation (location : JsVal) : M JsVal :=
  let location := or_storeLocation location in
  let requestData :=
    JObj [ ("Params", JObj [ ("Location", location);
                             ("DateFilter", JStr "");
                             ("ProductCode", JStr "") ]) ] in
  liftR (ToString location) ;;
  response <- makeRequest Config.GET_INVENTORY requestData ;;
  liftR (parseInventoryResponse response).

Definition getInventoryByProduct (productCode : JsVal) : M JsVal :=
  let requestData :=
    JObj [ ("Params", JObj [ ("Location", JStr "");
                             ("DateFilter", JStr "");
                             ("ProductCode", productCode) ]) ] in
  liftR (ToString productCode) ;;
  response <- makeRequest Config.GET_INVENTORY requestData ;;
  liftR (parseInventoryResponse response).

(** [getIncrementalInventory(dateFilter, location = '')] *)
Definition getIncrementalInventory (dateFilter location : JsVal) : M JsVal :=
  let location := match location with
                  | JUndefined => JStr ""
                  | _ => location
                  end in
  let requestData :=
    JObj [ ("Params", JObj [ ("Location", location);
                             ("DateFilter", dateFilter);
                             ("ProductCode", JStr "") ]) ] in
  liftR (ToString dateFilter) ;;
  response <- makeRequest Config.GET_INVENTORY requestData ;;
  liftR (parseInventoryResponse response).

(** [getInventoryBySKUList(skuCodes, location = config.eshopaid.storeLocation)] *)
Definition getInventoryBySKUList (skuCodes location : JsVal) : M JsVal :=
  let location := or_storeLocation location in
  let requestData :=
    JObj [ ("Params", JObj [ ("Location", location);
                             ("SKUList", JObj [ ("SKUCode", skuCodes) ]) ]) ] in
  liftR (let* n := get skuCodes "length" in ToString n) ;;
  response <- makeRequest Config.GET_INVENTORY requestData ;;
  liftR (parseInventoryResponse response).

End WithHost.
End InventoryService.

(** ** webhook-handlers.js *)
Module WebhookHandlers.
Import Js Runtime.
Local Open Scope js_scope.

(** The new status of an updated order, [null] when nothing applies
    (the [if]/[else if] chain of [handleOrderUpdate]). *)
Definition resolve_status (order : JsVal) : Res JsVal :=
  let* cancelled_at := get order "cancelled_at" in
  if truthy cancelled_at then str "CANCELLED"
  else
    let* f1 := get order "fulfillment_status" in
    if is_str "fulfilled" f1 then str "DELIVERED"
    else
      let* f2 := get order "fulfillment_status" in
      if is_str "partial" f2 then str "PARTIALLY_DELIVERED"
      else
        let* fin := get order "financial_status" in
        if is_str "paid" fin then str "PAID"
        else Ret JNull.

Section WithHost.
Variable h : Host.

Definition handleOrderCreate (order : JsVal) : M JsVal :=
  liftR (let* name := get order "name" in ToString name) ;;
  try_catch
    ((* Create customer in eShopaid if doesn't exist *)
     customer <- liftR (get order "customer") ;;
     (if truthy customer then
        try_catch
          (c <- liftR (get order "customer") ;;
           CustomerService.syncFromShopify h c JUndefined ;;
           ret tt)
          (fun customerError => ret tt)
      else ret tt) ;;
     (* Create order in eShopaid *)
     result <- OrderService.createSalesOrder h order ;;
     success <- liftR (get result "success") ;;
     if truthy success then
       liftR (let* name := get order "name" in ToString name) ;;
       liftR (object
         [ ("success", Ret (JBool true));
           ("orderId", get order "id");
           ("eshopaidRef", let* d := get result "data" in
                           Ret (getOpt d "TargetRefID")) ])
     else
       liftR (let* reason := get result "error" in ToString reason) ;;
       liftR (object
         [ ("success", Ret (JBool false));
           ("orderId", get order "id");
           ("error", get result "error") ]))
    (fun error =>
       liftR (object
         [ ("success", Ret (JBool false));
           ("orderId", get order "id");
           ("error", str (message error)) ])).

Definition handleOrderUpdate (order : JsVal) : M JsVal :=
  liftR (let* name := get order "name" in ToString name) ;;
  try_catch
    ((* Determine new status based on Shopify order state *)
     status <- liftR (resolve_status order) ;;
     if truthy status then
       created_at <- liftR (get order "created_at") ;;
       iso <- liftR (let* orderDate := Date_new h created_at in
                     toISOString orderDate) ;;
       let orderDate := slice 0 10 iso in
       name <- liftR (get order "name") ;;
       result <- OrderService.setOrderStatus h name (JStr orderDate) status ;;
       liftR (object
         [ ("success", get result "success");
           ("orderId", get order "id");
           ("status", Ret status);
           ("error", get result "error") ])
     else
       liftR (object
         [ ("success", Ret (JBool true));
           ("orderId", get order "id");
           ("status", str "NO_UPDATE_NEEDED") ]))
    (fun error =>
       liftR (object
         [ ("success", Ret (JBool false));
           ("orderId", get order "id");
           ("error", str (message error)) ])).

Definition handleOrderCancelled (order : JsVal) : M JsVal :=
  liftR (let* name := get order "name" in ToString name) ;;
  try_catch
    (created_at <- liftR (get order "created_at") ;;
     iso <- liftR (let* orderDate := Date_new h created_at in
                   toISOString orderDate) ;;
     let orderDate := slice 0 10 iso in
     name <- liftR (get order "name") ;;
     result <- OrderService.setOrderStatus h name (JStr orderDate)
                 (JStr "CANCELLED") ;;
     liftR (object
       [ ("success", get result "success");
         ("orderId", get order "id");
         ("error", get result "error") ]))
    (fun error =>
       liftR (object
         [ ("success", Ret (JBool false));
           ("orderId", get order "id");
           ("error", str (message error)) ])).

(** The callback of [refund.refund_line_items.map]. *)
Definition transform_refund_item (item : JsVal) (index : nat) : Res JsVal :=
  object
    [ ("LineNumber", Ret (num (Z.of_nat index + 1)));
      ("RefLineNumber", get item "line_item_id");
      ("ItemCode",
       (let* li := get item "line_item" in Ret (getOpt li "sku"))
       ||| (let* li := get item "line_item" in
            toStringOpt "item.line_item?.variant_id" (getOpt li "variant_id")));
      ("Quantity", get item "quantity");
      ("Rate", let* p := (let* li := get item "line_item" in
                          Ret (getOpt li "price")) ||| Ret (num 0) in
               let* n := parseFloat p in Ret (JNum n));
      ("DiscountAmount", Ret (num 0));
      ("LineRemarks", (let* li := get item "line_item" in
                       Ret (getOpt li "name")) ||| str "") ].

(** The callback of [refund.transactions?.reduce]; the accumulator
    starts at [0] and stays a number. *)
Definition add_transaction (sum : Num) (t : JsVal) : Res Num :=
  let* a := get t "amount" ||| Ret (num 0) in
  let* n := parseFloat a in
  Ret (num_add sum n).

(** The [returnData] literal of [handleRefundCreate]. *)
Definition refund_returnData (today orderDate : string) (items : JsVal)
    (refund order : JsVal) : Res JsVal :=
  object
    [ ("customer",
       let* c := get order "customer" in
       if truthy c then
         object
           [ ("TitleName", str "");
             ("FirstName", (let* c := get order "customer" in get c "first_name")
                           ||| str "Guest");
             ("LastName", (let* c := get order "customer" in get c "last_name")
                          ||| str "");
             ("MobileNumber",
              (let* c := get order "customer" in get c "phone")
              ||| (let* a := get order "shipping_address" in
                   Ret (getOpt a "phone"))
              ||| str "");
             ("EmailID", (let* c := get order "customer" in get c "email")
                         ||| get order "email" ||| str "") ]
       else Ret (JObj []));
      ("returnDate", str today);
      ("returnOrderNumber", let* id := get refund "id" in
                            let* s := ToString id in str ("RET" ++ s));
      ("refOrderDate", str orderDate);
      ("refOrderNumber", get order "name");
      ("totalValue",
       (let* ts := get refund "transactions" in
        array_methodOpt "refund.transactions" "reduce" ts
          (fun l => let* s := foldR add_transaction (int 0) l in Ret (JNum s)))
       ||| Ret (num 0));
      ("remarks", get refund "note" ||| str "Shopify refund");
      ("items", Ret items);
      ("payments",
       let* p := object
         [ ("PaymentMode", str "Refund");
           ("PaymentValue",
            (let* ts := get refund "transactions" in
             Ret (getOpt (getOpt ts "0") "amount")) ||| Ret (num 0));
           ("ModeType", str "");
           ("PaymentReference", let* id := get refund "id" in
                                toStringCall "refund.id" id) ] in
       Ret (JArr [p])) ].

Definition handleRefundCreate (refund order : JsVal) : M JsVal :=
  liftR (let* name := get order "name" in ToString name) ;;
  try_catch
    (t <- Date_now ;;
     let today := remove_dashes (slice 0 10 (iso_string t)) in
     created_at <- liftR (get order "created_at") ;;
     iso <- liftR (let* d := Date_new h created_at in toISOString d) ;;
     let orderDate := remove_dashes (slice 0 10 iso) in
     (* Transform refund items *)
     items <- liftR (let* lines := get refund "refund_line_items" in
                     array_method "refund.refund_line_items" "map" lines
                       (fun l => let* out := mapiR transform_refund_item 0 l in
                                 Ret (JArr out))) ;;
     (* Create return order *)
     returnData <- liftR (refund_returnData today orderDate items refund order) ;;
     result <- OrderService.createReturnOrder h returnData ;;
     liftR (object
       [ ("success", get result "success");
         ("refundId", get refund "id");
         ("eshopaidRef", let* d := get result "data" in
                         Ret (getOpt d "TargetRefID"));
         ("error", get result "error") ]))
    (fun error =>
       liftR (object
         [ ("success", Ret (JBool false));
           ("refundId", get refund "id");
           ("error", str (message error)) ])).

Definition handleCustomerCreate (customer : JsVal) : M JsVal :=
  liftR (let* email := get customer "email" in ToString email) ;;
  try_catch
    (result <- CustomerService.syncFromShopify h customer JUndefined ;;
     liftR (object
       [ ("success", get result "success");
         ("customerId", get customer "id");
         ("eshopaidCode", get result "customerCode");
         ("error", get result "error") ]))
    (fun error =>
       liftR (object
         [ ("success", Ret (JBool false));
           ("customerId", get customer "id");
           ("error", str (message error)) ])).

Definition handleCustomerUpdate (customer eshopaidCode : JsVal) : M JsVal :=
  liftR (let* email := get customer "email" in ToString email) ;;
  try_catch
    (result <- CustomerService.syncFromShopify h customer eshopaidCode ;;
     liftR (object
       [ ("success", get result "success");
         ("customerId", get customer "id");
         ("error", get result "error") ]))
    (fun error =>
       liftR (object
         [ ("success", Ret (JBool false));
           ("customerId", get customer "id");
           ("error", str (message error)) ])).

Definition triggerInventorySync (location : JsVal) : M JsVal :=
  try_catch
    (result <- InventoryService.getInventoryByLocation h location ;;
     success <- liftR (get result "success") ;;
     if truthy success then
       liftR (let* n := get result "totalItems" in ToString n) ;;
       (* Here you would sync to Shopify using the Admin API *)
       liftR (object
         [ ("success", Ret (JBool true));
           ("itemCount", get result "totalItems");
           ("inventory", get result "inventoryByLocation") ])
     else
       liftR (object
         [ ("success", Ret (JBool false));
           ("error", get result "error") ]))
    (fun error =>
       liftR (object
         [ ("success", Ret (JBool false));
           ("error", str (message error)) ])).

End WithHost.
End WebhookHandlers.

(** ** index.js *)
Module Index.
Import Js Runtime.
Local Open Scope js_scope.

Section WithHost.
Variable h : Host.

Definition testConnection : M JsVal :=
  let serverUrl := JStr (Config.serverUrl (Config.eshopaid h)) in
  try_catch
    ((* Try to get a token *)
     tok <- TokenManager.getToken h ;;
     if truthy tok then
       ret (JObj [ ("success", JBool true);
                   ("message", JStr "Connected to eShopaid API successfully");
                   ("serverUrl", serverUrl) ])
     else
       ret (JObj [ ("success", JBool false);
                   ("message", JStr "Failed to obtain token") ]))
    (fun error =>
       ret (JObj [ ("success", JBool false);
                   ("message", JStr (message error));
                   ("serverUrl", serverUrl) ])).

(** [sync.order], [sync.inventory], [sync.customer]. *)
Definition sync_order (shopifyOrder : JsVal) : M JsVal :=
  WebhookHandlers.handleOrderCreate h shopifyOrder.

Definition sync_inventory (location : JsVal) : M JsVal :=
  WebhookHandlers.triggerInventorySync h location.

Definition sync_customer (shopifyCustomer existingCode : JsVal) : M JsVal :=
  CustomerService.syncFromShopify h shopifyCustomer existingCode.

End WithHost.
End Index.

(** ** server.js *)
Module Server.
Import Js.


End Server.

(** ** A reference host and the vocabulary of the statements *)
Module Reference.
Import Js Runtime.

(** The decimal number written by [len] digits of [s] from [pos]. *)
Definition field (s : string) (pos len : nat) : option Z :=
  let f := substring pos len s in
  if (String.length f =? len)%nat
     && forallb is_digit (list_ascii_of_string f)
  then Some (fst (fst (take_digits f 0 0))) else None.

Definition char_at (s : string) (pos : nat) (c : ascii) : bool :=
  match String.get pos s with
  | Some c' => Ascii.eqb c c'
  | None => false
  end.

Definition days_in_month (y m : Z) : Z :=
  if m =? 2 then
    if ((y mod 4 =? 0) && negb (y mod 100 =? 0)) || (y mod 400 =? 0) then 29 else 28
  else if (m =? 4) || (m =? 6) || (m =? 9) || (m =? 11) then 30 else 31.

(** [YYYY-MM-DD] at the head of [s]: the day number. *)
Definition parse_day (s : string) : option Z :=
  match field s 0 4, field s 5 2, field s 8 2 with
  | Some y, Some m, Some d =>
      if char_at s 4 "-" && char_at s 7 "-"
         && (1 <=? m) && (m <=? 12) && (1 <=? d) && (d <=? days_in_month y m)
      then Some (days_from_civil y m d) else None
  | _, _, _ => None
  end.

(** [THH:mm:ss] from position 10 of [s]: the milliseconds in the day. *)
Definition parse_time (s : string) : option Z :=
  match field s 11 2, field s 14 2, field s 17 2 with
  | Some hh, Some mm, Some ss =>
      if char_at s 10 "T" && char_at s 13 ":" && char_at s 16 ":"
         && (hh <=? 23) && (mm <=? 59) && (ss <=? 59)
      then Some ((hh * 60 + mm) * 60000 + ss * 1000) else None
  | _, _, _ => None
  end.

(** [Z] or [+HH:mm] or [-HH:mm], the whole of [s]: the offset in
    milliseconds. *)
Definition parse_offset (s : string) : option Z :=
  if (s =? "Z")%string then Some 0
  else
    match field s 1 2, field s 4 2 with
    | Some hh, Some mm =>
        if (String.length s =? 6)%nat && char_at s 3 ":"
           && (hh <=? 23) && (mm <=? 59)
        then if char_at s 0 "+" then Some ((hh * 60 + mm) * 60000)
             else if char_at s 0 "-" then Some (- ((hh * 60 + mm) * 60000))
             else None
        else None
    | _, _ => None
    end.

(** A [Date] that reads the date-time strings [YYYY-MM-DD] and
    [YYYY-MM-DDTHH:mm:ss] followed by [Z] or an offset, and nothing else. *)
Definition Date_parse_iso (s : string) : Date :=
  match parse_day s with
  | None => None
  | Some day =>
      if (String.length s =? 10)%nat then Some (day * msPerDay)
      else
        match parse_time s, parse_offset (drop 19 s) with
        | Some ms, Some off => Some (day * msPerDay + ms - off)
        | _, _ => None
        end
  end.

(** A host in the UTC time zone, with that [Date] and an empty
    environment. *)
Definition utc_host : Host := {|
  Date_parse := Date_parse_iso;
  LocalTZA := fun _ => 0;
  process_env := fun _ => None;
|}.

Definition refreshBufferMs (h : Host) : Z :=
  Config.tokenRefreshBuffer (Config.eshopaid h) * 60 * 1000.

Definition tokenLifetimeMs (h : Host) : Z :=
  Config.tokenLifetimeMinutes (Config.eshopaid h) * 60 * 1000.

(** The request [generateToken] posts. *)
Definition token_request (h : Host) : Request :=
  let cfg := Config.eshopaid h in
  {| url := (Config.serverUrl cfg ++ Config.tokenEndpoint cfg)%string;
     body := JStr "";
     headers := [ ("SERVICE_METHODNAME", JStr Config.GET_TOKEN);
                  ("Username", JStr (Config.username cfg));
                  ("Password", JStr (Config.password cfg));
                  ("Content-Type", JStr "application/json") ] |}.

(** The world after a round trip that took [elapsed]. *)
Definition after_request (w : World) (req : Request) (elapsed : Z) : World :=
  {| now := now w + elapsed; token := token w; tokenExpiry := tokenExpiry w;
     sent := sent w ++ [req]; network := network w |}.

(** The cache is as the constructor or [clearToken] leaves it. *)
Definition cache_empty (w : World) : Prop :=
  token w = JNull /\ tokenExpiry w = None.

(** The cache holds a credential the way [generateToken] stores one. *)
Definition cache_holds (w : World) : Prop :=
  truthy (token w) = true /\ exists e, tokenExpiry w = Some e /\ e <> 0.

Definition cache_wf (w : World) : Prop := cache_empty w \/ cache_holds w.

(** [token == null] exactly when [tokenExpiry == null]. *)
Definition cache_inv (w : World) : Prop :=
  token w = JNull <-> tokenExpiry w = None.

(** The worlds the token manager can be in: the constructor's, then any
    sequence of its methods, of other posts and of time passing. *)
Inductive reachable (h : Host) : World -> Prop :=
| reach_constructor clock net : reachable h (TokenManager.constructor clock net)
| reach_isTokenValid w :
    reachable h w -> reachable h (snd (TokenManager.isTokenValid h w))
| reach_generateToken w :
    reachable h w -> reachable h (snd (TokenManager.generateToken h w))
| reach_getToken w :
    reachable h w -> reachable h (snd (TokenManager.getToken h w))
| reach_refreshToken w :
    reachable h w -> reachable h (snd (TokenManager.refreshToken h w))
| reach_clearToken w :
    reachable h w -> reachable h (snd (TokenManager.clearToken w))
| reach_post w u d hs :
    reachable h w -> reachable h (snd (axios_post u d hs w))
| reach_elapse w dt :
    reachable h w ->
    reachable h {| now := now w + dt; token := token w;
                   tokenExpiry := tokenExpiry w; sent := sent w;
                   network := network w |}.

(** An evaluation that does not throw. *)
Definition returns {A} (r : Res A) : Prop := exists v, r = Ret v.

(** A field that holds a string when it is there at all. *)
Definition string_or_absent (v : JsVal) : bool :=
  match v with
  | JUndefined | JNull | JStr _ => true
  | _ => false
  end.

(** A value [String] can convert: no object in it, reached through
    arrays, shadows [toString]. *)
Fixpoint stringifiable (v : JsVal) : bool :=
  match v with
  | JArr l => forallb stringifiable l
  | JObj fs => negb (shadows_toString fs)
  | _ => true
  end.

(** A line item the [map] callback can transform: a record whose
    [variant_id] (read when there is no [sku]), [price] and
    [total_discount] can be converted. *)
Definition item_transformable (item : JsVal) : bool :=
  negb (nullish item)
  && (truthy (prop item "sku") || stringifiable (prop item "variant_id"))
  && stringifiable (prop item "price")
  && stringifiable (prop item "total_discount").

(** A shipping line the [reduce] callback can add. *)
Definition line_transformable (line : JsVal) : bool :=
  negb (nullish line) && stringifiable (prop line "price").

Definition array_of (ok : JsVal -> bool) (v : JsVal) : bool :=
  match v with
  | JArr l => forallb ok l
  | _ => false
  end.

(** [order.shipping_address || order.billing_address || {}] *)
Definition destination (order : JsVal) : JsVal :=
  if truthy (prop order "shipping_address") then prop order "shipping_address"
  else if truthy (prop order "billing_address") then prop order "billing_address"
  else JObj [].

(** [new Date(v)] is a valid date. *)
Definition valid_date (h : Host) (v : JsVal) : bool :=
  match Date_new h v with
  | Ret (Some _) => true
  | _ => false
  end.

(** What [transformShopifyOrder] needs of an order: it is an object, its
    [created_at] makes a valid [Date], its [line_items] is an array of
    line items, [shipping_lines], [gateway] and the destination's
    [province] have their expected type when they are there, and
    [total_price] and, when there is no [name], [id] can be converted. *)
Definition order_transformable (h : Host) (order : JsVal) : bool :=
  negb (nullish order)
  && valid_date h (prop order "created_at")
  && array_of item_transformable (prop order "line_items")
  && (nullish (prop order "shipping_lines")
      || array_of line_transformable (prop order "shipping_lines"))
  && string_or_absent (prop order "gateway")
  && stringifiable (prop order "total_price")
  && string_or_absent (prop (destination order) "province")
  && (truthy (prop order "name") || stringifiable (prop order "id")).

(** The [LineNumber] fields of a transformed order, in order. *)
Definition line_numbers (orderData : JsVal) : list JsVal :=
  match prop (prop (prop orderData "Order") "Items") "Item" with
  | JArr out => map (fun o => prop o "LineNumber") out
  | _ => []
  end.

(** The request [makeRequest(method, data)] posts with the token [tok]. *)
Definition process_request (h : Host) (method : string) (tok data : JsVal)
    : Request :=
  let cfg := Config.eshopaid h in
  {| url := (Config.serverUrl cfg ++ Config.processDataEndpoint cfg)%string;
     body := data;
     headers := [ ("SERVICE_METHODNAME", JStr method);
                  ("AUTHORIZATION", tok);
                  ("Content-Type", JStr "application/json") ] |}.

(** The customer-sync step did not succeed: the call threw, or it
    returned an outcome whose [success] is not truthy. *)
Definition sync_failed (r : Res JsVal) : Prop :=
  match r with
  | Throw _ => True
  | Ret outcome => truthy (prop outcome "success") = false
  end.

(** The item records [Items.Item] stands for: the elements of an array,
    the one record otherwise, none when the field is absent. *)
Definition items_of (v : JsVal) : list JsVal :=
  match v with
  | JArr l => l
  | _ => if truthy v then [v] else []
  end.

(** An item record that can be normalised: it is not [null] or
    [undefined], and the fields turned into a string or a number can be
    converted. *)
Definition item_wf (item : JsVal) : bool :=
  negb (nullish item)
  && forallb (fun k => stringifiable (prop item k))
       [ "EANCode"; "MRP"; "Stock"; "SalesPrice"; "TaxRate";
         "PerUnitSalesPrice" ].

Definition items_wf (v : JsVal) : bool := forallb item_wf (items_of v).

Definition location_wf (loc : JsVal) : bool :=
  negb (nullish loc) && items_wf (getOpt (prop loc "Items") "Item").

(** The location records an [Inventory] field stands for. *)
Definition locations_of (inventoryData : JsVal) : list JsVal :=
  match inventoryData with
  | JArr l => l
  | _ => if truthy inventoryData then [inventoryData] else []
  end.

(** [out] is the uniform [{location, items[]}] record of [loc]. *)
Definition normalized (loc out : JsVal) : Prop :=
  exists items,
    out = JObj [ ("location", prop loc "Location"); ("items", JArr items) ] /\
    List.length items = List.length (items_of (getOpt (prop loc "Items") "Item")) /\
    (nullish (prop loc "Items") = true -> items = []).

(** Text in which no tag can start: it holds no ["<"]. *)
Definition tagless (s : string) : bool :=
  forallb (fun c => negb (Ascii.eqb c "<")) (list_ascii_of_string s).

(** Text in which no tag named with a leading [A] opens: every ["<"]
    is followed by another character than ["A"]. *)
Fixpoint opens_no_A_tag (s : string) : bool :=
  match s with
  | EmptyString => true
  | String c r =>
      (if Ascii.eqb c "<"
       then match r with
            | String d _ => negb (Ascii.eqb d "A")
            | EmptyString => false
            end
       else true)
      && opens_no_A_tag r
  end.

(** Text the pattern's [.] runs over: no line terminator in it. *)
Definition one_line (s : string) : bool :=
  forallb (fun c => negb (is_line_terminator c)) (list_ascii_of_string s).

(** A value that is a number and not [NaN]. *)
Definition is_number (v : JsVal) : bool :=
  match v with
  | JNum NaN => false
  | JNum _ => true
  | _ => false
  end.

(** A number without a fractional part: what [Math.floor] gives on a
    number that is not [NaN]. *)
Definition no_fraction (v : JsVal) : bool :=
  match v with
  | JNum (Dec _ e) => 0 <=? e
  | JNum (Inf _) => true
  | _ => false
  end.

(** A normalised item: a record whose [eanCode] is a string and whose
    [stock], [salesPrice] and [mrp] are numbers. *)
Definition item_record (o : JsVal) : bool :=
  negb (nullish o)
  && match prop o "eanCode" with JStr _ => true | _ => false end
  && is_number (prop o "stock")
  && is_number (prop o "salesPrice")
  && is_number (prop o "mrp").

(** A normalised location: [{location, items}] with [items] an array of
    normalised items. *)
Definition location_record (o : JsVal) : Prop :=
  exists location items,
    o = JObj [ ("location", location); ("items", JArr items) ] /\
    forallb item_record items = true.

(** An entry of [formatForShopify]: [{sku, quantity, price,
    compareAtPrice}] with a whole [quantity] and numeric prices. *)
Definition inventory_update (u : JsVal) : Prop :=
  exists sku quantity price compareAtPrice,
    u = JObj [ ("sku", sku); ("quantity", quantity); ("price", price);
               ("compareAtPrice", compareAtPrice) ] /\
    no_fraction quantity = true /\
    is_number price = true /\
    is_number compareAtPrice = true.

(** A field as the customer records carry it: a truthy value, or the
    empty string that stands in for every falsy one. *)
Definition filled_or_empty (v : JsVal) : Prop :=
  truthy v = true \/ v = JStr "".

(** The fields of the customer record sent to the remote end. *)
Definition customer_fields : list string :=
  [ "TitleName"; "FirstName"; "MiddleName"; "LastName"; "Gender";
    "MobileNumber"; "EmailID"; "CustomerAddressLine1"; "CustomerAddressLine2";
    "CustomerAddressLine3"; "CustomerCityName"; "CustomerStateName"; "Pincode";
    "DeliveryAddressLine1"; "DeliveryAddressLine2"; "DeliveryAddressLine3";
    "DeliveryCityName"; "DeliveryStateName"; "DeliveryPincode";
    "DOBDay"; "DOBMonth"; "DOBYear" ].

(** [n >= 0] *)
Definition num_ge0 (n : Num) : bool :=
  match n with
  | NaN => false
  | Inf neg => negb neg
  | Dec m _ => 0 <=? m
  end.

(** The price a shipping line adds: [parseFloat(line.price || 0)]. *)
Definition line_price (line : JsVal) : Res Num :=
  let* p := get line "price" ||| Ret (num 0) in parseFloat p.

(** The amount a transaction of a refund adds:
    [parseFloat(t.amount || 0)]. *)
Definition transaction_amount (t : JsVal) : Res Num :=
  let* a := get t "amount" ||| Ret (num 0) in parseFloat a.

(** The date an order is referred to by in a status update: the first
    ten characters of the ISO form of [created_at]. *)
Definition status_date (h : Host) (order : JsVal) : Res string :=
  let* orderDate := Date_new h (prop order "created_at") in
  let* iso := toISOString orderDate in
  Ret (slice 0 10 iso).

(** The request that sets the status of [order] to [status]. *)
Definition status_request (h : Host) (order : JsVal) (date : string)
    (status tok : JsVal) : Request :=
  process_request h Config.SET_ORDER_STATUS tok
    (JObj [ ("OrderStatusUpdate",
             JObj [ ("VendorOrderDate", JStr date);
                    ("VendorOrderNumber", prop order "name");
                    ("OrderLocation",
                     JStr (Config.storeLocation (Config.eshopaid h)));
                    ("OrderStatus", status) ]) ]).

(** What a handler answers from its [catch] block. *)
Definition failure_outcome (order : JsVal) (e : Exn) : JsVal :=
  JObj [ ("success", JBool false);
         ("orderId", prop order "id");
         ("error", JStr (message e)) ].

(** The text fields of the customer and of the header of a transformed
    order: every field but [TotalOrderValue]. *)
Definition order_customer_fields : list string :=
  [ "TitleName"; "FirstName"; "MiddleName"; "LastName"; "Gender";
    "MobileNumber"; "EmailID"; "CustomerAddressLine1"; "CustomerAddressLine2";
    "CustomerAddressLine3"; "CustomerCityName"; "CustomerStateName";
    "CustomerStateGSTCode"; "Pincode" ].

Definition order_header_fields : list string :=
  [ "OrderDate"; "OrderNumber"; "OrderLocation"; "CustomerCode";
    "DeliveryAddressLine1"; "DeliveryAddressLine2"; "DeliveryAddressLine3";
    "DeliveryCityName"; "DeliveryStateName"; "DeliveryStateGSTCode";
    "DeliveryPincode"; "ExpectedDeliveryDate"; "OrderRemarks"; "SourceChannel" ].

(** What the [map] callback makes of the optional fields of a line item:
    [quantity] and [name] are copied, a missing discount is [0], a
    missing price is [NaN] and a missing code is [undefined]. *)
Definition line_defaults (item out : JsVal) : Prop :=
  prop out "Quantity" = prop item "quantity" /\
  prop out "LineRemarks" = prop item "name" /\
  (truthy (prop item "total_discount") = false ->
   prop out "DiscountAmount" = num 0) /\
  (prop item "price" = JUndefined -> prop out "Rate" = JNum NaN) /\
  (truthy (prop item "sku") = false -> nullish (prop item "variant_id") = true ->
   prop out "ItemCode" = JUndefined).

End Reference.
(** ** Concrete worlds and events *)
Module Scenarios.
Import Js Runtime Reference.

(** A cached token one millisecond inside its validity window; the
    remote end refuses every connection. *)
Definition stale_world : World :=
  {| now := 1700000000000; token := JStr "tok-1";
     tokenExpiry := Some 1700000300001; sent := [];
     network := fun _ _ => (Failure "ECONNREFUSED", 0) |}.

(** The same cache five minutes later: past the refresh buffer. *)
Definition expired_world : World :=
  {| now := 1700000300000; token := JStr "tok-1";
     tokenExpiry := Some 1700000300001; sent := [];
     network := fun _ _ => (Failure "ECONNREFUSED", 0) |}.

(** [stale_world] after one refused token request. *)
Definition stale_world_after : World :=
  after_request stale_world (token_request utc_host) 0.

(** An empty cache in front of a remote end that issues [tok-2] after
    40 ms. *)
Definition issuing_world : World :=
  {| now := 1700000000000; token := JNull; tokenExpiry := None; sent := [];
     network := fun _ _ =>
       (Response (JObj [ ("Response",
                          JObj [ ("Result", JStr "SUCCESS");
                                 ("Access_Token", JStr "tok-2") ]) ]), 40) |}.

(** An update event: cancelled after it was fulfilled and paid. *)
Definition cancelled_order : JsVal :=
  JObj [ ("id", num 5001); ("name", JStr "#1001");
         ("created_at", JStr "2024-01-15T10:30:00Z");
         ("cancelled_at", JStr "2024-01-16T08:00:00Z");
         ("fulfillment_status", JStr "fulfilled");
         ("financial_status", JStr "paid") ].

(** An update event none of the four cases applies to. *)
Definition pending_order : JsVal :=
  JObj [ ("id", num 5002); ("name", JStr "#1002");
         ("created_at", JStr "2024-01-15T10:30:00Z");
         ("cancelled_at", JNull);
         ("fulfillment_status", JNull);
         ("financial_status", JStr "pending") ].

(** A successful inventory response for one location, given as a single
    object without an [Items] field. *)
Definition single_location_response : JsVal :=
  JObj [ ("Response",
          JObj [ ("Result", JStr "SUCCESS");
                 ("Data", JObj [ ("Inventory",
                                  JObj [ ("Location", JStr "HO") ]) ]) ]) ].

(** A successful inventory response for two locations, the first with
    one item given as a single object, the second with two. *)
Definition two_location_response : JsVal :=
  JObj [ ("Response",
          JObj [ ("Result", JStr "SUCCESS");
                 ("Data", JObj [ ("Inventory",
                   JArr [ JObj [ ("Location", JStr "HO");
                                 ("Items", JObj [ ("Item",
                                    JObj [ ("ProductCode", JStr "P1");
                                           ("EANCode", num 8901234);
                                           ("Stock", JStr "12.000");
                                           ("MRP", JStr "199.50") ]) ]) ];
                          JObj [ ("Location", JStr "W1");
                                 ("Items", JObj [ ("Item",
                                    JArr [ JObj [ ("ProductCode", JStr "P1") ];
                                           JObj [ ("ProductCode", JStr "P2") ] ]) ]) ]
                        ]) ]) ]) ].

(** A storefront order with three line items whose identifiers are
    neither contiguous nor ascending. *)
Definition sample_order : JsVal :=
  JObj [ ("id", num 5003); ("name", JStr "#1003");
         ("created_at", JStr "2024-01-15T22:30:00-05:00");
         ("email", JStr "asha@example.com");
         ("total_price", JStr "1249.50");
         ("gateway", JStr "COD");
         ("customer", JObj [ ("id", num 77); ("first_name", JStr "Asha");
                             ("email", JStr "asha@example.com") ]);
         ("shipping_address", JObj [ ("address1", JStr "12 MG Road");
                                     ("city", JStr "New Delhi");
                                     ("province", JStr "Delhi");
                                     ("zip", JStr "110001") ]);
         ("shipping_lines", JArr [ JObj [ ("title", JStr "Express");
                                          ("price", JStr "49.50") ] ]);
         ("line_items",
          JArr [ JObj [ ("id", num 907); ("sku", JStr "SKU-9");
                        ("quantity", num 1); ("price", JStr "500.00");
                        ("name", JStr "Kurta") ];
                 JObj [ ("id", num 12); ("variant_id", num 4412);
                        ("quantity", num 2); ("price", JStr "300.00");
                        ("name", JStr "Scarf") ];
                 JObj [ ("id", num 350); ("sku", JStr "SKU-3");
                        ("quantity", num 1); ("price", JStr "100.00");
                        ("total_discount", JStr "0.00");
                        ("name", JStr "Belt") ] ]) ].

(** The same order without [created_at]. *)
Definition undated_order : JsVal :=
  JObj [ ("id", num 5004); ("name", JStr "#1004");
         ("total_price", JStr "500.00");
         ("shipping_address", JObj [ ("address1", JStr "12 MG Road");
                                     ("province", JStr "Delhi") ]);
         ("line_items",
          JArr [ JObj [ ("id", num 907); ("sku", JStr "SKU-9");
                        ("quantity", num 1); ("price", JStr "500.00") ] ]) ].

(** An order with no destination at all: neither shipping nor billing
    address. *)
Definition undelivered_order : JsVal :=
  JObj [ ("id", num 5005); ("name", JStr "#1005");
         ("created_at", JStr "2024-01-15T10:30:00Z");
         ("total_price", JStr "500.00");
         ("line_items",
          JArr [ JObj [ ("id", num 907); ("sku", JStr "SKU-9");
                        ("quantity", num 1); ("price", JStr "500.00") ] ]) ].

(** An order without [line_items]. *)
Definition itemless_order : JsVal :=
  JObj [ ("id", num 5006); ("name", JStr "#1006");
         ("created_at", JStr "2024-01-15T10:30:00Z");
         ("total_price", JStr "0.00");
         ("shipping_address", JObj [ ("address1", JStr "12 MG Road") ]) ].

Definition envelope (fields : list (string * JsVal)) : JsVal :=
  JObj [ ("Response", JObj fields) ].

Definition method_of (req : Request) : JsVal :=
  prop (JObj (headers req)) "SERVICE_METHODNAME".

(** A remote end that issues tokens and creates orders, and answers
    [customers] to every AddCustomer call. *)
Definition erp (customers : Reply) : list Request -> Request -> Reply * Z :=
  fun _ req =>
    if is_str "GetToken" (method_of req) then
      (Response (envelope [ ("Result", JStr "SUCCESS");
                            ("Access_Token", JStr "tok-9") ]), 35)
    else if is_str "AddCustomer" (method_of req) then (customers, 50)
    else if is_str "CreateSalesOrder" (method_of req) then
      (Response (envelope [ ("Result", JStr "SUCCESS");
                            ("StatusMessage", JStr "Order created");
                            ("StatusReference",
                             JObj [ ("TargetRefID", JStr "SO-2024-0042") ]) ]), 80)
    else (Failure "Request failed with status code 404", 10).

(** The ERP rejects the customer: a business rejection. *)
Definition rejecting_world : World :=
  TokenManager.constructor 1705372200000
    (erp (Response (envelope [ ("Result", JStr "FAILURE");
                               ("FailureReason", JStr "Duplicate mobile number") ]))).

(** The customer call does not get through: a fault. *)
Definition faulting_world : World :=
  TokenManager.constructor 1705372200000
    (erp (Failure "Request failed with status code 500")).

(** An empty cache in front of a remote end that issues [tok-3] as XML. *)
Definition xml_issuing_world : World :=
  {| now := 1700000000000; token := JNull; tokenExpiry := None; sent := [];
     network := fun _ _ =>
       (Response (JStr "<Response><Result>SUCCESS</Result><Access_Token>tok-3</Access_Token></Response>"),
        25) |}.

(** An order billed in one state and delivered in another, with two
    shipping lines. *)
Definition interstate_order : JsVal :=
  JObj [ ("id", num 5010); ("name", JStr "#1010");
         ("created_at", JStr "2024-03-02T09:15:00Z");
         ("total_price", JStr "860.00");
         ("gateway", JStr "Razorpay");
         ("billing_address", JObj [ ("address1", JStr "4 Beach Road");
                                    ("city", JStr "Kochi");
                                    ("province", JStr "Kerala") ]);
         ("shipping_address", JObj [ ("address1", JStr "12 MG Road");
                                     ("city", JStr "New Delhi");
                                     ("province", JStr "Delhi") ]);
         ("shipping_lines", JArr [ JObj [ ("price", JStr "40.00") ];
                                   JObj [ ("title", JStr "Insurance");
                                          ("price", JStr "20.00") ] ]);
         ("line_items",
          JArr [ JObj [ ("id", num 31); ("sku", JStr "SKU-31");
                        ("quantity", num 2); ("price", JStr "400.00");
                        ("name", JStr "Saree") ] ]) ].

(** A storefront customer with a birthday and a default address. *)
Definition sample_customer : JsVal :=
  JObj [ ("id", num 77); ("first_name", JStr "Asha"); ("last_name", JStr "Rao");
         ("email", JStr "asha@example.com");
         ("birthday", JStr "1990-05-15T00:00:00Z");
         ("default_address", JObj [ ("address1", JStr "12 MG Road");
                                    ("city", JStr "New Delhi");
                                    ("province", JStr "Delhi");
                                    ("zip", JStr "110001");
                                    ("phone", JStr "+91 98100 00000") ]) ].

(** A refund of one line paid back in two transactions. *)
Definition sample_refund : JsVal :=
  JObj [ ("id", num 9001); ("note", JStr "Damaged");
         ("refund_line_items",
          JArr [ JObj [ ("line_item_id", num 907); ("quantity", num 1);
                        ("line_item", JObj [ ("sku", JStr "SKU-9");
                                             ("price", JStr "500.00");
                                             ("name", JStr "Kurta") ]) ] ]);
         ("transactions", JArr [ JObj [ ("amount", JStr "400.00") ];
                                 JObj [ ("amount", JStr "100.00") ] ]) ].

(** An order that holds nothing but its date and one empty line item. *)
Definition bare_order : JsVal :=
  JObj [ ("created_at", JStr "2024-01-15T10:30:00Z");
         ("line_items", JArr [ JObj [] ]) ].

End Scenarios.

(** * Properties *)

Import Js Runtime Reference Scenarios.

(** ** The token cache *)

Lemma refreshBufferMs_eq h : refreshBufferMs h = 300000.
Proof. reflexivity. Qed.

Lemma tokenLifetimeMs_eq h : tokenLifetimeMs h = 1800000.
Proof. reflexivity. Qed.

Lemma truthy_not_null v : truthy v = true -> v <> JNull.
Proof. intros H E; subst v; discriminate. Qed.

Lemma truthy_not_nullish v : truthy v = true -> nullish v = false.
Proof. destruct v; simpl; congruence. Qed.

(** [isTokenValid] as a function of the cache and the clock; the world is
    returned as it was. *)
Lemma isTokenValid_run h w :
  TokenManager.isTokenValid h w =
  (Ret (truthy (token w)
        && match tokenExpiry w with
           | Some e => negb (e =? 0) && (now w <? e - refreshBufferMs h)
           | None => false
           end), w).
Proof.
  unfold TokenManager.isTokenValid, bind, this_token, this_tokenExpiry,
    Date_now, ret, TokenManager.expiry_falsy.
  fold (refreshBufferMs h).
  destruct (truthy (token w)); simpl; [|reflexivity].
  destruct (tokenExpiry w) as [e|]; simpl; [|reflexivity].
  destruct (e =? 0); reflexivity.
Qed.

(** C2. On every well-formed cache (empty, or a stored token with its
    expiry) and at every clock value, [isTokenValid] answers [true]
    exactly when the cache is not empty and [now < expiry - buffer]; it is
    [true] at [now = expiry - buffer - 1] and [false] at
    [now = expiry - buffer]; the world (cache, clock, posted requests)
    comes back unchanged. *)
Theorem isTokenValid_iff h w :
  cache_wf w ->
  exists b,
    TokenManager.isTokenValid h w = (Ret b, w) /\
    (b = true <->
       token w <> JNull /\
       exists e, tokenExpiry w = Some e /\ now w < e - refreshBufferMs h) /\
    (forall e, token w <> JNull -> tokenExpiry w = Some e ->
               now w = e - refreshBufferMs h - 1 -> b = true) /\
    (forall e, token w <> JNull -> tokenExpiry w = Some e ->
               now w = e - refreshBufferMs h -> b = false).
Proof.
  intros Hwf. rewrite isTokenValid_run. eexists; split; [reflexivity|].
  destruct Hwf as [[Ht He] | [Ht (e & He & Hz)]].
  - rewrite Ht, He. simpl. repeat split.
    + discriminate.
    + discriminate.
    + intros [Hn _]; congruence.
    + intros e Hn; congruence.
  - rewrite Ht, He. apply Z.eqb_neq in Hz. rewrite Hz. simpl.
    repeat split.
    + now apply truthy_not_null.
    + exists e; split; [reflexivity|]. now apply Z.ltb_lt.
    + intros [_ (e' & He' & Hlt)]. inversion He'; subst e'. now apply Z.ltb_lt.
    + intros e' _ He' Hn. inversion He'; subst e'. apply Z.ltb_lt. lia.
    + intros e' _ He' Hn. inversion He'; subst e'. apply Z.ltb_ge. lia.
Qed.

Lemma isTokenValid_iff_witness :
  cache_wf stale_world /\
  exists b,
    TokenManager.isTokenValid utc_host stale_world = (Ret b, stale_world) /\
    b = true.
Proof.
  assert (Hwf : cache_wf stale_world).
  { right. split; [reflexivity|]. exists 1700000300001. split; [reflexivity|lia]. }
  split; [exact Hwf|].
  destruct (isTokenValid_iff utc_host stale_world Hwf) as (b & Hrun & _ & Hedge & _).
  exists b. split; [exact Hrun|].
  apply (Hedge 1700000300001); [discriminate|reflexivity|reflexivity].
Defined.

(** [generateToken] step by step: one post, then the cache is replaced
    or left alone. *)
Lemma generateToken_run h w :
  TokenManager.generateToken h w =
  let '(reply, elapsed) := network w (sent w) (token_request h) in
  let w1 := after_request w (token_request h) elapsed in
  match reply with
  | Failure msg => (Throw (Error msg), w1)
  | Response data =>
      match TokenManager.accessToken_of data with
      | Throw e => (Throw e, w1)
      | Ret tok =>
          if truthy tok then
            (Ret tok, {| now := now w1; token := tok;
                         tokenExpiry := Some (now w1 + tokenLifetimeMs h);
                         sent := sent w1; network := network w1 |})
          else (Throw (Error "Failed to extract token from response"), w1)
      end
  end.
Proof.
  unfold TokenManager.generateToken, try_catch, bind, axios_post, liftR.
  fold (token_request h).
  destruct (network w (sent w) (token_request h)) as [reply elapsed].
  fold (after_request w (token_request h) elapsed).
  destruct reply as [data|msg]; [|reflexivity].
  destruct (TokenManager.accessToken_of data) as [tok|e]; [|reflexivity].
  destruct (truthy tok); reflexivity.
Qed.

Lemma getToken_run h w :
  TokenManager.getToken h w =
  match fst (TokenManager.isTokenValid h w) with
  | Ret true => (Ret (token w), w)
  | _ => TokenManager.generateToken h w
  end.
Proof.
  unfold TokenManager.getToken, bind. rewrite isTokenValid_run. simpl.
  match goal with |- context [if ?c then _ else _] => destruct c end; reflexivity.
Qed.

(** A failed [generateToken] has posted the token request and left both
    cache fields as they were. *)
Lemma generateToken_throw h w e w' :
  TokenManager.generateToken h w = (Throw e, w') ->
  exists elapsed,
    w' = after_request w (token_request h) elapsed /\
    snd (network w (sent w) (token_request h)) = elapsed.
Proof.
  rewrite generateToken_run.
  destruct (network w (sent w) (token_request h)) as [reply elapsed]. simpl.
  intros H. exists elapsed. split; [|reflexivity].
  destruct reply as [data|msg]; [|congruence].
  destruct (TokenManager.accessToken_of data) as [tok|e0]; [|congruence].
  destruct (truthy tok); congruence.
Qed.

(** C6. When the cached credential is valid at the time of the call,
    [getToken] returns the cached token and the world is unchanged (no
    request is posted); when it is absent or invalid and the issuance
    answers with a token, [getToken] posts the one token request, stores
    the new token with the expiry [now + lifetime], and returns it. *)
Theorem getToken_cached_or_acquired h w :
  (fst (TokenManager.isTokenValid h w) = Ret true ->
   TokenManager.getToken h w = (Ret (token w), w)) /\
  (fst (TokenManager.isTokenValid h w) = Ret false ->
   forall data elapsed tok,
     network w (sent w) (token_request h) = (Response data, elapsed) ->
     TokenManager.accessToken_of data = Ret tok ->
     truthy tok = true ->
     exists w',
       TokenManager.getToken h w = (Ret tok, w') /\
       token w' = tok /\
       tokenExpiry w' = Some (now w + elapsed + tokenLifetimeMs h) /\
       sent w' = (sent w ++ [token_request h])%list).
Proof.
  split; intros Hv.
  - rewrite getToken_run, Hv. reflexivity.
  - intros data elapsed tok Hnet Hacc Htruthy.
    rewrite getToken_run, Hv, generateToken_run, Hnet, Hacc, Htruthy.
    eexists; split; [reflexivity|]. simpl. repeat split.
Qed.

Lemma getToken_cached_or_acquired_witness :
  TokenManager.getToken utc_host stale_world = (Ret (JStr "tok-1"), stale_world) /\
  exists w',
    TokenManager.getToken utc_host issuing_world = (Ret (JStr "tok-2"), w') /\
    token w' = JStr "tok-2" /\
    tokenExpiry w' = Some (1700000000000 + 40 + 1800000) /\
    sent w' = [token_request utc_host].
Proof.
  split.
  - apply (proj1 (getToken_cached_or_acquired utc_host stale_world)).
    reflexivity.
  - apply (proj2 (getToken_cached_or_acquired utc_host issuing_world)
             eq_refl _ 40 (JStr "tok-2") eq_refl eq_refl eq_refl).
Defined.

(** C3, as the claim states it, fails: a refused token request made while
    [tok-1] is cached throws, the cache still holds [tok-1] and its
    expiry, and the next [getToken] hands [tok-1] out again without any
    request; made through [getToken] on an expired cache, the failure
    leaves the expired token in place as well. *)
Lemma generateToken_failure_counterexample :
  TokenManager.generateToken utc_host stale_world
    = (Throw (Error "ECONNREFUSED"), stale_world_after) /\
  token stale_world_after = JStr "tok-1" /\
  tokenExpiry stale_world_after = Some 1700000300001 /\
  TokenManager.getToken utc_host stale_world_after
    = (Ret (JStr "tok-1"), stale_world_after) /\
  (exists w', TokenManager.getToken utc_host expired_world
                = (Throw (Error "ECONNREFUSED"), w') /\
              token w' = JStr "tok-1") /\
  ~ (forall w e w', TokenManager.generateToken utc_host w = (Throw e, w') ->
                    cache_empty w').
Proof.
  repeat split; try reflexivity.
  - eexists; split; reflexivity.
  - intros H.
    destruct (H stale_world (Error "ECONNREFUSED") stale_world_after eq_refl)
      as [Ht _].
    discriminate Ht.
Qed.

(** C3, amended. Each kind of failed attempt (the transport rejects, the
    issuance response cannot be read, the response carries no usable
    token) makes [generateToken] throw after its one request; a throwing
    [generateToken] leaves token and expiry exactly as they were, so an
    empty cache stays empty; and after a [getToken] that threw, any later
    [getToken] on that cache, the clock not having gone back, attempts
    the acquisition again. *)
Theorem generateToken_failure_preserves_cache h w :
  (forall reply elapsed,
     network w (sent w) (token_request h) = (reply, elapsed) ->
     match reply with
     | Failure msg => True
     | Response data =>
         match TokenManager.accessToken_of data with
         | Throw _ => True
         | Ret tok => truthy tok = false
         end
     end ->
     exists e, TokenManager.generateToken h w
               = (Throw e, after_request w (token_request h) elapsed)) /\
  (forall e w',
     TokenManager.generateToken h w = (Throw e, w') ->
     token w' = token w /\ tokenExpiry w' = tokenExpiry w /\
     sent w' = (sent w ++ [token_request h])%list /\
     (cache_empty w -> cache_empty w')) /\
  (forall e w',
     TokenManager.getToken h w = (Throw e, w') ->
     forall w'',
       token w'' = token w' -> tokenExpiry w'' = tokenExpiry w' ->
       now w <= now w'' ->
       TokenManager.getToken h w'' = TokenManager.generateToken h w'').
Proof.
  split; [|split].
  - intros reply elapsed Hnet Hfail. rewrite generateToken_run, Hnet.
    destruct reply as [data|msg]; [|eexists; reflexivity].
    destruct (TokenManager.accessToken_of data) as [tok|e0];
      [|eexists; reflexivity].
    rewrite Hfail. eexists; reflexivity.
  - intros e w' H. apply generateToken_throw in H as (elapsed & -> & _).
    unfold cache_empty. simpl. auto.
  - intros e w' H w'' Ht He Hnow.
    rewrite getToken_run in H. rewrite (getToken_run h w'').
    rewrite isTokenValid_run in *. simpl in *.
    destruct (truthy (token w)) eqn:Htok; simpl in H.
    + destruct (tokenExpiry w) as [x|] eqn:Hexp; simpl in H.
      * destruct (negb (x =? 0) && (now w <? x - refreshBufferMs h)) eqn:Hv;
          [discriminate H|].
        apply generateToken_throw in H as (elapsed & -> & _). simpl in *.
        rewrite Ht, He, Htok, Hexp. simpl.
        destruct (negb (x =? 0)); simpl in *; [|reflexivity].
        apply Z.ltb_ge in Hv.
        destruct (now w'' <? x - refreshBufferMs h) eqn:Hlt; [|reflexivity].
        apply Z.ltb_lt in Hlt. lia.
      * apply generateToken_throw in H as (elapsed & -> & _). simpl in *.
        rewrite Ht, He, Htok, Hexp. reflexivity.
    + apply generateToken_throw in H as (elapsed & -> & _). simpl in *.
      rewrite Ht, Htok. reflexivity.
Qed.

Lemma generateToken_failure_preserves_cache_witness :
  token stale_world_after = token stale_world /\
  tokenExpiry stale_world_after = tokenExpiry stale_world /\
  sent stale_world_after = (sent stale_world ++ [token_request utc_host])%list /\
  (cache_empty stale_world -> cache_empty stale_world_after).
Proof.
  apply (proj1 (proj2 (generateToken_failure_preserves_cache utc_host stale_world))
           (Error "ECONNREFUSED") stale_world_after).
  reflexivity.
Defined.

(** C10. In every world the token manager can reach from its constructor
    (through [isTokenValid], [generateToken] whether it succeeds or
    fails, [getToken], [refreshToken], [clearToken], other posts and the
    passing of time), [token] is [null] exactly when [tokenExpiry] is. *)
Theorem token_null_iff_expiry_null h w :
  reachable h w -> cache_inv w.
Proof.
  assert (Hgen : forall w0, cache_inv w0 ->
                            cache_inv (snd (TokenManager.generateToken h w0))).
  { intros w0 Hinv. rewrite generateToken_run.
    destruct (network w0 (sent w0) (token_request h)) as [reply elapsed].
    destruct reply as [data|msg]; [|exact Hinv].
    destruct (TokenManager.accessToken_of data) as [tok|e]; [|exact Hinv].
    destruct (truthy tok) eqn:Htok; [|exact Hinv].
    unfold cache_inv; simpl. split; [|discriminate].
    intros ->; discriminate Htok. }
  induction 1 as [clock net | w0 _ IH | w0 _ IH | w0 _ IH | w0 _ IH
                 | w0 _ IH | w0 u d hs _ IH | w0 dt _ IH].
  - unfold cache_inv; simpl; tauto.
  - rewrite isTokenValid_run. exact IH.
  - now apply Hgen.
  - rewrite getToken_run.
    destruct (fst (TokenManager.isTokenValid h w0)) as [[|]|]; auto.
  - now apply Hgen.
  - unfold cache_inv; simpl; tauto.
  - unfold axios_post.
    destruct (network w0 (sent w0) _) as [[data|msg] elapsed]; exact IH.
  - exact IH.
Qed.

Lemma token_null_iff_expiry_null_witness :
  reachable utc_host
    (snd (TokenManager.clearToken
            (snd (TokenManager.getToken utc_host issuing_world)))) /\
  cache_inv
    (snd (TokenManager.clearToken
            (snd (TokenManager.getToken utc_host issuing_world)))).
Proof.
  assert (Hr : reachable utc_host
                 (snd (TokenManager.clearToken
                         (snd (TokenManager.getToken utc_host issuing_world))))).
  { apply reach_clearToken, reach_getToken.
    exact (reach_constructor utc_host 1700000000000 (network issuing_world)). }
  split; [exact Hr|].
  exact (token_null_iff_expiry_null utc_host _ Hr).
Defined.

(** ** Reads, [||] and object literals *)

Lemma get_ok v k : nullish v = false -> get v k = Ret (prop v k).
Proof. unfold get; intros ->; reflexivity. Qed.

Lemma orR_Ret x b : Ret x ||| b = if truthy x then Ret x else b.
Proof. reflexivity. Qed.

Lemma bindR_Ret_inv {A B} (e : Res A) (k : A -> Res B) r :
  bindR e k = Ret r -> exists x, e = Ret x /\ k x = Ret r.
Proof. destruct e as [x|]; simpl; [eauto|discriminate]. Qed.

Lemma orR_Ret_inv a b v :
  a ||| b = Ret v ->
  (a = Ret v /\ truthy v = true) \/
  (exists x, a = Ret x /\ truthy x = false /\ b = Ret v).
Proof.
  unfold orR. intros H. apply bindR_Ret_inv in H as (x & -> & H).
  destruct (truthy x) eqn:Hx.
  - left. inversion H; subst. auto.
  - right. eauto.
Qed.

(** What [a || {}] and [a || b || {}] evaluate to can be read from. *)
Lemma orR_object_readable a v :
  a ||| Ret (JObj []) = Ret v -> nullish v = false.
Proof.
  intros H. apply orR_Ret_inv in H as [[_ H] | (x & _ & _ & H)].
  - now apply truthy_not_nullish.
  - inversion H; reflexivity.
Qed.

Lemma object_cons_inv k e fs r :
  object ((k, e) :: fs) = Ret r ->
  exists v vs, e = Ret v /\ object fs = Ret (JObj vs) /\ r = JObj ((k, v) :: vs).
Proof.
  unfold object. simpl. intros H.
  destruct e as [v|]; simpl in H; [|discriminate].
  destruct (fieldsR fs) as [vs|]; simpl in *; [|discriminate].
  inversion H. eauto.
Qed.

Lemma get_Ret_inv v k x : get v k = Ret x -> nullish v = false /\ x = prop v k.
Proof.
  unfold get. destruct (nullish v); [discriminate|].
  intros H; inversion H; auto.
Qed.

Lemma orR_left_returns a b v : a ||| b = Ret v -> returns a.
Proof.
  intros H. apply orR_Ret_inv in H as [[H _] | (x & H & _)];
    eexists; eassumption.
Qed.

Lemma returns_Ret {A} (a : A) : returns (Ret a).
Proof. eexists; reflexivity. Qed.

Lemma returns_throw {A} (e : Exn) : ~ returns (@Throw A e).
Proof. intros (v & H); discriminate H. Qed.

Lemma returns_get v k : nullish v = false -> returns (get v k).
Proof. intros H. rewrite get_ok by assumption. apply returns_Ret. Qed.

Lemma returns_bind {A B} (e : Res A) (k : A -> Res B) :
  returns e -> (forall x, e = Ret x -> returns (k x)) -> returns (bindR e k).
Proof. intros (x & ->) Hk. simpl. now apply Hk. Qed.

Lemma returns_bind_inv {A B} (e : Res A) (k : A -> Res B) :
  returns (bindR e k) -> exists x, e = Ret x /\ returns (k x).
Proof.
  intros (r & H). apply bindR_Ret_inv in H as (x & Hx & H).
  exists x. split; [exact Hx|]. eexists; eassumption.
Qed.

Lemma returns_orR a b : returns a -> returns b -> returns (a ||| b).
Proof.
  intros (x & ->) Hb. rewrite orR_Ret.
  destruct (truthy x); [apply returns_Ret|assumption].
Qed.

Lemma returns_object fs :
  Forall (fun f => returns (snd f)) fs -> returns (object fs).
Proof.
  intros HF. unfold object.
  assert (H : returns (fieldsR fs)).
  { induction HF as [|[k e] fs (v & He) _ (vs & IH)]; simpl.
    - apply returns_Ret.
    - simpl in He. rewrite He, IH. apply returns_Ret. }
  destruct H as (vs & ->). apply returns_Ret.
Qed.

Lemma returns_object_inv fs :
  returns (object fs) -> Forall (fun f => returns (snd f)) fs.
Proof.
  induction fs as [|[k e] fs IH]; intros (r & H); constructor.
  - apply object_cons_inv in H as (v & vs & -> & _ & _). apply returns_Ret.
  - apply IH. apply object_cons_inv in H as (v & vs & _ & H & _).
    eexists; eassumption.
Qed.

(** ** Conversion to strings and numbers *)

(** Induction over values, through the elements of arrays. *)
Lemma JsVal_array_ind (P : JsVal -> Prop) :
  (forall v, isArray v = false -> P v) ->
  (forall l, Forall P l -> P (JArr l)) ->
  forall v, P v.
Proof.
  intros Hleaf Harr. fix IH 1. intros v.
  destruct v as [| |b|n|s|l|fs|name]; try (apply Hleaf; reflexivity).
  apply Harr. induction l as [|x l IHl]; constructor; [apply IH|exact IHl].
Qed.

Lemma ToString_returns v : returns (ToString v) <-> stringifiable v = true.
Proof.
  induction v as [v Hv|l IH] using JsVal_array_ind.
  - destruct v; try discriminate Hv; simpl;
      try (split; [reflexivity|intros _; apply returns_Ret]).
    destruct (shadows_toString fields); simpl; split; intros H;
      try apply returns_Ret; try reflexivity; try discriminate H.
    exfalso; eapply returns_throw; eassumption.
  - cbn [ToString stringifiable].
    induction IH as [|x l Hx _ IHl]; [split; [reflexivity|intros _; apply returns_Ret]|].
    cbn [forallb]. rewrite andb_true_iff, <- Hx, <- IHl. clear Hx IHl.
    assert (Hel : returns (match x with
                           | JUndefined | JNull => Ret ""
                           | _ => ToString x
                           end) <-> returns (ToString x)).
    { destruct x; try reflexivity; split; intros _; apply returns_Ret. }
    rewrite <- Hel.
    destruct (match x with
              | JUndefined | JNull => Ret ""
              | _ => ToString x
              end) as [sx|e]; cbn [bindR].
    + destruct l as [|y l].
      * split; [intros _; split; apply returns_Ret|intros _; apply returns_Ret].
      * match goal with |- context [bindR ?j _] => destruct j as [sr|e] end;
          cbn [bindR]; split; intros H;
          try (split; apply returns_Ret); try apply returns_Ret.
        -- exfalso; eapply returns_throw; eassumption.
        -- destruct H as [_ H]. exact H.
    + split; [intros H|intros [H _]]; exfalso; eapply returns_throw; eassumption.
Qed.

Lemma falsy_stringifiable v : truthy v = false -> stringifiable v = true.
Proof. destruct v; simpl; congruence. Qed.

Lemma returns_map {A B} (e : Res A) (f : A -> B) :
  returns (let* x := e in Ret (f x)) <-> returns e.
Proof.
  destruct e; simpl; split; intros H; try apply returns_Ret;
    exfalso; eapply returns_throw; eassumption.
Qed.

Lemma parseFloat_returns v : returns (parseFloat v) <-> stringifiable v = true.
Proof. unfold parseFloat. now rewrite returns_map, ToString_returns. Qed.

Lemma parseFloat_or_0_returns v :
  returns (parseFloat_or_0 v) <-> stringifiable v = true.
Proof. unfold parseFloat_or_0. now rewrite returns_map, parseFloat_returns. Qed.

Lemma toStringOpt_returns src v :
  returns (toStringOpt src v) <-> stringifiable v = true.
Proof.
  destruct v; cbn [toStringOpt];
    try (rewrite returns_map; apply ToString_returns);
    try (split; [reflexivity|intros _; apply returns_Ret]).
  cbn [stringifiable]. destruct (shadows_toString fields); simpl; split; intros H;
    try apply returns_Ret; try reflexivity; try discriminate H.
  exfalso; eapply returns_throw; eassumption.
Qed.

Create HintDb js.
#[local] Hint Resolve returns_Ret returns_get returns_orR : js.

Ltac returns_fields :=
  apply returns_object; repeat (constructor; [cbn [snd]; unfold str; auto 6 with js|]);
  try constructor.

(** ** Response parsers *)

(** C4, as the claim states it, fails: the parsers throw on a [null]
    body, and on a successful envelope whose inventory holds a [null]
    location; without an envelope the order parser's message is not the
    claim's, and the inventory parser reports no error at all. *)
Lemma response_parsers_counterexample :
  OrderService.parseOrderResponse JNull
    = Throw (TypeError "Cannot read properties of null (reading 'Response')") /\
  InventoryService.parseInventoryResponse JNull
    = Throw (TypeError "Cannot read properties of null (reading 'Response')") /\
  InventoryService.parseInventoryResponse
    (JObj [ ("Response",
             JObj [ ("Result", JStr "SUCCESS");
                    ("Data", JObj [ ("Inventory", JArr [JNull]) ]) ]) ])
    = Throw (TypeError "Cannot read properties of null (reading 'Location')") /\
  OrderService.parseOrderResponse (JObj [])
    = Ret (JObj [ ("success", JBool false);
                  ("error", JStr "Invalid response format") ]) /\
  JStr "Invalid response format" <> JStr "invalid response format" /\
  InventoryService.parseInventoryResponse (JObj [])
    = Ret (JObj [ ("success", JBool false);
                  ("inventoryByLocation", JArr []);
                  ("totalItems", num 0);
                  ("error", JNull) ]).
Proof. repeat split; try reflexivity. discriminate. Qed.

(** C4, amended. On every response other than [null] and [undefined],
    [parseOrderResponse] returns an object with a [success] field and
    does not throw: with an envelope (a truthy [Response]) [success] is
    [Result === "SUCCESS"], without one the result is exactly
    [{success: false, error: "Invalid response format"}].
    [parseInventoryResponse] returns [success: false] without throwing
    when the envelope is missing or [Result] is not ["SUCCESS"], and
    whenever it returns, [success] tells whether the envelope was there
    with [Result === "SUCCESS"]. *)
Theorem response_parsers_normalize response :
  nullish response = false ->
  let r := prop response "Response" in
  let success := truthy r && is_str "SUCCESS" (prop r "Result") in
  (exists o,
     OrderService.parseOrderResponse response = Ret o /\
     prop o "success" = JBool success /\
     (truthy r = false ->
      o = JObj [ ("success", JBool false);
                 ("error", JStr "Invalid response format") ])) /\
  (success = false ->
   exists o,
     InventoryService.parseInventoryResponse response = Ret o /\
     prop o "success" = JBool false) /\
  (forall o,
     InventoryService.parseInventoryResponse response = Ret o ->
     prop o "success" = JBool success).
Proof.
  intros Hn r success. subst success.
  assert (Hr : forall k, truthy r = true -> get r k = Ret (prop r k)).
  { intros k Ht. apply get_ok. now apply truthy_not_nullish. }
  split; [|split].
  - unfold OrderService.parseOrderResponse. rewrite (get_ok _ _ Hn). simpl.
    fold r. destruct (truthy r) eqn:Ht.
    + unfold object. simpl. rewrite !Hr by reflexivity. simpl.
      destruct (truthy (prop r "StatusReference")); simpl;
        (eexists; split; [reflexivity|split; [reflexivity|discriminate]]).
    + eexists; split; [reflexivity|split; reflexivity].
  - intros Hs. unfold InventoryService.parseInventoryResponse.
    rewrite (get_ok _ _ Hn). simpl. fold r.
    destruct (truthy r) eqn:Ht; [|eexists; split; reflexivity].
    simpl in Hs. rewrite !Hr by reflexivity. simpl. rewrite Hs.
    destruct (truthy (prop r "FailureReason")); simpl;
      eexists; split; reflexivity.
  - intros o. unfold InventoryService.parseInventoryResponse.
    rewrite (get_ok _ _ Hn). simpl. fold r.
    destruct (truthy r) eqn:Ht; [|intros H; inversion H; reflexivity].
    rewrite !Hr by reflexivity. cbn [bindR andb].
    destruct (is_str "SUCCESS" (prop r "Result")) eqn:Hs.
    + intros H.
      apply bindR_Ret_inv in H as (locs & _ & H).
      apply bindR_Ret_inv in H as (total & _ & H).
      inversion H; reflexivity.
    + rewrite orR_Ret.
      destruct (truthy (prop r "FailureReason")); simpl;
        intros H; inversion H; reflexivity.
Qed.

Lemma response_parsers_normalize_witness :
  exists o,
    OrderService.parseOrderResponse
      (JObj [ ("Response", JObj [ ("Result", JStr "SUCCESS");
                                  ("StatusReference",
                                   JObj [ ("TargetRefID", JStr "SO-77") ]) ]) ])
      = Ret o /\
    prop o "success" = JBool true.
Proof.
  destruct (response_parsers_normalize
              (JObj [ ("Response", JObj [ ("Result", JStr "SUCCESS");
                                          ("StatusReference",
                                           JObj [ ("TargetRefID", JStr "SO-77") ]) ]) ])
              eq_refl) as ((o & Hrun & Hsucc & _) & _).
  exists o. split; [exact Hrun|exact Hsucc].
Defined.

(** ** Inventory normalisation *)

Lemma mapiR_length {A B} (f : A -> nat -> Res B) l : forall i out,
  mapiR f i l = Ret out -> List.length out = List.length l.
Proof.
  induction l as [|x l IH]; intros i out H; simpl in H.
  - inversion H; reflexivity.
  - apply bindR_Ret_inv in H as (y & _ & H).
    apply bindR_Ret_inv in H as (ys & Hys & H).
    inversion H; subst. simpl. f_equal. eauto.
Qed.

Lemma mapiR_Forall2 {A B} (f : A -> nat -> Res B) (R : A -> B -> Prop) l :
  (forall x i, In x l -> exists y, f x i = Ret y /\ R x y) ->
  forall i, exists out, mapiR f i l = Ret out /\ Forall2 R l out.
Proof.
  induction l as [|x l IH]; intros Hf i; simpl.
  - exists []; split; [reflexivity|constructor].
  - destruct (Hf x i (or_introl eq_refl)) as (y & Hy & HR).
    destruct (IH (fun x' i' Hin => Hf x' i' (or_intror Hin)) (S i))
      as (out & Hout & HF).
    rewrite Hy, Hout. simpl. exists (y :: out). split; [reflexivity|].
    now constructor.
Qed.

Lemma normalize_item_ok item i :
  item_wf item = true ->
  exists o, InventoryService.normalize_item item i = Ret o.
Proof.
  unfold item_wf. cbn [forallb]. intros Hwf.
  repeat (apply andb_prop in Hwf as [? Hwf]).
  match goal with H : negb (nullish item) = true |- _ =>
    apply negb_true_iff in H; rename H into Hn end.
  unfold InventoryService.normalize_item.
  rewrite !(get_ok _ _ Hn). cbn [bindR].
  returns_fields;
    try (apply returns_map, ToString_returns; assumption);
    apply parseFloat_or_0_returns; assumption.
Qed.

Lemma normalizeItems_ok v :
  items_wf v = true ->
  exists items,
    InventoryService.normalizeItems v = Ret (JArr items) /\
    List.length items = List.length (items_of v).
Proof.
  unfold items_wf. intros Hwf. unfold InventoryService.normalizeItems.
  assert (Hmap : exists out,
            mapiR InventoryService.normalize_item 0 (items_of v) = Ret out /\
            List.length out = List.length (items_of v)).
  { destruct (mapiR_Forall2 InventoryService.normalize_item (fun _ _ => True)
                (items_of v)) with (i := 0%nat) as (out & Hout & _).
    - intros x i Hin. rewrite forallb_forall in Hwf.
      destruct (normalize_item_ok x i (Hwf x Hin)) as (o & Ho). eauto.
    - exists out. split; [exact Hout|]. eapply mapiR_length; eassumption. }
  destruct (truthy v) eqn:Ht; cbn [negb].
  - assert (Harr : match v with JArr l => l | _ => [v] end = items_of v).
    { unfold items_of. destruct v; try rewrite Ht; reflexivity. }
    rewrite Harr. destruct Hmap as (out & Ho & Hl).
    rewrite Ho. exists out. split; [reflexivity|exact Hl].
  - exists []. split; [reflexivity|].
    unfold items_of. destruct v; try rewrite Ht; try reflexivity.
    discriminate Ht.
Qed.

Lemma normalize_location_ok loc i :
  location_wf loc = true ->
  exists out, InventoryService.normalize_location loc i = Ret out /\
              normalized loc out.
Proof.
  unfold location_wf. intros Hwf. apply andb_prop in Hwf as [Hn Hitems].
  apply negb_true_iff in Hn.
  destruct (normalizeItems_ok _ Hitems) as (items & Hrun & Hlen).
  unfold InventoryService.normalize_location, object. cbn [fieldsR].
  rewrite !(get_ok _ _ Hn). cbn [bindR].
  assert (Hopt : getOpt (prop loc "Items") "Item"
                 = getOpt (prop loc "Items") "Item") by reflexivity.
  rewrite Hrun. cbn [bindR].
  eexists; split; [reflexivity|].
  exists items. split; [reflexivity|split; [exact Hlen|]].
  intros Habsent. unfold getOpt in Hlen. rewrite Habsent in Hlen.
  destruct items; [reflexivity|discriminate Hlen].
Qed.

Lemma add_item_count_total locs out :
  Forall2 normalized locs out ->
  forall acc, exists total,
    foldR InventoryService.add_item_count acc out = Ret total.
Proof.
  induction 1 as [|loc o locs out (items & -> & _) _ IH]; intros acc; simpl.
  - eauto.
  - apply IH.
Qed.

Lemma locations_ok v :
  forallb location_wf (locations_of v) = true ->
  exists out,
    match v with
    | JArr l => mapiR InventoryService.normalize_location 0 l
    | _ => if truthy v
           then let* one := InventoryService.normalize_location v 0 in Ret [one]
           else Ret []
    end = Ret out /\
    Forall2 normalized (locations_of v) out.
Proof.
  intros Hwf.
  assert (Hone : forall x, location_wf x = true ->
            exists out,
              (let* one := InventoryService.normalize_location x 0 in Ret [one])
              = Ret out /\ Forall2 normalized [x] out).
  { intros x Hx. destruct (normalize_location_ok x 0 Hx) as (o & Ho & Hnorm).
    rewrite Ho. exists [o]. split; [reflexivity|]. repeat constructor. exact Hnorm. }
  assert (Hnone : exists out : list JsVal,
            Ret [] = Ret out /\ Forall2 normalized [] out).
  { exists []. split; [reflexivity|constructor]. }
  destruct v as [| |b|n|s|l|fs|name]; unfold locations_of in *.
  - exact Hnone.
  - exact Hnone.
  - destruct (truthy (JBool b)) eqn:Ht; [|exact Hnone].
    apply Hone. cbn [forallb] in Hwf. now rewrite andb_true_r in Hwf.
  - destruct (truthy (JNum n)) eqn:Ht; [|exact Hnone].
    apply Hone. cbn [forallb] in Hwf. now rewrite andb_true_r in Hwf.
  - destruct (truthy (JStr s)) eqn:Ht; [|exact Hnone].
    apply Hone. cbn [forallb] in Hwf. now rewrite andb_true_r in Hwf.
  - apply mapiR_Forall2. intros x i Hin.
    rewrite forallb_forall in Hwf. now apply normalize_location_ok, Hwf.
  - apply Hone. cbn [truthy forallb] in Hwf. now rewrite andb_true_r in Hwf.
  - apply Hone. cbn [truthy forallb] in Hwf. now rewrite andb_true_r in Hwf.
Qed.

Lemma mapiR_Forall2_inv {A B} (f : A -> nat -> Res B) (R : A -> B -> Prop) :
  (forall x i y, f x i = Ret y -> R x y) ->
  forall l i out, mapiR f i l = Ret out -> Forall2 R l out.
Proof.
  intros Hf. induction l as [|x l IH]; intros i out H; simpl in H.
  - inversion H; constructor.
  - apply bindR_Ret_inv in H as (y & Hy & H).
    apply bindR_Ret_inv in H as (ys & Hys & H).
    inversion H; subst. constructor; eauto.
Qed.

Lemma normalizeItems_inv v x :
  InventoryService.normalizeItems v = Ret x ->
  exists items, x = JArr items /\
                List.length items = List.length (items_of v).
Proof.
  unfold InventoryService.normalizeItems.
  destruct (truthy v) eqn:Ht; cbn [negb]; intros H.
  - assert (Harr : match v with JArr l => l | _ => [v] end = items_of v).
    { unfold items_of. destruct v; try rewrite Ht; reflexivity. }
    rewrite Harr in H. apply bindR_Ret_inv in H as (out & Hout & H).
    inversion H; subst x. exists out. split; [reflexivity|].
    eapply mapiR_length; eassumption.
  - inversion H; subst x. exists []. split; [reflexivity|].
    unfold items_of. destruct v; try rewrite Ht; try reflexivity.
    discriminate Ht.
Qed.

Lemma normalize_location_inv loc i o :
  InventoryService.normalize_location loc i = Ret o -> normalized loc o.
Proof.
  unfold InventoryService.normalize_location. intros H.
  apply object_cons_inv in H as (location & vs & Hloc & H & ->).
  apply object_cons_inv in H as (its & vs' & Hits & Hnil & Hvs).
  inversion Hnil; subst vs'. inversion Hvs; subst vs.
  apply get_Ret_inv in Hloc as [Hn ->].
  rewrite (get_ok _ _ Hn) in Hits. cbn [bindR] in Hits.
  apply normalizeItems_inv in Hits as (items & -> & Hlen).
  exists items. split; [reflexivity|split; [exact Hlen|]].
  intros Habsent. unfold getOpt in Hlen. rewrite Habsent in Hlen.
  destruct items; [reflexivity|discriminate Hlen].
Qed.

Lemma locations_inv v out :
  match v with
  | JArr l => mapiR InventoryService.normalize_location 0 l
  | _ => if truthy v
         then let* one := InventoryService.normalize_location v 0 in Ret [one]
         else Ret []
  end = Ret out ->
  Forall2 normalized (locations_of v) out.
Proof.
  assert (Hone : forall x out',
            (let* one := InventoryService.normalize_location x 0 in Ret [one])
            = Ret out' -> Forall2 normalized [x] out').
  { intros x out' H. apply bindR_Ret_inv in H as (o & Ho & H).
    inversion H; subst. repeat constructor. eapply normalize_location_inv; eassumption. }
  assert (Hnone : forall out' : list JsVal,
            Ret [] = Ret out' -> Forall2 normalized [] out').
  { intros out' H; inversion H; constructor. }
  unfold locations_of.
  destruct v as [| |b|n|s|l|fs|name]; try (apply Hnone);
    try (destruct (truthy _); [apply Hone|apply Hnone]).
  apply mapiR_Forall2_inv. intros x i y. apply normalize_location_inv.
Qed.

(** C9. For every successful inventory response: when its location and
    item records are not [null] and the item fields can be converted,
    normalisation returns; and whenever it returns, the locations are a
    sequence of [{location, items[]}] records, one per location record
    of the response: exactly one when [Inventory] is a single object, one
    per element when it is an array; each location's [items] has one
    entry per item record, and is empty when the location has no [Items]
    field. *)
Theorem inventory_normalization response :
  nullish response = false ->
  let r := prop response "Response" in
  let inventoryData := getOpt (prop r "Data") "Inventory" in
  truthy r = true ->
  is_str "SUCCESS" (prop r "Result") = true ->
  (forallb location_wf (locations_of inventoryData) = true ->
   returns (InventoryService.parseInventoryResponse response)) /\
  (forall result,
     InventoryService.parseInventoryResponse response = Ret result ->
     exists out total,
       result = JObj [ ("success", JBool true);
                       ("inventoryByLocation", JArr out);
                       ("totalItems", JNum total);
                       ("error", JNull) ] /\
       Forall2 normalized (locations_of inventoryData) out /\
       (isArray inventoryData = false -> truthy inventoryData = true ->
        exists o, out = [o] /\ normalized inventoryData o) /\
       (forall l, inventoryData = JArr l -> List.length out = List.length l)).
Proof.
  intros Hn r inventoryData Hr Hs.
  assert (Hrn : nullish r = false) by now apply truthy_not_nullish.
  assert (Hrun : InventoryService.parseInventoryResponse response
                 = let* inventoryByLocation :=
                     match inventoryData with
                     | JArr l => mapiR InventoryService.normalize_location 0 l
                     | _ => if truthy inventoryData
                            then let* one := InventoryService.normalize_location
                                               inventoryData 0 in Ret [one]
                            else Ret []
                     end in
                   let* totalItems :=
                     foldR InventoryService.add_item_count (int 0)
                       inventoryByLocation in
                   Ret (JObj [ ("success", JBool true);
                               ("inventoryByLocation", JArr inventoryByLocation);
                               ("totalItems", JNum totalItems);
                               ("error", JNull) ])).
  { unfold InventoryService.parseInventoryResponse.
    rewrite (get_ok _ _ Hn). cbn [bindR]. fold r. rewrite Hr.
    rewrite !(get_ok _ _ Hrn). cbn [bindR]. rewrite Hs. reflexivity. }
  rewrite Hrun. split.
  - intros Hwf. destruct (locations_ok inventoryData Hwf) as (out & Hout & HF).
    destruct (add_item_count_total _ _ HF (int 0)) as (total & Htotal).
    rewrite Hout. cbn [bindR]. rewrite Htotal. apply returns_Ret.
  - intros result H.
    apply bindR_Ret_inv in H as (out & Hout & H).
    apply bindR_Ret_inv in H as (total & _ & H).
    inversion H; subst result. apply locations_inv in Hout as HF.
    exists out, total. split; [reflexivity|split; [exact HF|split]].
    + intros Harr Ht. unfold locations_of in HF.
      destruct inventoryData; try discriminate Harr; rewrite Ht in HF;
        inversion HF as [|? o ? tl Hnorm Hrest]; subst; inversion Hrest; subst;
        exists o; split; auto.
    + intros l Hl. unfold locations_of in HF. rewrite Hl in HF.
      symmetry. eapply Forall2_length; eassumption.
Qed.

Lemma inventory_normalization_witness :
  (exists out total,
     InventoryService.parseInventoryResponse single_location_response
       = Ret (JObj [ ("success", JBool true);
                     ("inventoryByLocation", JArr out);
                     ("totalItems", JNum total);
                     ("error", JNull) ]) /\
     exists o, out = [o] /\
               normalized (JObj [ ("Location", JStr "HO") ]) o) /\
  (exists out total,
     InventoryService.parseInventoryResponse two_location_response
       = Ret (JObj [ ("success", JBool true);
                     ("inventoryByLocation", JArr out);
                     ("totalItems", JNum total);
                     ("error", JNull) ]) /\
     List.length out = 2%nat).
Proof.
  split.
  - destruct (inventory_normalization single_location_response
                eq_refl eq_refl eq_refl) as [Hreturns Hshape].
    destruct (Hreturns eq_refl) as (result & Hrun).
    destruct (Hshape result Hrun) as (out & total & -> & _ & Hone & _).
    exists out, total. split; [exact Hrun|]. exact (Hone eq_refl eq_refl).
  - destruct (inventory_normalization two_location_response
                eq_refl eq_refl eq_refl) as [Hreturns Hshape].
    destruct (Hreturns eq_refl) as (result & Hrun).
    destruct (Hshape result Hrun) as (out & total & -> & _ & _ & Harr).
    exists out, total. split; [exact Hrun|]. exact (Harr _ eq_refl).
Defined.

(** ** The order transformer *)

Lemma returns_object_iff fs :
  returns (object fs) <-> Forall (fun f => returns (snd f)) fs.
Proof. split; [apply returns_object_inv|apply returns_object]. Qed.

Lemma returns_true {A} (a : A) : returns (Ret a) <-> True.
Proof. split; [trivial|intros _; apply returns_Ret]. Qed.

Lemma returns_get_iff v k : returns (get v k) <-> nullish v = false.
Proof.
  split; [|apply returns_get]. unfold get.
  destruct (nullish v); [|reflexivity].
  intros H; exfalso; eapply returns_throw; eassumption.
Qed.

Lemma mapiR_returns {A B} (f : A -> nat -> Res B) (ok : A -> bool) :
  (forall x i, returns (f x i) <-> ok x = true) ->
  forall l i, returns (mapiR f i l) <-> forallb ok l = true.
Proof.
  intros Hf. induction l as [|x l IH]; intros i; simpl.
  - split; [reflexivity|intros _; apply returns_Ret].
  - rewrite andb_true_iff, <- (Hf x i), <- (IH (S i)).
    destruct (f x i) as [y|e]; cbn [bindR].
    + rewrite returns_map. rewrite returns_true. tauto.
    + split; [intros H|intros [H _]]; exfalso; eapply returns_throw; eassumption.
Qed.

Lemma foldR_returns {A B} (f : A -> B -> Res A) (ok : B -> bool) :
  (forall acc x, returns (f acc x) <-> ok x = true) ->
  forall l acc, returns (foldR f acc l) <-> forallb ok l = true.
Proof.
  intros Hf. induction l as [|x l IH]; intros acc; simpl.
  - split; [reflexivity|intros _; apply returns_Ret].
  - rewrite andb_true_iff, <- (Hf acc x).
    destruct (f acc x) as [acc'|e]; cbn [bindR].
    + rewrite IH, returns_true. tauto.
    + split; [intros H|intros [H _]]; exfalso; eapply returns_throw; eassumption.
Qed.

(** [gateway?.toLowerCase()] and the like throw on anything but a string. *)
Lemma toLowerCaseOpt_returns src v :
  returns (toLowerCaseOpt src v) <-> string_or_absent v = true.
Proof.
  destruct v; simpl; split; intros H;
    try apply returns_Ret; try reflexivity;
    try discriminate H; exfalso; eapply returns_throw; eassumption.
Qed.

Lemma mapPaymentGateway_returns g :
  returns (OrderService.mapPaymentGateway g) <-> string_or_absent g = true.
Proof.
  unfold OrderService.mapPaymentGateway.
  destruct g; simpl; split; intros H;
    try apply returns_Ret; try reflexivity;
    try discriminate H; exfalso; eapply returns_throw; eassumption.
Qed.

Lemma getStateGSTCode_returns s :
  returns (OrderService.getStateGSTCode s) <-> string_or_absent s = true.
Proof.
  unfold OrderService.getStateGSTCode.
  destruct s; simpl; split; intros H;
    try apply returns_Ret; try reflexivity;
    try discriminate H; exfalso; eapply returns_throw; eassumption.
Qed.

Lemma transform_line_item_returns item i :
  returns (OrderService.transform_line_item item i)
  <-> item_transformable item = true.
Proof.
  unfold OrderService.transform_line_item, item_transformable.
  rewrite returns_object_iff. repeat rewrite Forall_cons_iff. cbn [snd].
  destruct (nullish item) eqn:Hn.
  - split; [|discriminate]. intros (_ & _ & H & _).
    apply returns_get_iff in H. congruence.
  - rewrite !(get_ok _ _ Hn). cbn [bindR negb andb].
    rewrite !returns_true, !andb_true_iff, orb_true_iff.
    rewrite <- (toStringOpt_returns "item.variant_id").
    rewrite <- !parseFloat_returns.
    rewrite !orR_Ret, !returns_map.
    assert (Hzero : returns (parseFloat (num 0)))
      by (apply parseFloat_returns; reflexivity).
    assert (Hnil : Forall (fun f : string * Res JsVal => returns (snd f)) [])
      by constructor.
    destruct (truthy (prop item "sku"));
      destruct (truthy (prop item "total_discount")) eqn:Htd;
      cbn [bindR]; rewrite ?returns_map, ?returns_true;
      try (pose proof (proj2 (parseFloat_returns _)
                         (falsy_stringifiable _ Htd)));
      intuition (auto || discriminate).
Qed.

Lemma transform_line_item_number item i o :
  OrderService.transform_line_item item i = Ret o ->
  prop o "LineNumber" = num (Z.of_nat i + 1).
Proof.
  unfold OrderService.transform_line_item. intros H.
  apply object_cons_inv in H as (v & vs & Hv & _ & ->).
  inversion Hv; subst v. reflexivity.
Qed.

(** The items come out numbered from [i + 1], one number per source
    item, whatever the source items hold. *)
Lemma line_items_numbered l : forall i out,
  mapiR OrderService.transform_line_item i l = Ret out ->
  map (fun o => prop o "LineNumber") out
  = map (fun k => num (Z.of_nat k)) (seq (S i) (List.length l)).
Proof.
  induction l as [|item l IH]; intros i out H; simpl in H.
  - inversion H; subst. reflexivity.
  - apply bindR_Ret_inv in H as (o & Ho & H).
    apply bindR_Ret_inv in H as (os & Hos & H).
    inversion H; subst out.
    apply transform_line_item_number in Ho. apply IH in Hos.
    simpl. rewrite Ho, Hos. do 2 f_equal. lia.
Qed.

Lemma add_shipping_line_returns sum line :
  returns (OrderService.add_shipping_line sum line)
  <-> line_transformable line = true.
Proof.
  unfold OrderService.add_shipping_line, line_transformable.
  destruct (nullish line) eqn:Hn.
  - split; [|discriminate]. intros H.
    apply returns_bind_inv in H as (p & Hp & _).
    apply orR_left_returns, returns_get_iff in Hp. congruence.
  - rewrite (get_ok _ _ Hn), orR_Ret. cbn [negb andb].
    rewrite <- parseFloat_returns.
    assert (Hzero : returns (parseFloat (num 0)))
      by (apply parseFloat_returns; reflexivity).
    destruct (truthy (prop line "price")) eqn:Hp; cbn [bindR];
      rewrite returns_map; [reflexivity|].
    pose proof (proj2 (parseFloat_returns _) (falsy_stringifiable _ Hp)).
    tauto.
Qed.

(** The shipping charge evaluates exactly when [shipping_lines] is
    absent or an array of lines that can be added. *)
Lemma shippingCharge_returns v :
  returns (array_methodOpt "order.shipping_lines" "reduce" v
             (fun l => let* s := foldR OrderService.add_shipping_line (int 0) l in
                       Ret (JNum s))
           ||| Ret (num 0)) <->
  nullish v || array_of line_transformable v = true.
Proof.
  unfold array_methodOpt.
  destruct v as [| |b|n|s|l|fs|name]; simpl;
    try (split; [reflexivity|intros _; apply returns_Ret]);
    try (split; [intros H; exfalso; eapply returns_throw; eassumption|discriminate]).
  rewrite <- (foldR_returns _ _ add_shipping_line_returns l (int 0)).
  destruct (foldR OrderService.add_shipping_line (int 0) l) as [s|e]; simpl.
  - split; intros _; [apply returns_Ret|].
    destruct (num_truthy s); apply returns_Ret.
  - split; intros H; exfalso; eapply returns_throw; eassumption.
Qed.

Lemma destination_eq order :
  nullish order = false ->
  get order "shipping_address" ||| get order "billing_address" ||| Ret (JObj [])
  = Ret (destination order).
Proof.
  intros Hn. rewrite !(get_ok _ _ Hn). unfold destination, orR. cbn [bindR].
  destruct (truthy (prop order "shipping_address")) eqn:Hs; cbn [bindR];
    rewrite ?Hs; try reflexivity.
  destruct (truthy (prop order "billing_address")) eqn:Hb; cbn [bindR];
    rewrite ?Hb; reflexivity.
Qed.

Lemma destination_readable order : nullish (destination order) = false.
Proof.
  unfold destination.
  destruct (truthy (prop order "shipping_address")) eqn:Hs;
    [now apply truthy_not_nullish|].
  destruct (truthy (prop order "billing_address")) eqn:Hb;
    [now apply truthy_not_nullish|reflexivity].
Qed.

Lemma valid_date_iff h v :
  valid_date h v = true <->
  exists iso, (let* orderDate := Date_new h v in toISOString orderDate) = Ret iso.
Proof.
  unfold valid_date.
  destruct (Date_new h v) as [[t|]|e]; simpl; split; intros H;
    try reflexivity; try discriminate H; try (eexists; reflexivity);
    destruct H as (iso & H); discriminate H.
Qed.

Lemma returns_orR_iff x b :
  returns (Ret x ||| b) <-> truthy x = true \/ returns b.
Proof.
  rewrite orR_Ret. destruct (truthy x).
  - rewrite returns_true. tauto.
  - split; [auto|intros [H|H]; [discriminate H|exact H]].
Qed.

Ltac bind_inv H x Hx :=
  apply bindR_Ret_inv in H as (x & Hx & H); cbv beta in H.

(** What a returning [transformShopifyOrder] tells about the order, and
    where the transformed line items are. *)
Lemma transformShopifyOrder_inv h order r :
  OrderService.transformShopifyOrder h order = Ret r ->
  order_transformable h order = true /\
  exists items out,
    prop order "line_items" = JArr items /\
    mapiR OrderService.transform_line_item 0 items = Ret out /\
    prop (prop (prop r "Order") "Items") "Item" = JArr out.
Proof.
  unfold OrderService.transformShopifyOrder. cbv zeta. intros H.
  bind_inv H customer Hcust.
  assert (Hn : nullish order = false).
  { apply orR_left_returns in Hcust as (x & Hx). now apply get_Ret_inv in Hx. }
  bind_inv H shippingAddress Hship.
  rewrite (destination_eq _ Hn) in Hship. inversion Hship; subst shippingAddress.
  bind_inv H billingAddress Hbill.
  bind_inv H created_at Hcreated. apply get_Ret_inv in Hcreated as [_ ->].
  bind_inv H orderDate Hdate.
  bind_inv H iso Hiso.
  bind_inv H line_items Hli. apply get_Ret_inv in Hli as [_ ->].
  bind_inv H items Hitems.
  bind_inv H shipping_lines Hsl. apply get_Ret_inv in Hsl as [_ ->].
  bind_inv H shippingCharge Hsc.
  bind_inv H otherCharges Hoc.
  bind_inv H payments Hpay.
  bind_inv H province Hprov. apply get_Ret_inv in Hprov as [_ ->].
  bind_inv H stateGSTCode Hcode.
  (* the line items *)
  destruct (prop order "line_items") as [| |b|n|s|l|fs|name] eqn:Hl;
    try discriminate Hitems.
  cbn [array_method] in Hitems. bind_inv Hitems out Hout.
  inversion Hitems; subst items.
  (* the payment mode and value *)
  apply object_cons_inv in Hpay as (pv & pvs & Hpv & _ & _).
  bind_inv Hpv payment Hpayment.
  apply object_cons_inv in Hpayment as (mode & ms & Hmode & Hpayment & _).
  apply object_cons_inv in Hpayment as (value & ms' & Hvalue & _ & _).
  bind_inv Hmode g Hg. apply get_Ret_inv in Hg as [_ ->].
  bind_inv Hvalue total Htotal. apply get_Ret_inv in Htotal as [_ ->].
  bind_inv Hvalue n Hnum.
  (* the result *)
  apply object_cons_inv in H as (ord & vs & Hord & Hnil & ->).
  apply object_cons_inv in Hord as (cust & vs1 & _ & Hord & ->).
  apply object_cons_inv in Hord as (hdr & vs2 & Hhdr & Hord & Hvs1).
  apply object_cons_inv in Hord as (its & vs3 & Hits & _ & Hvs2).
  inversion Hvs1; subst vs1. inversion Hvs2; subst vs2.
  inversion Hits; subst its.
  (* the order number *)
  apply object_cons_inv in Hhdr as (date & hs & _ & Hhdr & _).
  apply object_cons_inv in Hhdr as (number & hs' & Hnumber & _ & _).
  rewrite !(get_ok _ _ Hn) in Hnumber. cbn [bindR] in Hnumber.
  split.
  - unfold order_transformable. rewrite Hn, Hl. cbn [negb andb array_of].
    rewrite (proj2 (valid_date_iff h _)) by (rewrite Hdate; eauto).
    rewrite (proj1 (mapiR_returns _ _ transform_line_item_returns l 0%nat)
               (ex_intro _ _ Hout)).
    rewrite (proj1 (shippingCharge_returns _) (ex_intro _ _ Hsc)).
    rewrite (proj1 (mapPaymentGateway_returns _) (ex_intro _ _ Hmode)).
    rewrite (proj1 (parseFloat_returns _) (ex_intro _ _ Hnum)).
    rewrite (proj1 (getStateGSTCode_returns _) (ex_intro _ _ Hcode)).
    cbn [andb].
    destruct (proj1 (returns_orR_iff _ _) (ex_intro _ _ Hnumber)) as [Ht|Hid].
    + now rewrite Ht.
    + apply returns_bind_inv in Hid as (s & Hs & _).
      rewrite (proj1 (ToString_returns _) (ex_intro _ _ Hs)).
      apply orb_true_r.
  - exists l, out. repeat split; assumption || reflexivity.
Qed.

#[local] Hint Extern 2 (returns (bindR _ _)) =>
  (apply returns_bind; [|intros ? ?]) : js.

Lemma transformShopifyOrder_returns h order :
  order_transformable h order = true ->
  returns (OrderService.transformShopifyOrder h order).
Proof.
  unfold order_transformable. intros Hok.
  repeat (apply andb_prop in Hok as [Hok ?]).
  apply negb_true_iff in Hok.
  match goal with H : valid_date _ _ = true |- _ =>
    apply valid_date_iff in H as (iso & Hiso) end.
  destruct (prop order "line_items") as [| |b|n|s|l|fs|name] eqn:Hl;
    try discriminate.
  match goal with H : stringifiable (prop order "total_price") = true |- _ =>
    apply parseFloat_returns in H; rename H into Htotal end.
  unfold OrderService.transformShopifyOrder. cbv zeta.
  apply returns_bind; [auto with js|]. intros customer Hcust.
  apply orR_object_readable in Hcust.
  rewrite (destination_eq _ Hok). cbn [bindR].
  pose proof (destination_readable order) as Hdest.
  apply returns_bind; [auto with js|]. intros billingAddress Hbill.
  apply orR_object_readable in Hbill.
  rewrite !(get_ok order) by assumption. cbn [bindR].
  apply bindR_Ret_inv in Hiso as (orderDate & Hdate & Hiso).
  rewrite Hdate. cbn [bindR]. rewrite Hiso, Hl. cbn [bindR array_method].
  apply returns_bind.
  { apply returns_map.
    now apply (mapiR_returns _ _ transform_line_item_returns). }
  intros items _.
  apply returns_bind; [now apply shippingCharge_returns|]. intros shippingCharge _.
  apply returns_bind.
  { destruct (gt0 shippingCharge); [|apply returns_Ret].
    returns_fields. apply returns_bind; [returns_fields|intros; apply returns_Ret]. }
  intros otherCharges _.
  apply returns_bind.
  { returns_fields. apply returns_bind; [|intros; apply returns_Ret].
    returns_fields. now apply mapPaymentGateway_returns. }
  intros payments _.
  rewrite !(get_ok (destination order)) by assumption. cbn [bindR].
  apply returns_bind; [now apply getStateGSTCode_returns|]. intros stateGSTCode _.
  rewrite !(get_ok customer), !(get_ok billingAddress) by assumption.
  match goal with
  | |- context [Ret (prop order "name") ||| ?b] =>
      assert (Hnumber : returns (Ret (prop order "name") ||| b))
  end.
  { apply returns_orR_iff.
    match goal with H : truthy _ || stringifiable _ = true |- _ =>
      apply orb_prop in H as [H|H]; [now left|right] end.
    apply returns_bind; [now apply ToString_returns|]. intros; apply returns_Ret. }
  returns_fields. returns_fields; returns_fields.
Qed.

Lemma line_numbers_of h order r items :
  OrderService.transformShopifyOrder h order = Ret r ->
  prop order "line_items" = JArr items ->
  line_numbers r = map (fun k => num (Z.of_nat k)) (seq 1 (List.length items)).
Proof.
  intros H Hitems.
  apply transformShopifyOrder_inv in H as (_ & items' & out & Hitems' & Hout & Hr).
  rewrite Hitems in Hitems'. inversion Hitems'; subst items'.
  unfold line_numbers. rewrite Hr.
  now apply line_items_numbered in Hout.
Qed.

(** C8. Whenever the order transform returns, the source [line_items] is
    an array of some N items and the [LineNumber] values of the result
    are 1, 2, ..., N in that order; they depend on nothing but N, so a
    second run on the same order, or a run on any order with as many
    items, gives the same sequence. *)
Theorem line_numbers_contiguous h order r :
  OrderService.transformShopifyOrder h order = Ret r ->
  exists items,
    prop order "line_items" = JArr items /\
    line_numbers r = map (fun k => num (Z.of_nat k)) (seq 1 (List.length items)) /\
    (forall r', OrderService.transformShopifyOrder h order = Ret r' ->
                line_numbers r' = line_numbers r) /\
    (forall order' items' r',
       OrderService.transformShopifyOrder h order' = Ret r' ->
       prop order' "line_items" = JArr items' ->
       List.length items' = List.length items ->
       line_numbers r' = line_numbers r).
Proof.
  intros H.
  destruct (transformShopifyOrder_inv _ _ _ H) as (_ & items & out & Hitems & _ & _).
  exists items. split; [exact Hitems|].
  pose proof (line_numbers_of _ _ _ _ H Hitems) as Hnums.
  split; [exact Hnums|split].
  - intros r' H'. rewrite Hnums. now apply (line_numbers_of h order).
  - intros order' items' r' H' Hitems' Hlen.
    rewrite Hnums, <- Hlen. now apply (line_numbers_of h order').
Qed.

Lemma line_numbers_contiguous_witness :
  exists r,
    OrderService.transformShopifyOrder utc_host sample_order = Ret r /\
    line_numbers r = [num 1; num 2; num 3].
Proof.
  destruct (OrderService.transformShopifyOrder utc_host sample_order)
    as [r|e] eqn:Hrun; [|discriminate Hrun].
  exists r. split; [reflexivity|].
  destruct (line_numbers_contiguous utc_host sample_order r Hrun)
    as (items & Hitems & Hnums & _).
  inversion Hitems; subst items. exact Hnums.
Defined.

(** *** The fields of an object literal *)

Lemma object_prop_here k e fs r :
  object ((k, e) :: fs) = Ret r -> exists v, e = Ret v /\ prop r k = v.
Proof.
  intros H. apply object_cons_inv in H as (v & vs & He & _ & ->).
  exists v. split; [exact He|]. simpl. now rewrite String.eqb_refl.
Qed.

Lemma object_prop_next k k' e fs r :
  object ((k', e) :: fs) = Ret r ->
  (k' =? k)%string = false ->
  exists r', object fs = Ret r' /\ prop r k = prop r' k.
Proof.
  intros H Hk. apply object_cons_inv in H as (v & vs & _ & Hfs & ->).
  exists (JObj vs). split; [exact Hfs|]. simpl. now rewrite Hk.
Qed.

(** Walk an object literal [H : object fields = Ret r] to its field [k],
    leaving [H : e = Ret v] for the initialiser [e] of [k] and [E] the
    value of [prop r k]. *)
Ltac next_field H k E :=
  let r' := fresh "r" in
  let E' := fresh "E" in
  let E'' := fresh "E" in
  apply (object_prop_next k) in H;
  [destruct H as (r' & H & E');
   pose proof (eq_trans E E') as E''; clear E E'; rename E'' into E
  |reflexivity].

Ltac field_of H k v E :=
  match type of H with
  | _ = Ret ?r => pose proof (eq_refl (prop r k)) as E
  end;
  repeat next_field H k E;
  let E' := fresh "E" in
  let E'' := fresh "E" in
  apply (object_prop_here k) in H as (v & H & E');
  pose proof (eq_trans E E') as E''; clear E E'; rename E'' into E.

(** The statements of [transformShopifyOrder] in order, on a run that
    returns. *)
Ltac transform_inv H order :=
  unfold OrderService.transformShopifyOrder in H; cbv zeta in H;
  apply bindR_Ret_inv in H as (customer & Hcust & H); cbv beta in H;
  assert (Hn : nullish order = false)
    by (apply orR_left_returns in Hcust as (x & Hx); now apply get_Ret_inv in Hx);
  apply bindR_Ret_inv in H as (shippingAddress & Hship & H); cbv beta in H;
  rewrite (destination_eq _ Hn) in Hship; inversion Hship; subst shippingAddress;
  apply bindR_Ret_inv in H as (billingAddress & Hbill & H); cbv beta in H;
  apply bindR_Ret_inv in H as (created_at & Hcreated & H); cbv beta in H; apply get_Ret_inv in Hcreated as [_ ->];
  apply bindR_Ret_inv in H as (orderDate & Hdate & H); cbv beta in H;
  apply bindR_Ret_inv in H as (iso & Hiso & H); cbv beta in H;
  apply bindR_Ret_inv in H as (line_items & Hli & H); cbv beta in H; apply get_Ret_inv in Hli as [_ ->];
  apply bindR_Ret_inv in H as (items & Hitems & H); cbv beta in H;
  apply bindR_Ret_inv in H as (shipping_lines & Hsl & H); cbv beta in H; apply get_Ret_inv in Hsl as [_ ->];
  apply bindR_Ret_inv in H as (shippingCharge & Hsc & H); cbv beta in H;
  apply bindR_Ret_inv in H as (otherCharges & Hoc & H); cbv beta in H;
  apply bindR_Ret_inv in H as (payments & Hpay & H); cbv beta in H;
  apply bindR_Ret_inv in H as (province & Hprov & H); cbv beta in H; apply get_Ret_inv in Hprov as [_ ->];
  apply bindR_Ret_inv in H as (stateGSTCode & Hcode & H); cbv beta in H.

Lemma orR_default_inv a s v :
  a ||| str s = Ret v -> truthy v = true \/ v = JStr s.
Proof.
  intros H. apply orR_Ret_inv in H as [[_ H]|(x & _ & _ & H)]; [now left|].
  injection H as <-. now right.
Qed.

(** C7, as the claim states it, fails: an order that only lacks
    [created_at] makes the transform throw (a [RangeError]); an order
    with no destination at all is transformed without any failure; and an
    order without [line_items] fails with a [TypeError] that names [map],
    not the missing field. *)
Lemma transform_failure_policy_counterexample :
  OrderService.transformShopifyOrder utc_host undated_order
    = Throw (RangeError "Invalid time value") /\
  prop undated_order "shipping_address" <> JUndefined /\
  array_of item_transformable (prop undated_order "line_items") = true /\
  returns (OrderService.transformShopifyOrder utc_host undelivered_order) /\
  prop undelivered_order "shipping_address" = JUndefined /\
  prop undelivered_order "billing_address" = JUndefined /\
  OrderService.transformShopifyOrder utc_host itemless_order
    = Throw (TypeError "Cannot read properties of undefined (reading 'map')").
Proof.
  repeat split; try reflexivity.
  - discriminate.
  - eexists. vm_compute. reflexivity.
Qed.

Lemma createSalesOrder_throws_early h order e w :
  OrderService.transformShopifyOrder h order = Throw e ->
  OrderService.createSalesOrder h order w = (Throw e, w).
Proof.
  intros H. unfold OrderService.createSalesOrder, bind, liftR. now rewrite H.
Qed.

(** The first four statements of [transformShopifyOrder] on an object:
    they cannot throw. *)
Ltac enter_transform Hn :=
  unfold OrderService.transformShopifyOrder; cbv zeta;
  rewrite (destination_eq _ Hn), !(get_ok _ _ Hn);
  match goal with
  | |- context [Ret (prop ?o "customer") ||| ?b] =>
      rewrite (orR_Ret (prop o "customer") b);
      destruct (truthy (prop o "customer")); cbn [bindR]
  end;
  match goal with
  | |- context [Ret (prop ?o "billing_address") ||| ?b] =>
      rewrite (orR_Ret (prop o "billing_address") b);
      destruct (truthy (prop o "billing_address")); cbn [bindR]
  end.

(** Every field of an object literal whose initialisers all give values
    with the property [P] has that property. *)
Lemma fieldsR_fields (P : string -> JsVal -> Prop) fs : forall vs,
  fieldsR fs = Ret vs ->
  Forall (fun f => forall v, snd f = Ret v -> P (fst f) v) fs ->
  forall k, In k (map fst fs) -> exists v, lookup k vs = Some v /\ P k v.
Proof.
  induction fs as [|[k0 e] fs IH]; intros vs H HF k Hin; [destruct Hin|].
  cbn [fieldsR] in H. bind_inv H v0 Hv0. bind_inv H vs' Hvs'. injection H as <-.
  inversion HF as [|f fs' Hhead Htail]; subst. cbn [lookup].
  destruct (String.eqb_spec k0 k) as [->|Hne].
  - exists v0. split; [reflexivity|]. now apply Hhead.
  - destruct Hin as [Heq|Hin]; [contradiction|]. eauto.
Qed.

Lemma object_fields (P : string -> JsVal -> Prop) fs o :
  object fs = Ret o ->
  Forall (fun f => forall v, snd f = Ret v -> P (fst f) v) fs ->
  Forall (fun k => P k (prop o k)) (map fst fs).
Proof.
  unfold object. intros H HF. bind_inv H vs Hvs. injection H as <-.
  apply Forall_forall. intros k Hin.
  destruct (fieldsR_fields P fs vs Hvs HF k Hin) as (v & Hv & HP).
  cbn [prop]. now rewrite Hv.
Qed.

Lemma filled_str s : filled_or_empty (JStr s).
Proof. destruct s; [now right|now left]. Qed.

Lemma table_lookup_filled table key dflt v :
  table_lookup table key dflt = Ret v -> truthy v = true \/ v = JStr dflt.
Proof.
  unfold table_lookup. intros H. bind_inv H k Hk.
  match type of H with
  | Ret (if truthy ?x then _ else _) = _ =>
      remember x as found eqn:Hfound; clear Hfound
  end.
  destruct (truthy found) eqn:Ht; inversion H; subst; auto.
Qed.

Lemma getStateGSTCode_filled stateName v :
  OrderService.getStateGSTCode stateName = Ret v -> filled_or_empty v.
Proof.
  unfold OrderService.getStateGSTCode. intros H. bind_inv H key Hkey.
  apply table_lookup_filled in H. exact H.
Qed.

Lemma mapPaymentGateway_truthy gateway v :
  OrderService.mapPaymentGateway gateway = Ret v -> truthy v = true.
Proof.
  unfold OrderService.mapPaymentGateway. intros H. bind_inv H key Hkey.
  apply table_lookup_filled in H as [H| ->]; [exact H|reflexivity].
Qed.

(** The optional fields of one line item. *)
Lemma transform_line_item_defaults item i o :
  OrderService.transform_line_item item i = Ret o -> line_defaults item o.
Proof.
  unfold OrderService.transform_line_item. intros H.
  assert (Hn : nullish item = false).
  { pose proof H as Hq. field_of Hq "Quantity" q Eq'. now apply get_Ret_inv in Hq. }
  rewrite !(get_ok _ _ Hn) in H. cbn [bindR] in H.
  pose proof H as Hq. field_of Hq "Quantity" q Eq'. injection Hq as <-.
  pose proof H as Hr. field_of Hr "LineRemarks" lr Elr. injection Hr as <-.
  pose proof H as Hd. field_of Hd "DiscountAmount" disc Edisc.
  pose proof H as Hrate. field_of Hrate "Rate" rate Erate.
  field_of H "ItemCode" code Ecode.
  unfold line_defaults. rewrite Eq', Elr, Edisc, Erate, Ecode.
  repeat split.
  - intros Hfalsy. rewrite orR_Ret, Hfalsy in Hd. cbn [bindR] in Hd.
    now injection Hd as <-.
  - intros Hprice. rewrite Hprice in Hrate. now injection Hrate as <-.
  - intros Hsku Hvar. rewrite orR_Ret, Hsku in H.
    destruct (prop item "variant_id"); try discriminate Hvar;
      now injection H as <-.
Qed.

(** A field [a || ... || 'text'] holds a value or the text. *)
Ltac filled_field Hv Hgst :=
  cbn [snd fst] in Hv; unfold str in Hv;
  first
    [ injection Hv as <-; first [exact Hgst | apply filled_str]
    | apply orR_Ret_inv in Hv as [[_ Hv]|(? & _ & _ & Hv)];
      [now left|injection Hv as <-; apply filled_str] ].

(** What a returning transform holds where the order holds nothing. *)
Lemma transformShopifyOrder_defaults h order r :
  OrderService.transformShopifyOrder h order = Ret r ->
  let o := prop r "Order" in
  Forall (fun k => filled_or_empty (prop (prop o "Customer") k))
    order_customer_fields /\
  Forall (fun k => filled_or_empty (prop (prop o "Header") k))
    order_header_fields /\
  (truthy (prop order "customer") = false ->
   truthy (prop (destination order) "first_name") = false ->
   prop (prop o "Customer") "FirstName" = JStr "Guest") /\
  (truthy (prop order "name") = false ->
   exists id, ToString (prop order "id") = Ret id /\
              prop (prop o "Header") "OrderNumber" = JStr ("ORD" ++ id)) /\
  (exists p,
     prop (prop o "Payments") "Payment" = JArr [p] /\
     truthy (prop p "PaymentMode") = true /\
     (nullish (prop order "gateway") = true ->
      prop p "PaymentMode" = JStr "OnlinePayment") /\
     filled_or_empty (prop p "ModeType") /\
     filled_or_empty (prop p "PaymentReference") /\
     (prop order "total_price" = JUndefined ->
      prop p "PaymentValue" = JNum NaN)) /\
  (prop order "total_price" = JUndefined ->
   prop (prop o "Header") "TotalOrderValue" = JNum NaN) /\
  (nullish (prop order "shipping_lines") = true ->
   prop o "OtherCharges" = JObj []) /\
  exists items out,
    prop order "line_items" = JArr items /\
    prop (prop o "Items") "Item" = JArr out /\
    Forall2 line_defaults items out.
Proof.
  intros H o. subst o. transform_inv H order.
  assert (Hgst : filled_or_empty stateGSTCode)
    by (eapply getStateGSTCode_filled; eassumption).
  field_of H "Order" ord Eord. rewrite Eord. clear Eord.
  (* the customer *)
  pose proof H as Hc. field_of Hc "Customer" cust Ecust. rewrite Ecust.
  split.
  { apply (object_fields (fun _ v => filled_or_empty v)) in Hc as Hall;
      [exact Hall|].
    repeat (constructor; [intros v Hv; filled_field Hv Hgst|]). constructor. }
  (* the header *)
  pose proof H as Hh. field_of Hh "Header" hdr Ehdr. rewrite Ehdr.
  split.
  { apply (object_fields
             (fun k v => k = "TotalOrderValue" \/ filled_or_empty v)) in Hh as Hall.
    - rewrite Forall_forall in Hall. apply Forall_forall. intros k Hin.
      destruct (Hall k) as [Hk|Hk]; [|subst k|exact Hk].
      + simpl in Hin |- *. tauto.
      + simpl in Hin. repeat (destruct Hin as [Hin|Hin]; [discriminate Hin|]).
        destruct Hin.
    - repeat (constructor;
              [intros v Hv;
               first [ now left
                     | right; filled_field Hv Hgst
                     | right; cbn [snd] in Hv;
                       apply orR_Ret_inv in Hv as [[_ Hv]|(x & _ & _ & Hv)];
                       [now left|];
                       bind_inv Hv oid Hoid; bind_inv Hv s Hs; unfold str in Hv;
                       injection Hv as <-; now left ]|]).
      constructor. }
  split.
  { intros Hnone Hfirst.
    rewrite (get_ok _ _ Hn), orR_Ret, Hnone in Hcust. injection Hcust as <-.
    field_of Hc "FirstName" fname Efname. rewrite Efname.
    change (get (JObj []) "first_name") with (Ret JUndefined) in Hc.
    rewrite (get_ok _ _ (destination_readable order)) in Hc.
    rewrite orR_Ret in Hc. cbn [truthy] in Hc. rewrite orR_Ret, Hfirst in Hc.
    now injection Hc as <-. }
  split.
  { intros Hname. field_of Hh "OrderNumber" number Enumber. rewrite Enumber.
    rewrite !(get_ok _ _ Hn), orR_Ret, Hname in Hh. cbn [bindR] in Hh.
    bind_inv Hh oid Hoid. injection Hh as <-. eauto. }
  split.
  { pose proof H as Hp. field_of Hp "Payments" pays Epays. rewrite Epays.
    injection Hp as <-.
    field_of Hpay "Payment" pv Epv. bind_inv Hpay p Hp. injection Hpay as <-.
    exists p. split; [exact Epv|].
    rewrite !(get_ok _ _ Hn) in Hp. cbn [bindR] in Hp.
    pose proof Hp as Hmode. field_of Hmode "PaymentMode" mode Emode.
    pose proof Hp as Htype. field_of Htype "ModeType" mt Emt.
    pose proof Hp as Href. field_of Href "PaymentReference" pr Epr.
    field_of Hp "PaymentValue" pval Epval.
    rewrite Emode, Emt, Epr, Epval.
    split; [eapply mapPaymentGateway_truthy; eassumption|].
    split.
    { intros Hg. destruct (prop order "gateway"); try discriminate Hg;
        now injection Hmode as <-. }
    split; [eapply orR_default_inv; eassumption|].
    split; [eapply orR_default_inv; eassumption|].
    intros Htotal. rewrite Htotal in Hp. now injection Hp as <-. }
  split.
  { intros Htotal. field_of Hh "TotalOrderValue" tv Etv. rewrite Etv.
    rewrite (get_ok _ _ Hn), Htotal in Hh. now injection Hh as <-. }
  split.
  { intros Hnone. pose proof H as Ho. field_of Ho "OtherCharges" oc Eoc.
    rewrite Eoc. injection Ho as <-.
    destruct (prop order "shipping_lines"); try discriminate Hnone;
      injection Hsc as <-; now injection Hoc as <-. }
  destruct (prop order "line_items") as [| |b|n|s|l|fs|name] eqn:Hl;
    try discriminate Hitems.
  cbn [array_method] in Hitems. bind_inv Hitems out Hout.
  injection Hitems as <-.
  exists l, out. split; [reflexivity|].
  field_of H "Items" its Eits. rewrite Eits.
  field_of H "Item" it Eit. injection H as <-.
  split; [exact Eit|].
  eapply mapiR_Forall2_inv; [|exact Hout].
  intros x i y. apply transform_line_item_defaults.
Qed.

(** C7, amended. The order transform returns exactly on the orders that
    are objects with a [created_at] that makes a valid date, a
    [line_items] array of line items and, where present, a
    [shipping_lines] array of lines, a string [gateway] and a string
    destination [province], the values it turns into numbers or strings
    being convertible; every field may be missing but [created_at] and
    [line_items], the destination included.  With a valid date, a
    missing [line_items] makes it throw a [TypeError]; a missing
    [created_at] makes it throw a [RangeError].  Whatever it throws,
    [createSalesOrder] throws the same before any request is posted: the
    world is unchanged.  Where it returns, every text field of the
    customer and of the header holds a value or the empty string, the
    first name of an order without customer and destination name being
    ['Guest'] and the number of an order without name ['ORD'] and its
    [id]; the payment mode is never empty (['OnlinePayment'] without a
    gateway), its mode type and reference hold a value or the empty
    string; an order without shipping lines has no other charges, and a
    line without discount has the discount [0].  Nothing stands in for a
    missing total, price, quantity, line name or item code: the total
    and the payment value of an order without [total_price] are [NaN],
    and a line without these has the rate [NaN] and the others
    [undefined]. *)
Theorem transform_failure_policy h order :
  (returns (OrderService.transformShopifyOrder h order) <->
   order_transformable h order = true) /\
  (nullish order = false ->
   valid_date h (prop order "created_at") = true ->
   nullish (prop order "line_items") = true ->
   exists m, OrderService.transformShopifyOrder h order = Throw (TypeError m)) /\
  (nullish order = false ->
   prop order "created_at" = JUndefined ->
   OrderService.transformShopifyOrder h order
     = Throw (RangeError "Invalid time value")) /\
  (forall e w,
     OrderService.transformShopifyOrder h order = Throw e ->
     OrderService.createSalesOrder h order w = (Throw e, w)) /\
  (forall r,
     OrderService.transformShopifyOrder h order = Ret r ->
     let o := prop r "Order" in
     Forall (fun k => filled_or_empty (prop (prop o "Customer") k))
       order_customer_fields /\
     Forall (fun k => filled_or_empty (prop (prop o "Header") k))
       order_header_fields /\
     (truthy (prop order "customer") = false ->
      truthy (prop (destination order) "first_name") = false ->
      prop (prop o "Customer") "FirstName" = JStr "Guest") /\
     (truthy (prop order "name") = false ->
      exists id, ToString (prop order "id") = Ret id /\
                 prop (prop o "Header") "OrderNumber" = JStr ("ORD" ++ id)) /\
     (exists p,
        prop (prop o "Payments") "Payment" = JArr [p] /\
        truthy (prop p "PaymentMode") = true /\
        (nullish (prop order "gateway") = true ->
         prop p "PaymentMode" = JStr "OnlinePayment") /\
        filled_or_empty (prop p "ModeType") /\
        filled_or_empty (prop p "PaymentReference") /\
        (prop order "total_price" = JUndefined ->
         prop p "PaymentValue" = JNum NaN)) /\
     (prop order "total_price" = JUndefined ->
      prop (prop o "Header") "TotalOrderValue" = JNum NaN) /\
     (nullish (prop order "shipping_lines") = true ->
      prop o "OtherCharges" = JObj []) /\
     exists items out,
       prop order "line_items" = JArr items /\
       prop (prop o "Items") "Item" = JArr out /\
       Forall2 line_defaults items out).
Proof.
  split; [|split; [|split; [|split]]].
  - split.
    + intros (r & Hr). now apply transformShopifyOrder_inv in Hr as [Hok _].
    + apply transformShopifyOrder_returns.
  - intros Hn Hdate Hitems. unfold valid_date in Hdate. enter_transform Hn;
      (destruct (Date_new h (prop order "created_at")) as [[t|]|e];
       try discriminate Hdate);
      cbn [toISOString bindR];
      (destruct (prop order "line_items"); try discriminate Hitems);
      eexists; reflexivity.
  - intros Hn Hcreated. enter_transform Hn; rewrite Hcreated; reflexivity.
  - intros e w. apply createSalesOrder_throws_early.
  - intros r. apply transformShopifyOrder_defaults.
Qed.

Lemma transform_failure_policy_witness :
  returns (OrderService.transformShopifyOrder utc_host undelivered_order) /\
  OrderService.transformShopifyOrder utc_host undated_order
    = Throw (RangeError "Invalid time value") /\
  (exists m, OrderService.transformShopifyOrder utc_host itemless_order
             = Throw (TypeError m)) /\
  OrderService.createSalesOrder utc_host undated_order rejecting_world
    = (Throw (RangeError "Invalid time value"), rejecting_world) /\
  exists r,
    OrderService.transformShopifyOrder utc_host bare_order = Ret r /\
    prop (prop (prop r "Order") "Customer") "FirstName" = JStr "Guest" /\
    prop (prop (prop r "Order") "Header") "OrderNumber" = JStr "ORDundefined" /\
    prop (prop (prop r "Order") "Header") "TotalOrderValue" = JNum NaN /\
    prop (prop r "Order") "OtherCharges" = JObj [].
Proof.
  split; [|split; [|split; [|split]]].
  - apply (proj1 (transform_failure_policy utc_host undelivered_order)).
    reflexivity.
  - apply (proj1 (proj2 (proj2 (transform_failure_policy utc_host undated_order))));
      reflexivity.
  - apply (proj1 (proj2 (transform_failure_policy utc_host itemless_order)));
      reflexivity.
  - apply (proj1 (proj2 (proj2 (proj2 (transform_failure_policy utc_host
                                         undated_order))))).
    reflexivity.
  - destruct (OrderService.transformShopifyOrder utc_host bare_order)
      as [r|e] eqn:Hrun; [|discriminate Hrun].
    exists r. split; [reflexivity|].
    destruct (proj2 (proj2 (proj2 (proj2 (transform_failure_policy utc_host
                                            bare_order)))) r Hrun)
      as (_ & _ & Hfirst & Hnumber & _ & Htotal & Hcharges & _).
    split; [apply Hfirst; reflexivity|].
    split; [|split; [apply Htotal; reflexivity|apply Hcharges; reflexivity]].
    destruct (Hnumber eq_refl) as (id & Hid & ->).
    vm_compute in Hid. now injection Hid as <-.
Defined.

(** ** Order creation *)

(** A returning [makeRequest] has posted its request last. *)
Lemma makeRequest_sent h method data w response w' :
  OrderService.makeRequest h method data w = (Ret response, w') ->
  exists tok before,
    sent w' = (before ++ [process_request h method tok data])%list.
Proof.
  unfold OrderService.makeRequest, bind, try_catch, throw, axios_post.
  destruct (TokenManager.getToken h w) as [[tok|e] w1]; [|discriminate].
  fold (process_request h method tok data).
  destruct (network w1 (sent w1) (process_request h method tok data))
    as [[d|msg] elapsed]; [|discriminate].
  intros H. inversion H; subst. simpl. eauto.
Qed.

(** A returning [createSalesOrder] has transformed the order and posted
    it as its last request. *)
Lemma createSalesOrder_sent h order w result w' :
  OrderService.createSalesOrder h order w = (Ret result, w') ->
  exists orderData tok before,
    OrderService.transformShopifyOrder h order = Ret orderData /\
    sent w' = (before ++ [process_request h Config.CREATE_SALES_ORDER
                            tok orderData])%list.
Proof.
  unfold OrderService.createSalesOrder, bind, liftR.
  destruct (OrderService.transformShopifyOrder h order) as [orderData|e];
    [|discriminate].
  destruct (let* label := get order "name" ||| get order "order_number" in
            ToString label); [|discriminate].
  destruct (OrderService.makeRequest h Config.CREATE_SALES_ORDER orderData w)
    as [[response|e] w1] eqn:Hreq; [|discriminate].
  destruct (OrderService.parseOrderResponse response); [|discriminate].
  intros H. inversion H; subst.
  apply makeRequest_sent in Hreq as (tok & before & Hsent). eauto.
Qed.

(** A returning [createSalesOrder] has printed the order's name. *)
Lemma createSalesOrder_printed h order w result w' :
  OrderService.createSalesOrder h order w = (Ret result, w') ->
  nullish order = false ->
  returns (ToString (prop order "name")).
Proof.
  unfold OrderService.createSalesOrder, bind, liftR. intros H Hn.
  destruct (OrderService.transformShopifyOrder h order) as [orderData|e];
    [|discriminate].
  rewrite !(get_ok _ _ Hn), orR_Ret in H.
  destruct (truthy (prop order "name")) eqn:Hname.
  - cbn [bindR] in H.
    destruct (ToString (prop order "name")); [apply returns_Ret|discriminate].
  - now apply ToString_returns, falsy_stringifiable.
Qed.

(** C1. For every order-creation event with a customer whose sync step
    fails, by throwing or by returning an unsuccessful outcome, and
    whose order-create call, made in the world the sync step left,
    returns a successful result: [handleOrderCreate] returns
    [{success: true, orderId, eshopaidRef}], an outcome without an
    [error] field, and the order-create request is the last one
    posted. *)
Theorem order_create_tolerates_customer_failure h order w :
  nullish order = false ->
  truthy (prop order "customer") = true ->
  let sync := CustomerService.syncFromShopify h (prop order "customer")
                JUndefined w in
  sync_failed (fst sync) ->
  forall result w2,
    OrderService.createSalesOrder h order (snd sync) = (Ret result, w2) ->
    truthy (prop result "success") = true ->
    let outcome := JObj [ ("success", JBool true);
                          ("orderId", prop order "id");
                          ("eshopaidRef",
                           getOpt (prop result "data") "TargetRefID") ] in
    WebhookHandlers.handleOrderCreate h order w = (Ret outcome, w2) /\
    prop outcome "error" = JUndefined /\
    exists orderData tok before,
      OrderService.transformShopifyOrder h order = Ret orderData /\
      sent w2 = (before ++ [process_request h Config.CREATE_SALES_ORDER
                              tok orderData])%list.
Proof.
  intros Hn Hcust sync _ result w2 Hcreate Hsucc outcome.
  assert (Hres : nullish result = false).
  { destruct result; try reflexivity; discriminate Hsucc. }
  split; [|split; [reflexivity|eapply createSalesOrder_sent; eassumption]].
  destruct (createSalesOrder_printed _ _ _ _ _ Hcreate Hn) as (label & Hlabel).
  unfold WebhookHandlers.handleOrderCreate, bind, try_catch, liftR, ret.
  rewrite !(get_ok _ _ Hn), Hcust. cbn [bindR]. rewrite Hlabel.
  fold sync. clearbody sync.
  destruct sync as [[customerOutcome|customerError] w1]; cbn [snd] in Hcreate;
    rewrite Hcreate, (get_ok _ _ Hres), Hsucc;
    unfold object; cbn [fieldsR bindR]; rewrite (get_ok _ _ Hres); reflexivity.
Qed.

Lemma order_create_tolerates_customer_failure_witness :
  (exists w2,
     WebhookHandlers.handleOrderCreate utc_host sample_order rejecting_world
       = (Ret (JObj [ ("success", JBool true);
                      ("orderId", num 5003);
                      ("eshopaidRef", JStr "SO-2024-0042") ]), w2)) /\
  (exists w2,
     WebhookHandlers.handleOrderCreate utc_host sample_order faulting_world
       = (Ret (JObj [ ("success", JBool true);
                      ("orderId", num 5003);
                      ("eshopaidRef", JStr "SO-2024-0042") ]), w2)).
Proof.
  split.
  - destruct (OrderService.createSalesOrder utc_host sample_order
                (snd (CustomerService.syncFromShopify utc_host
                        (prop sample_order "customer") JUndefined
                        rejecting_world)))
      as [[result|e] w2] eqn:Hcreate; [|vm_compute in Hcreate; discriminate Hcreate].
    exists w2.
    assert (Hresult : result = JObj [ ("success", JBool true);
                                      ("message", JStr "Order created");
                                      ("data", JObj [ ("TargetRefID",
                                                       JStr "SO-2024-0042") ]);
                                      ("error", JUndefined) ]).
    { vm_compute in Hcreate. now inversion Hcreate. }
    subst result.
    exact (proj1 (order_create_tolerates_customer_failure utc_host sample_order
                    rejecting_world eq_refl eq_refl eq_refl _ w2 Hcreate eq_refl)).
  - destruct (OrderService.createSalesOrder utc_host sample_order
                (snd (CustomerService.syncFromShopify utc_host
                        (prop sample_order "customer") JUndefined
                        faulting_world)))
      as [[result|e] w2] eqn:Hcreate; [|vm_compute in Hcreate; discriminate Hcreate].
    exists w2.
    assert (Hresult : result = JObj [ ("success", JBool true);
                                      ("message", JStr "Order created");
                                      ("data", JObj [ ("TargetRefID",
                                                       JStr "SO-2024-0042") ]);
                                      ("error", JUndefined) ]).
    { vm_compute in Hcreate. now inversion Hcreate. }
    subst result.
    exact (proj1 (order_create_tolerates_customer_failure utc_host sample_order
                    faulting_world eq_refl eq_refl I _ w2 Hcreate eq_refl)).
Defined.

(** ** Status resolution *)

(** The outcome a status parser returns is a record. *)
Lemma parseStatusResponse_record response result :
  OrderService.parseStatusResponse response = Ret result ->
  nullish result = false.
Proof.
  unfold OrderService.parseStatusResponse. intros H.
  bind_inv H r Hr.
  destruct (truthy r); [|now injection H as <-].
  apply object_cons_inv in H as (v & vs & _ & _ & ->). reflexivity.
Qed.

(** A returning [setOrderStatus] has posted its status update last and
    returns a record. *)
Lemma setOrderStatus_sent h number date status w result w' :
  OrderService.setOrderStatus h number date status w = (Ret result, w') ->
  nullish result = false /\
  exists tok before,
    sent w' = (before ++
      [process_request h Config.SET_ORDER_STATUS tok
         (JObj [ ("OrderStatusUpdate",
                  JObj [ ("VendorOrderDate", date);
                         ("VendorOrderNumber", number);
                         ("OrderLocation",
                          JStr (Config.storeLocation (Config.eshopaid h)));
                         ("OrderStatus", status) ]) ])])%list.
Proof.
  unfold OrderService.setOrderStatus, bind, liftR. cbv zeta.
  destruct (let* _ := ToString number in ToString status) as [x|e];
    [|discriminate].
  destruct (OrderService.makeRequest h Config.SET_ORDER_STATUS _ w)
    as [[response|e] w1] eqn:Hreq; [|discriminate].
  destruct (OrderService.parseStatusResponse response) as [r|e] eqn:Hparse;
    [|discriminate].
  intros H. injection H as <- <-.
  apply parseStatusResponse_record in Hparse.
  apply makeRequest_sent in Hreq as (tok & before & Hsent). eauto.
Qed.

(** C5. For every update event (an object whose [name] can be printed),
    the status is decided by priority: a
    truthy [cancelled_at] gives CANCELLED whatever the other flags,
    otherwise [fulfillment_status === 'fulfilled'] gives DELIVERED,
    otherwise ['partial'] gives PARTIALLY_DELIVERED, otherwise
    [financial_status === 'paid'] gives PAID; when none applies,
    [handleOrderUpdate] returns
    [{success: true, orderId, status: 'NO_UPDATE_NEEDED'}] and the world,
    with its list of posted requests, is unchanged.  When one applies,
    [handleOrderUpdate] calls [setOrderStatus] with the order's [name],
    the date of its [created_at] and that status, and with nothing
    else: a returning call has posted, as the last request, a
    [SetOrderStatus] update whose [OrderStatus] is the status decided,
    and the handler returns the call's [success] and [error] with that
    [status]; when the date cannot be had or the call throws, the
    handler returns [{success: false, orderId, error}]. *)
Theorem status_resolution_priority h order w :
  nullish order = false ->
  stringifiable (prop order "name") = true ->
  let cancelled := truthy (prop order "cancelled_at") in
  let fulfilled := is_str "fulfilled" (prop order "fulfillment_status") in
  let partial := is_str "partial" (prop order "fulfillment_status") in
  let paid := is_str "paid" (prop order "financial_status") in
  let status := if cancelled then JStr "CANCELLED"
                else if fulfilled then JStr "DELIVERED"
                else if partial then JStr "PARTIALLY_DELIVERED"
                else if paid then JStr "PAID"
                else JNull in
  WebhookHandlers.resolve_status order = Ret status /\
  (cancelled = true ->
   WebhookHandlers.resolve_status order = Ret (JStr "CANCELLED")) /\
  (cancelled = false -> fulfilled = false -> partial = false -> paid = false ->
   WebhookHandlers.handleOrderUpdate h order w
     = (Ret (JObj [ ("success", JBool true);
                    ("orderId", prop order "id");
                    ("status", JStr "NO_UPDATE_NEEDED") ]), w)) /\
  (status <> JNull ->
   match status_date h order with
   | Throw e =>
       WebhookHandlers.handleOrderUpdate h order w
       = (Ret (failure_outcome order e), w)
   | Ret date =>
       match OrderService.setOrderStatus h (prop order "name") (JStr date)
               status w with
       | (Throw e, w') =>
           WebhookHandlers.handleOrderUpdate h order w
           = (Ret (failure_outcome order e), w')
       | (Ret result, w') =>
           WebhookHandlers.handleOrderUpdate h order w
           = (Ret (JObj [ ("success", prop result "success");
                          ("orderId", prop order "id");
                          ("status", status);
                          ("error", prop result "error") ]), w') /\
           exists tok before,
             sent w' = (before ++ [status_request h order date status tok])%list
       end
   end).
Proof.
  intros Hn Hname cancelled fulfilled partial paid status.
  apply ToString_returns in Hname as (label & Hlabel).
  assert (Hres : WebhookHandlers.resolve_status order = Ret status).
  { unfold WebhookHandlers.resolve_status. rewrite !(get_ok _ _ Hn). simpl.
    subst status. fold cancelled fulfilled partial paid.
    destruct cancelled, fulfilled, partial, paid; reflexivity. }
  split; [exact Hres|split; [|split]].
  - intros Hc. rewrite Hres. subst status. rewrite Hc. reflexivity.
  - intros Hc Hf Hp Hpaid.
    unfold WebhookHandlers.handleOrderUpdate, bind, try_catch, liftR.
    rewrite Hres. subst status.
    rewrite Hc, Hf, Hp, Hpaid, !(get_ok _ _ Hn). cbn [bindR].
    rewrite Hlabel. reflexivity.
  - intros Hstatus.
    assert (Htruthy : truthy status = true).
    { subst status.
      destruct cancelled, fulfilled, partial, paid; try reflexivity.
      now contradiction Hstatus. }
    clearbody status.
    unfold WebhookHandlers.handleOrderUpdate, bind, try_catch, liftR.
    rewrite Hres, Htruthy, !(get_ok _ _ Hn). cbn [bindR]. rewrite Hlabel.
    unfold status_date, failure_outcome.
    destruct (Date_new h (prop order "created_at")) as [d|e]; cbn [bindR].
    2:{ unfold object, str. cbn [fieldsR bindR].
        now rewrite ?(get_ok _ _ Hn). }
    destruct (toISOString d) as [iso|e]; cbn [bindR].
    2:{ unfold object, str. cbn [fieldsR bindR].
        now rewrite ?(get_ok _ _ Hn). }
    destruct (OrderService.setOrderStatus h (prop order "name")
                (JStr (slice 0 10 iso)) status w) as [[result|e] w'] eqn:Hset.
    2:{ unfold object, str. cbn [fieldsR bindR].
        now rewrite ?(get_ok _ _ Hn). }
    apply setOrderStatus_sent in Hset as (Hresult & tok & before & Hsent).
    split.
    + unfold object. cbn [fieldsR].
      repeat (rewrite (get_ok _ _ Hresult); cbn [bindR]). reflexivity.
    + exists tok, before. exact Hsent.
Qed.

Lemma status_resolution_priority_witness :
  WebhookHandlers.resolve_status cancelled_order = Ret (JStr "CANCELLED") /\
  WebhookHandlers.handleOrderUpdate utc_host pending_order rejecting_world
    = (Ret (JObj [ ("success", JBool true);
                   ("orderId", num 5002);
                   ("status", JStr "NO_UPDATE_NEEDED") ]), rejecting_world) /\
  exists w' tok before,
    WebhookHandlers.handleOrderUpdate utc_host cancelled_order issuing_world
    = (Ret (JObj [ ("success", JBool true);
                   ("orderId", num 5001);
                   ("status", JStr "CANCELLED");
                   ("error", JUndefined) ]), w') /\
    sent w' = (before ++ [status_request utc_host cancelled_order "2024-01-15"
                            (JStr "CANCELLED") tok])%list.
Proof.
  split; [|split].
  - apply (proj1 (proj2 (status_resolution_priority utc_host cancelled_order
                           stale_world eq_refl eq_refl))).
    reflexivity.
  - apply (proj1 (proj2 (proj2 (status_resolution_priority utc_host pending_order
                                  rejecting_world eq_refl eq_refl))));
      reflexivity.
  - pose proof (proj2 (proj2 (proj2 (status_resolution_priority utc_host
                                       cancelled_order issuing_world
                                       eq_refl eq_refl)))) as H.
    cbv zeta in H.
    change (status_date utc_host cancelled_order) with (@Ret string "2024-01-15") in H.
    change (if truthy (prop cancelled_order "cancelled_at")
            then JStr "CANCELLED" else _) with (JStr "CANCELLED") in H.
    specialize (H ltac:(discriminate)). cbv iota beta in H.
    destruct (OrderService.setOrderStatus utc_host (prop cancelled_order "name")
                (JStr "2024-01-15") (JStr "CANCELLED") issuing_world)
      as [[result|e] w'] eqn:Hset; [|vm_compute in Hset; discriminate Hset].
    destruct H as (Hrun & tok & before & Hsent).
    exists w', tok, before. split; [|exact Hsent].
    rewrite Hrun. vm_compute in Hset. now injection Hset as <- _.
Defined.

(** ** Worked examples *)

Example payment_modes :
  OrderService.mapPaymentGateway (JStr "razorpay") = Ret (JStr "OnlinePayment") /\
  OrderService.mapPaymentGateway (JStr "COD") = Ret (JStr "Cash") /\
  OrderService.mapPaymentGateway (JStr "unknown_gateway_xyz")
    = Ret (JStr "OnlinePayment") /\
  OrderService.mapPaymentGateway JUndefined = Ret (JStr "OnlinePayment").
Proof. repeat split. Qed.

Example state_codes :
  OrderService.getStateGSTCode (JStr "Delhi") = Ret (JStr "07") /\
  OrderService.getStateGSTCode (JStr "delhi") = Ret (JStr "07") /\
  OrderService.getStateGSTCode (JStr "Atlantis") = Ret (JStr "").
Proof. repeat split. Qed.

Example sample_order_header :
  exists r,
    OrderService.transformShopifyOrder utc_host sample_order = Ret r /\
    prop (prop (prop r "Order") "Header") "OrderDate" = JStr "20240116" /\
    prop (prop (prop r "Order") "Header") "TotalOrderValue"
      = JNum (Dec 124950 (-2)) /\
    ToString (prop (prop (prop r "Order") "Header") "TotalOrderValue")
      = Ret "1249.5".
Proof. eexists. vm_compute. repeat split. Qed.

(** * Further properties of the services *)

(** ** The token manager *)

Lemma getToken_truthy h w tok w' :
  TokenManager.getToken h w = (Ret tok, w') -> truthy tok = true.
Proof.
  rewrite getToken_run.
  destruct (fst (TokenManager.isTokenValid h w)) as [[|]|e] eqn:Hv.
  - intros H. inversion H; subst.
    rewrite isTokenValid_run in Hv. simpl in Hv. inversion Hv as [Hb].
    now destruct (truthy (token w')).
  - rewrite generateToken_run.
    destruct (network w (sent w) (token_request h)) as [[data|msg] elapsed];
      [|discriminate].
    destruct (TokenManager.accessToken_of data) as [t|e]; [|discriminate].
    destruct (truthy t) eqn:Ht; [|discriminate].
    intros H; inversion H; subst; exact Ht.
  - rewrite generateToken_run.
    destruct (network w (sent w) (token_request h)) as [[data|msg] elapsed];
      [|discriminate].
    destruct (TokenManager.accessToken_of data) as [t|e']; [|discriminate].
    destruct (truthy t) eqn:Ht; [|discriminate].
    intros H; inversion H; subst; exact Ht.
Qed.

Lemma generateToken_Ret h w tok w' :
  TokenManager.generateToken h w = (Ret tok, w') ->
  truthy tok = true /\
  token w' = tok /\
  tokenExpiry w' = Some (now w' + tokenLifetimeMs h) /\
  sent w' = (sent w ++ [token_request h])%list.
Proof.
  rewrite generateToken_run.
  destruct (network w (sent w) (token_request h)) as [[data|msg] elapsed];
    [|discriminate].
  destruct (TokenManager.accessToken_of data) as [t|e]; [|discriminate].
  destruct (truthy t) eqn:Ht; [|discriminate].
  intros H; inversion H; subst. simpl. auto.
Qed.

(** A token that was just stored passes the validity check. *)
Lemma generated_token_valid h w tok w' :
  TokenManager.generateToken h w = (Ret tok, w') ->
  0 <= now w' ->
  TokenManager.isTokenValid h w' = (Ret true, w').
Proof.
  intros H Hclock.
  apply generateToken_Ret in H as (Htruthy & Htok & Hexp & _).
  rewrite isTokenValid_run, Htok, Hexp, Htruthy.
  rewrite tokenLifetimeMs_eq, refreshBufferMs_eq. cbn [andb].
  replace (now w' + 1800000 =? 0) with false by (symmetry; apply Z.eqb_neq; lia).
  cbn [negb andb]. do 2 f_equal. apply Z.ltb_lt. lia.
Qed.

(** X1. A token that [generateToken] has just stored (the clock not set
    before 1970) is valid at once and for exactly 25 minutes: in any
    world with that cache [isTokenValid] answers whether fewer than
    1 500 000 ms have passed since the token was stored. *)
Theorem fresh_token_valid_25_minutes h w tok w' :
  TokenManager.generateToken h w = (Ret tok, w') ->
  0 <= now w' ->
  forall w'',
    token w'' = token w' -> tokenExpiry w'' = tokenExpiry w' ->
    TokenManager.isTokenValid h w'' = (Ret (now w'' <? now w' + 1500000), w'').
Proof.
  intros H Hclock w'' Ht He.
  apply generateToken_Ret in H as (Htruthy & Htok & Hexp & _).
  rewrite isTokenValid_run, Ht, He, Htok, Hexp, Htruthy.
  rewrite tokenLifetimeMs_eq, refreshBufferMs_eq. cbn [andb].
  replace (now w' + 1800000 =? 0) with false by (symmetry; apply Z.eqb_neq; lia).
  cbn [negb andb]. do 2 f_equal.
  destruct (now w'' <? now w' + 1800000 - 300000) eqn:Ha;
    destruct (now w'' <? now w' + 1500000) eqn:Hb; try reflexivity;
    rewrite ?Z.ltb_lt, ?Z.ltb_ge in *; lia.
Qed.

Lemma fresh_token_valid_25_minutes_witness :
  exists w',
    TokenManager.generateToken utc_host issuing_world = (Ret (JStr "tok-2"), w') /\
    TokenManager.isTokenValid utc_host w' = (Ret true, w').
Proof.
  destruct (TokenManager.generateToken utc_host issuing_world)
    as [r w'] eqn:Hrun.
  assert (Hr : r = Ret (JStr "tok-2")) by (vm_compute in Hrun; now inversion Hrun).
  subst r. exists w'. split; [reflexivity|].
  assert (Hnow : now w' = 1700000000040)
    by (vm_compute in Hrun; now inversion Hrun).
  rewrite (fresh_token_valid_25_minutes utc_host issuing_world (JStr "tok-2") w'
             Hrun ltac:(rewrite Hnow; lia) w' eq_refl eq_refl).
  rewrite Hnow. reflexivity.
Defined.

(** X2. Two calls of [getToken] in a row (the clock not set before
    1970): when the first returns a token, the second returns the same
    token and leaves the world as it is, so it posts no request. *)
Theorem getToken_twice_one_acquisition h w tok w1 :
  TokenManager.getToken h w = (Ret tok, w1) ->
  0 <= now w1 ->
  TokenManager.getToken h w1 = (Ret tok, w1).
Proof.
  intros H Hclock. rewrite (getToken_run h w1).
  rewrite getToken_run in H.
  destruct (fst (TokenManager.isTokenValid h w)) as [[|]|e] eqn:Hv.
  - inversion H; subst. rewrite Hv. reflexivity.
  - pose proof (generateToken_Ret _ _ _ _ H) as (_ & Htok & _).
    rewrite (generated_token_valid h w tok w1 H Hclock).
    cbn [fst]. now rewrite Htok.
  - pose proof (generateToken_Ret _ _ _ _ H) as (_ & Htok & _).
    rewrite (generated_token_valid h w tok w1 H Hclock).
    cbn [fst]. now rewrite Htok.
Qed.

Lemma getToken_twice_one_acquisition_witness :
  exists w1,
    TokenManager.getToken utc_host issuing_world = (Ret (JStr "tok-2"), w1) /\
    TokenManager.getToken utc_host w1 = (Ret (JStr "tok-2"), w1) /\
    sent w1 = [token_request utc_host].
Proof.
  destruct (TokenManager.getToken utc_host issuing_world) as [r w1] eqn:Hrun.
  assert (Hr : r = Ret (JStr "tok-2")) by (vm_compute in Hrun; now inversion Hrun).
  subst r. exists w1.
  assert (Hnow : now w1 = 1700000000040)
    by (vm_compute in Hrun; now inversion Hrun).
  split; [reflexivity|split].
  - apply (getToken_twice_one_acquisition utc_host issuing_world _ _ Hrun).
    rewrite Hnow. lia.
  - vm_compute in Hrun. now inversion Hrun.
Defined.

(** X3. [clearToken] empties the cache whatever it held and posts
    nothing; right after it [isTokenValid] is false and [getToken] is a
    fresh acquisition; clearing twice is clearing once. *)
Theorem clearToken_forces_acquisition h w :
  let w' := snd (TokenManager.clearToken w) in
  TokenManager.clearToken w = (Ret tt, w') /\
  cache_empty w' /\
  sent w' = sent w /\ now w' = now w /\
  TokenManager.isTokenValid h w' = (Ret false, w') /\
  TokenManager.getToken h w' = TokenManager.generateToken h w' /\
  TokenManager.clearToken w' = (Ret tt, w').
Proof.
  unfold cache_empty. repeat split.
Qed.

(** X4. [refreshToken] posts exactly one token request whatever the
    cache holds, a valid token included, and whatever comes back; when it
    returns a token, that token and a new expiry replace the cache. *)
Theorem refreshToken_always_posts h w :
  let '(r, w') := TokenManager.refreshToken h w in
  sent w' = (sent w ++ [token_request h])%list /\
  match r with
  | Ret tok => token w' = tok /\ tokenExpiry w' = Some (now w' + tokenLifetimeMs h)
  | Throw _ => token w' = token w /\ tokenExpiry w' = tokenExpiry w
  end.
Proof.
  unfold TokenManager.refreshToken.
  destruct (TokenManager.generateToken h w) as [[tok|e] w'] eqn:H.
  - apply generateToken_Ret in H as (_ & Ht & He & Hs). auto.
  - apply generateToken_throw in H as (elapsed & -> & _). simpl. auto.
Qed.

Lemma prefix_append p s : prefix p (p ++ s) = true.
Proof.
  induction p as [|c p IH]; simpl; [now destruct s|].
  destruct (ascii_dec c c) as [_|Hne]; [exact IH|congruence].
Qed.

Lemma prefix_head_differs c p d s :
  Ascii.eqb d c = false -> prefix (String c p) (String d s) = false.
Proof.
  intros H. simpl. destruct (ascii_dec c d) as [->|_]; [|reflexivity].
  now rewrite Ascii.eqb_refl in H.
Qed.

Lemma prefix_head_same c p s :
  prefix (String c p) (String c s) = prefix p s.
Proof. simpl. destruct (ascii_dec c c) as [_|Hne]; [reflexivity|congruence]. Qed.

Lemma lazy_capture_closed tok rest :
  tagless tok = true -> one_line tok = true ->
  lazy_capture (tok ++ "</Access_Token>" ++ rest) = Some tok.
Proof.
  unfold tagless, one_line.
  induction tok as [|c tok IH]; intros Htag Hline.
  - cbn [append]. unfold lazy_capture.
    destruct rest; reflexivity.
  - cbn [list_ascii_of_string forallb] in Htag, Hline.
    apply andb_prop in Htag as [Hc Htag]. apply andb_prop in Hline as [Hl Hline].
    apply negb_true_iff in Hc, Hl.
    change ((String c tok ++ "</Access_Token>" ++ rest)%string)
      with (String c (tok ++ "</Access_Token>" ++ rest)%string).
    cbn [lazy_capture].
    rewrite (prefix_head_differs "<" "/Access_Token>" c _ Hc), Hl.
    now rewrite (IH Htag Hline).
Qed.

Lemma match_Access_Token_step s :
  match_Access_Token s =
  match (if prefix "<Access_Token>" s then lazy_capture (drop 14 s) else None) with
  | Some g => Some g
  | None => match s with
            | EmptyString => None
            | String _ r => match_Access_Token r
            end
  end.
Proof. destruct s; reflexivity. Qed.

Lemma match_Access_Token_wrapped pre tok post :
  opens_no_A_tag pre = true -> tagless tok = true -> one_line tok = true ->
  match_Access_Token
    (pre ++ "<Access_Token>" ++ tok ++ "</Access_Token>" ++ post)
  = Some tok.
Proof.
  intros Hpre Htok Hline.
  induction pre as [|c pre IH].
  - change (("" ++ "<Access_Token>" ++ tok ++ "</Access_Token>" ++ post)%string)
      with (("<Access_Token>" ++ (tok ++ "</Access_Token>" ++ post))%string).
    rewrite match_Access_Token_step, prefix_append.
    change (drop 14 ("<Access_Token>" ++ (tok ++ "</Access_Token>" ++ post)))
      with ((tok ++ "</Access_Token>" ++ post)%string).
    now rewrite lazy_capture_closed.
  - cbn [opens_no_A_tag] in Hpre. apply andb_prop in Hpre as [Hc Hpre].
    change ((String c pre ++ "<Access_Token>" ++ tok ++ "</Access_Token>" ++ post)%string)
      with (String c (pre ++ "<Access_Token>" ++ tok ++ "</Access_Token>" ++ post)%string).
    rewrite match_Access_Token_step.
    assert (Hhere : prefix "<Access_Token>"
              (String c (pre ++ "<Access_Token>" ++ tok
                             ++ "</Access_Token>" ++ post)) = false).
    { destruct (Ascii.eqb c "<") eqn:Hlt.
      - apply Ascii.eqb_eq in Hlt. subst c.
        destruct pre as [|d pre']; [discriminate Hc|].
        apply negb_true_iff in Hc.
        change ((String d pre' ++ "<Access_Token>" ++ tok ++ "</Access_Token>" ++ post)%string)
          with (String d (pre' ++ "<Access_Token>" ++ tok ++ "</Access_Token>" ++ post)%string).
        change "<Access_Token>" with (String "<" "Access_Token>").
        rewrite prefix_head_same. now apply prefix_head_differs.
      - now apply prefix_head_differs. }
    rewrite Hhere. now apply IH.
Qed.

(** X5. Wrapping and extracting a token: when the issuance answers with
    text that holds [<Access_Token>tok</Access_Token>], no tag with a
    name in [A] opening before it, [tok] on one line and without ["<"],
    then [generateToken]
    stores and returns exactly [tok] if [tok] is not empty, and throws,
    the cache untouched, if it is. *)
Theorem xml_token_extracted h w pre tok post elapsed :
  opens_no_A_tag pre = true -> tagless tok = true -> one_line tok = true ->
  network w (sent w) (token_request h)
    = (Response (JStr (pre ++ "<Access_Token>" ++ tok
                           ++ "</Access_Token>" ++ post)), elapsed) ->
  TokenManager.accessToken_of
    (JStr (pre ++ "<Access_Token>" ++ tok ++ "</Access_Token>" ++ post))
    = Ret (JStr tok) /\
  (tok <> ""%string ->
   exists w', TokenManager.generateToken h w = (Ret (JStr tok), w') /\
              token w' = JStr tok) /\
  (tok = ""%string ->
   exists w', TokenManager.generateToken h w
                = (Throw (Error "Failed to extract token from response"), w') /\
              token w' = token w /\ tokenExpiry w' = tokenExpiry w).
Proof.
  intros Hpre Htok Hline Hnet.
  assert (Hacc : TokenManager.accessToken_of
            (JStr (pre ++ "<Access_Token>" ++ tok ++ "</Access_Token>" ++ post))
            = Ret (JStr tok)).
  { cbn [TokenManager.accessToken_of].
    now rewrite match_Access_Token_wrapped. }
  split; [exact Hacc|split]; intros Hempty;
    rewrite generateToken_run, Hnet, Hacc; cbn [truthy].
  - destruct (String.eqb_spec tok "") as [->|_]; [congruence|].
    cbn [negb]. eexists; split; reflexivity.
  - subst tok. cbn. eexists; split; [reflexivity|split; reflexivity].
Qed.

Lemma xml_token_extracted_witness :
  exists w',
    TokenManager.generateToken utc_host xml_issuing_world
      = (Ret (JStr "tok-3"), w') /\
    token w' = JStr "tok-3".
Proof.
  apply (proj1 (proj2 (xml_token_extracted utc_host xml_issuing_world
                         "<Response><Result>SUCCESS</Result>" "tok-3"
                         "</Response>" 25 eq_refl eq_refl eq_refl eq_refl))).
  discriminate.
Defined.

(** ** The request path *)

Lemma generateToken_sent h w :
  sent (snd (TokenManager.generateToken h w)) = (sent w ++ [token_request h])%list.
Proof.
  destruct (TokenManager.generateToken h w) as [[tok|e] w'] eqn:H; cbn [snd].
  - now apply generateToken_Ret in H as (_ & _ & _ & Hs).
  - now apply generateToken_throw in H as (elapsed & -> & _).
Qed.

Lemma getToken_posts h w :
  exists posted,
    sent (snd (TokenManager.getToken h w)) = (sent w ++ posted)%list /\
    (posted = [] \/ posted = [token_request h]).
Proof.
  rewrite getToken_run.
  destruct (fst (TokenManager.isTokenValid h w)) as [[|]|e];
    try (exists []; split; [now rewrite app_nil_r|now left]);
    (exists [token_request h]; split; [apply generateToken_sent|now right]).
Qed.

(** X6. One call of [makeRequest] never posts more than two requests: at
    most one token request, then the data request once, carrying the
    token as [AUTHORIZATION]; whatever the transport answers is handed
    back as it is, a rejection thrown without a second attempt; and when
    no token can be had the data request is not posted at all.  The
    three services share this path. *)
Theorem makeRequest_posts_at_most_twice h method data w :
  let '(r, w') := OrderService.makeRequest h method data w in
  match TokenManager.getToken h w with
  | (Throw e, w1) => r = Throw e /\ w' = w1
  | (Ret tok, w1) =>
      let req := process_request h method tok data in
      sent w' = (sent w1 ++ [req])%list /\
      r = match fst (network w1 (sent w1) req) with
          | Response d => Ret d
          | Failure msg => Throw (Error msg)
          end
  end /\
  (exists posted, sent w' = (sent w ++ posted)%list /\
                  (List.length posted <= 2)%nat) /\
  CustomerService.makeRequest h method data w = (r, w') /\
  InventoryService.makeRequest h method data w = (r, w').
Proof.
  destruct (OrderService.makeRequest h method data w) as [r w'] eqn:Hrun.
  assert (Hsame : CustomerService.makeRequest h method data w = (r, w') /\
                  InventoryService.makeRequest h method data w = (r, w')).
  { split; exact Hrun. }
  destruct (getToken_posts h w) as (posted & Hposted & Hlen).
  unfold OrderService.makeRequest, bind, try_catch, throw, axios_post in Hrun.
  destruct (TokenManager.getToken h w) as [[tok|e] w1]; cbn [snd] in Hposted.
  - fold (process_request h method tok data) in Hrun. cbv zeta.
    destruct (network w1 (sent w1) (process_request h method tok data))
      as [[d|msg] elapsed]; inversion Hrun; subst; cbn [sent fst];
      (split; [split; reflexivity|split; [|exact Hsame]]);
      exists (posted ++ [process_request h method tok data])%list;
      (split; [now rewrite Hposted, <- app_assoc|]);
      destruct Hlen as [-> | ->]; simpl; lia.
  - inversion Hrun; subst.
    split; [split; reflexivity|split; [|exact Hsame]].
    exists posted. split; [exact Hposted|].
    destruct Hlen as [-> | ->]; simpl; lia.
Qed.

(** ** index.js *)

(** X7. [testConnection] never throws: it returns success exactly when
    [getToken] returns, and otherwise the error's message; as a token
    that [getToken] returns is always truthy, the outcome
    ["Failed to obtain token"] is never produced.  Nothing is posted
    beyond what [getToken] posts. *)
Theorem testConnection_outcome h w :
  let serverUrl := JStr (Config.serverUrl (Config.eshopaid h)) in
  Index.testConnection h w =
  match TokenManager.getToken h w with
  | (Ret tok, w1) =>
      (Ret (JObj [ ("success", JBool true);
                   ("message", JStr "Connected to eShopaid API successfully");
                   ("serverUrl", serverUrl) ]), w1)
  | (Throw e, w1) =>
      (Ret (JObj [ ("success", JBool false);
                   ("message", JStr (message e));
                   ("serverUrl", serverUrl) ]), w1)
  end.
Proof.
  unfold Index.testConnection, try_catch, bind, ret.
  destruct (TokenManager.getToken h w) as [[tok|e] w1] eqn:Hget; [|reflexivity].
  now rewrite (getToken_truthy _ _ _ _ Hget).
Qed.

(** ** config.js and the schedule of server.js *)


(** ** The lookup tables of the order service *)

Lemma lower_char_idem c : lower_char (lower_char c) = lower_char c.
Proof. destruct c as [[] [] [] [] [] [] [] []]; reflexivity. Qed.

Lemma toLowerCase_idem s : toLowerCase (toLowerCase s) = toLowerCase s.
Proof.
  induction s as [|c s IH]; simpl; [reflexivity|].
  now rewrite lower_char_idem, IH.
Qed.

Lemma lookup_table k (table : list (string * string)) x :
  lookup k (map (fun p => (fst p, JStr (snd p))) table) = Some x ->
  exists s, In s (map snd table) /\ x = JStr s.
Proof.
  induction table as [|[k' s'] table IH]; simpl; [discriminate|].
  destruct (k' =? k)%string.
  - intros H. inversion H. eauto.
  - intros H. destruct (IH H) as (s & Hin & ->). eauto.
Qed.

(** What [table[key] || dflt] can be: an entry of the table, the default,
    or a member that the object literal inherits. *)
Lemma table_lookup_range table key dflt v :
  table_lookup table key dflt = Ret v ->
  (exists s, In s (map snd table) /\ v = JStr s) \/
  v = JStr dflt \/
  (exists k, ToString key = Ret k /\ inherited k = true /\ v = JBuiltin k).
Proof.
  unfold table_lookup. destruct (ToString key) as [k|e]; [|discriminate].
  cbn [bindR prop].
  destruct (lookup k _) as [x|] eqn:Hx.
  - apply lookup_table in Hx as (s & Hin & ->).
    destruct (truthy (JStr s)); intros H; inversion H; eauto.
  - destruct (inherited k) eqn:Hk; simpl; intros H; inversion H; eauto 6.
Qed.

(** X9. [mapPaymentGateway] throws exactly on a gateway that is neither
    a string nor absent; otherwise it compares the name without regard
    to case and returns one of the four payment modes, except when the
    lower-cased name is a member inherited from [Object.prototype]
    (["constructor"], ["__proto__"]): then that member itself, not a
    string, is returned. *)
Theorem mapPaymentGateway_range g :
  match OrderService.mapPaymentGateway g with
  | Ret v =>
      string_or_absent g = true /\
      (In v [JStr "CreditCard"; JStr "PayPal"; JStr "OnlinePayment"; JStr "Cash"] \/
       exists s, g = JStr s /\ inherited (toLowerCase s) = true /\
                 v = JBuiltin (toLowerCase s))
  | Throw e =>
      string_or_absent g = false /\
      e = TypeError "gateway?.toLowerCase is not a function"
  end /\
  forall s, OrderService.mapPaymentGateway (JStr (toLowerCase s))
            = OrderService.mapPaymentGateway (JStr s).
Proof.
  split.
  - destruct g; try (split; reflexivity).
    + split; [reflexivity|left; simpl; auto].
    + split; [reflexivity|left; simpl; auto].
    + unfold OrderService.mapPaymentGateway. cbn [toLowerCaseOpt bindR].
      destruct (table_lookup _ _ _) as [v|e] eqn:H.
      * split; [reflexivity|].
        apply table_lookup_range in H as [(x & Hin & ->)|[->|(k & Hk & Hi & ->)]].
        -- left. simpl in Hin. simpl. intuition (subst; auto).
        -- left. simpl. auto.
        -- right. simpl in Hk. inversion Hk; subst. eauto.
      * discriminate H.
  - intros s. unfold OrderService.mapPaymentGateway. cbn [toLowerCaseOpt].
    now rewrite toLowerCase_idem.
Qed.

(** X10. [getStateGSTCode] throws exactly on a state name that is
    neither a string nor absent; otherwise it compares the name without
    regard to case and returns a two-digit code of the table or the
    empty string, except when the lower-cased name is a member inherited
    from [Object.prototype]: then that member itself is returned. *)
Theorem getStateGSTCode_range stateName :
  match OrderService.getStateGSTCode stateName with
  | Ret v =>
      string_or_absent stateName = true /\
      ((exists code, v = JStr code /\
                     (code = "" \/ (String.length code = 2%nat /\
                                    In code (map snd OrderService.gstCodes)))) \/
       exists s, stateName = JStr s /\ inherited (toLowerCase s) = true /\
                 v = JBuiltin (toLowerCase s))
  | Throw e =>
      string_or_absent stateName = false /\
      e = TypeError "stateName?.toLowerCase is not a function"
  end /\
  forall s, OrderService.getStateGSTCode (JStr (toLowerCase s))
            = OrderService.getStateGSTCode (JStr s).
Proof.
  assert (Hcodes : forall code, In code (map snd OrderService.gstCodes) ->
                                String.length code = 2%nat).
  { intros code Hin. simpl in Hin.
    repeat (destruct Hin as [<-|Hin]; [reflexivity|]). destruct Hin. }
  split.
  - destruct stateName; try (split; reflexivity).
    + split; [reflexivity|left; exists ""; auto].
    + split; [reflexivity|left; exists ""; auto].
    + unfold OrderService.getStateGSTCode. cbn [toLowerCaseOpt bindR].
      destruct (table_lookup _ _ _) as [v|e] eqn:H.
      * split; [reflexivity|].
        apply table_lookup_range in H as [(x & Hin & ->)|[->|(k & Hk & Hi & ->)]].
        -- left. exists x. split; [reflexivity|right; auto].
        -- left. exists "". auto.
        -- right. simpl in Hk. inversion Hk; subst. eauto.
      * discriminate H.
  - intros s. unfold OrderService.getStateGSTCode. cbn [toLowerCaseOpt].
    now rewrite toLowerCase_idem.
Qed.

Example inherited_payment_mode :
  OrderService.mapPaymentGateway (JStr "Constructor") = Ret (JBuiltin "constructor") /\
  OrderService.getStateGSTCode (JStr "__proto__") = Ret (JBuiltin "__proto__").
Proof. split; reflexivity. Qed.

(** ** The transformed order *)


(** *** Sums of prices

    What holds of a sum whether it is taken exactly or rounded to
    binary64 as the engine does: adding numbers none of which is
    positive gives no positive number, [NaN] stays [NaN], and adding
    numbers that are zero or more, one of them positive, gives a positive
    number. *)

Lemma pow10_pos k : 0 <= k -> 0 < 10 ^ k.
Proof. intros Hk. apply Z.pow_pos_nonneg; lia. Qed.

Lemma num_add_not_positive a b :
  num_gt0 a = false -> num_gt0 b = false -> num_gt0 (num_add a b) = false.
Proof.
  destruct a as [|x|m1 e1], b as [|y|m2 e2]; cbn [num_add num_gt0];
    try reflexivity; try (intros; assumption).
  - destruct x, y; simpl; intros; try reflexivity; try discriminate.
  - intros H1 H2. apply Z.ltb_ge in H1, H2. apply Z.ltb_ge.
    pose proof (pow10_pos (e1 - Z.min e1 e2) ltac:(lia)).
    pose proof (pow10_pos (e2 - Z.min e1 e2) ltac:(lia)).
    nia.
Qed.

Lemma num_add_NaN a b : a = NaN \/ b = NaN -> num_add a b = NaN.
Proof. intros [-> | ->]; [reflexivity|now destruct a]. Qed.

Lemma num_add_positive a b :
  num_ge0 a = true -> num_ge0 b = true ->
  num_ge0 (num_add a b) = true /\
  (num_gt0 a = true \/ num_gt0 b = true -> num_gt0 (num_add a b) = true).
Proof.
  destruct a as [|x|m1 e1], b as [|y|m2 e2]; cbn [num_add num_ge0 num_gt0];
    try discriminate.
  - destruct x, y; simpl; try discriminate. auto.
  - intros H _. split; [exact H|intros _; exact H].
  - intros _ H. split; [exact H|intros _; exact H].
  - intros H1 H2. apply Z.leb_le in H1, H2.
    pose proof (pow10_pos (e1 - Z.min e1 e2) ltac:(lia)) as Hp1.
    pose proof (pow10_pos (e2 - Z.min e1 e2) ltac:(lia)) as Hp2.
    split; [apply Z.leb_le; nia|].
    intros [H|H]; apply Z.ltb_lt in H; apply Z.ltb_lt; nia.
Qed.

Lemma sum_not_positive prices : forall acc,
  num_gt0 acc = false ->
  Forall (fun n => num_gt0 n = false) prices ->
  num_gt0 (fold_left num_add prices acc) = false.
Proof.
  induction prices as [|n prices IH]; intros acc Hacc HF; [exact Hacc|].
  inversion HF; subst. cbn [fold_left]. apply IH; [|assumption].
  now apply num_add_not_positive.
Qed.

Lemma sum_NaN prices : forall acc,
  acc = NaN \/ Exists (fun n => n = NaN) prices ->
  fold_left num_add prices acc = NaN.
Proof.
  induction prices as [|n prices IH]; intros acc [Hacc|Hex];
    cbn [fold_left]; try assumption.
  - inversion Hex.
  - apply IH. left. apply num_add_NaN. now left.
  - apply IH. inversion Hex; subst; [left; apply num_add_NaN; now right|now right].
Qed.

Lemma sum_positive prices : forall acc,
  num_ge0 acc = true ->
  Forall (fun n => num_ge0 n = true) prices ->
  num_gt0 acc = true \/ Exists (fun n => num_gt0 n = true) prices ->
  num_gt0 (fold_left num_add prices acc) = true.
Proof.
  induction prices as [|n prices IH]; intros acc Hacc HF Hpos; cbn [fold_left].
  - destruct Hpos as [H|H]; [exact H|inversion H].
  - inversion HF; subst.
    destruct (num_add_positive acc n Hacc) as [Hge Hgt]; [assumption|].
    apply IH; [exact Hge|assumption|].
    destruct Hpos as [H|H]; [left; auto|].
    inversion H; subst; [left; auto|now right].
Qed.

(** The shipping charge is the sum of the prices of the lines. *)
Lemma shipping_prices lines : forall acc sum,
  foldR OrderService.add_shipping_line acc lines = Ret sum ->
  exists prices,
    Forall2 (fun line n => line_price line = Ret n) lines prices /\
    sum = fold_left num_add prices acc.
Proof.
  induction lines as [|line lines IH]; intros acc sum H; cbn [foldR] in H.
  - injection H as <-. exists []. split; [constructor|reflexivity].
  - bind_inv H acc' Hline.
    unfold OrderService.add_shipping_line in Hline.
    bind_inv Hline p Hp. bind_inv Hline n Hn. injection Hline as <-.
    apply IH in H as (prices & Hprices & ->).
    exists (n :: prices). split; [|reflexivity].
    constructor; [|exact Hprices].
    unfold line_price. rewrite Hp. exact Hn.
Qed.

(** X12. [OtherCharges] of a transformed order is empty or holds exactly
    one charge, ["Shipping"], of a value above zero that refers to the
    title of the first shipping line or, when that has none, to
    ["Standard Shipping"].  It is empty for an order without
    [shipping_lines], when no line has a price above zero and when a
    price is [NaN]; it holds the charge when every price is zero or more
    and one is above zero. *)
Theorem transform_other_charges h order r :
  OrderService.transformShopifyOrder h order = Ret r ->
  let otherCharges := prop (prop r "Order") "OtherCharges" in
  match prop order "shipping_lines" with
  | JArr lines =>
      exists prices,
        Forall2 (fun line n => line_price line = Ret n) lines prices /\
        (otherCharges = JObj [] \/
         exists value,
           num_gt0 value = true /\
           let title := getOpt (hd JUndefined lines) "title" in
           otherCharges =
           JObj [ ("Charge",
                   JArr [ JObj [ ("ChargeDescription", JStr "Shipping");
                                 ("ChargeValue", JNum value);
                                 ("ChargeReference",
                                  if truthy title then title
                                  else JStr "Standard Shipping") ] ]) ]) /\
        (Forall (fun n => num_gt0 n = false) prices -> otherCharges = JObj []) /\
        (Exists (fun n => n = NaN) prices -> otherCharges = JObj []) /\
        (Forall (fun n => num_ge0 n = true) prices ->
         Exists (fun n => num_gt0 n = true) prices ->
         otherCharges <> JObj [])
  | lines => nullish lines = true /\ otherCharges = JObj []
  end.
Proof.
  intros H otherCharges. subst otherCharges. transform_inv H order.
  field_of H "Order" ord Eord. rewrite Eord. clear Eord.
  field_of H "OtherCharges" oc Eoc. rewrite Eoc. clear Eoc.
  injection H as <-.
  rewrite (get_ok _ _ Hn) in Hoc.
  unfold array_methodOpt in Hsc.
  destruct (prop order "shipping_lines") as [| |b|n|s|lines|fs|name];
    try discriminate Hsc;
    try (injection Hsc as <-; injection Hoc as <-; split; reflexivity).
  destruct (foldR OrderService.add_shipping_line (int 0) lines) as [sum|e] eqn:Hsum;
    [|discriminate Hsc].
  apply shipping_prices in Hsum as (prices & Hprices & Hsum).
  exists prices. split; [exact Hprices|].
  cbn [bindR] in Hsc. rewrite orR_Ret in Hsc. cbn [truthy] in Hsc.
  assert (Hgt : gt0 shippingCharge = num_gt0 sum /\
                (num_gt0 sum = true -> shippingCharge = JNum sum)).
  { clear Hsum. destruct sum as [|neg|m e]; cbn [num_truthy num_gt0] in *.
    - injection Hsc as <-. split; [reflexivity|discriminate].
    - injection Hsc as <-. split; [reflexivity|reflexivity].
    - destruct (Z.eqb_spec m 0) as [->|Hm]; cbn [negb] in Hsc;
        injection Hsc as <-; split; try reflexivity. discriminate. }
  destruct Hgt as [Hgt Hcharge]. rewrite Hgt in Hoc.
  assert (Hcases :
            (num_gt0 sum = false /\ otherCharges = JObj []) \/
            (num_gt0 sum = true /\
             otherCharges =
             JObj [ ("Charge",
                     JArr [ JObj [ ("ChargeDescription", JStr "Shipping");
                                   ("ChargeValue", JNum sum);
                                   ("ChargeReference",
                                    if truthy (getOpt (hd JUndefined lines) "title")
                                    then getOpt (hd JUndefined lines) "title"
                                    else JStr "Standard Shipping") ] ]) ])).
  { destruct (num_gt0 sum) eqn:Hpos; [right|left; now injection Hoc as <-].
    split; [reflexivity|].
    rewrite (Hcharge eq_refl) in Hoc.
    unfold object, str in Hoc. cbn [fieldsR bindR getOpt nullish] in Hoc.
    rewrite orR_Ret in Hoc.
    replace (prop (JArr lines) "0") with (hd JUndefined lines) in Hoc
      by (destruct lines; reflexivity).
    destruct (truthy (getOpt (hd JUndefined lines) "title"));
      cbn [bindR fieldsR] in Hoc; now injection Hoc as <-. }
  cbv zeta. split; [|split; [|split]].
  - destruct Hcases as [[_ ->]|[Hpos ->]]; [now left|right; eauto].
  - intros Hnone.
    assert (Hs : num_gt0 sum = false)
      by (rewrite Hsum; now apply sum_not_positive).
    destruct Hcases as [[_ H]|[Hpos _]]; [exact H|congruence].
  - intros Hnan.
    assert (Hs : sum = NaN) by (rewrite Hsum; apply sum_NaN; now right).
    destruct Hcases as [[_ H]|[Hpos _]]; [exact H|].
    rewrite Hs in Hpos. discriminate Hpos.
  - intros Hall Hsome.
    assert (Hs : num_gt0 sum = true)
      by (rewrite Hsum; apply sum_positive; [reflexivity|assumption|now right]).
    destruct Hcases as [[Hzero _]|[_ ->]]; [congruence|discriminate].
Qed.


Lemma transform_other_charges_witness :
  exists r value,
    OrderService.transformShopifyOrder utc_host interstate_order = Ret r /\
    num_gt0 value = true /\
    prop (prop r "Order") "OtherCharges" =
    JObj [ ("Charge",
            JArr [ JObj [ ("ChargeDescription", JStr "Shipping");
                          ("ChargeValue", JNum value);
                          ("ChargeReference", JStr "Standard Shipping") ] ]) ].
Proof.
  destruct (OrderService.transformShopifyOrder utc_host interstate_order)
    as [r|e] eqn:Hrun; [|discriminate Hrun].
  destruct (transform_other_charges utc_host interstate_order r Hrun)
    as (prices & Hprices & Hshape & _ & _ & Hcharge).
  inversion Hprices as [|line1 n1 lines1 prices1 H1 Hrest1]; subst.
  inversion Hrest1 as [|line2 n2 lines2 prices2 H2 Hrest2]; subst.
  inversion Hrest2; subst.
  vm_compute in H1. injection H1 as <-.
  vm_compute in H2. injection H2 as <-.
  destruct Hshape as [Hempty|(value & Hpos & Hvalue)].
  - exfalso. apply Hcharge; [| |exact Hempty].
    + repeat constructor.
    + now left.
  - exists r, value. split; [reflexivity|]. split; [exact Hpos|exact Hvalue].
Defined.

(** ** Inventory: from the response to the Shopify updates *)

Lemma parseFloat_or_0_number v x :
  parseFloat_or_0 v = Ret x -> is_number x = true.
Proof.
  unfold parseFloat_or_0. intros H. bind_inv H n Hn.
  destruct n as [|neg|m e]; injection H as <-; try reflexivity.
  cbn [num_truthy]. now destruct (negb (m =? 0)).
Qed.

(** What [normalizeItems] makes of one item record. *)
Lemma normalize_item_shape item i o :
  InventoryService.normalize_item item i = Ret o ->
  item_record o = true /\
  exists ean, ToString (prop item "EANCode") = Ret ean /\
              prop o "eanCode" = JStr ean /\
              prop o "itemCode" = prop item "ItemCode".
Proof.
  unfold InventoryService.normalize_item. intros H.
  assert (Hn : nullish item = false).
  { apply object_cons_inv in H as (v & _ & Hv & _). now apply get_Ret_inv in Hv. }
  assert (Ho : nullish o = false).
  { apply object_cons_inv in H as (v & vs & _ & _ & ->). reflexivity. }
  rewrite !(get_ok _ _ Hn) in H. cbn [bindR] in H.
  pose proof H as Hean. field_of Hean "eanCode" ean Eean.
  bind_inv Hean s Hs. injection Hean as <-.
  pose proof H as Hcode. field_of Hcode "itemCode" code Ecode.
  injection Hcode as <-.
  pose proof H as Hstock. field_of Hstock "stock" stock Estock.
  apply parseFloat_or_0_number in Hstock.
  pose proof H as Hprice. field_of Hprice "salesPrice" price Eprice.
  apply parseFloat_or_0_number in Hprice.
  field_of H "mrp" mrp Emrp. apply parseFloat_or_0_number in H.
  split; [|exists s; auto].
  unfold item_record. now rewrite Ho, Eean, Estock, Eprice, Emrp, Hstock, Hprice, H.
Qed.

Lemma Forall2_right {A B} (R : A -> B -> Prop) (P : B -> Prop) l out :
  (forall x y, R x y -> P y) -> Forall2 R l out -> Forall P out.
Proof. intros HR. induction 1; constructor; eauto. Qed.

Lemma normalizeItems_records v x :
  InventoryService.normalizeItems v = Ret x ->
  exists items, x = JArr items /\ forallb item_record items = true.
Proof.
  unfold InventoryService.normalizeItems.
  destruct (truthy v); cbn [negb]; intros H.
  - bind_inv H out Hout. injection H as <-. exists out. split; [reflexivity|].
    apply forallb_forall, Forall_forall.
    eapply Forall2_right;
      [|eapply (mapiR_Forall2_inv InventoryService.normalize_item
                  (fun _ o => item_record o = true)); [|exact Hout]].
    + intros x y Hy. exact Hy.
    + intros x i y Hy. now apply normalize_item_shape in Hy.
  - injection H as <-. exists []. split; reflexivity.
Qed.

Lemma normalize_location_record loc i o :
  InventoryService.normalize_location loc i = Ret o -> location_record o.
Proof.
  unfold InventoryService.normalize_location. intros H.
  apply object_cons_inv in H as (location & vs & Hloc & H & ->).
  apply object_cons_inv in H as (its & vs' & Hits & Hnil & Hvs).
  inversion Hnil; subst vs'. inversion Hvs; subst vs.
  bind_inv Hits fld Hfld.
  apply normalizeItems_records in Hits as (items & -> & Hitems).
  exists location, items. split; [reflexivity|exact Hitems].
Qed.

Lemma whole_sum a b : num_add (int a) (int b) = int (a + b).
Proof. unfold num_add, int. simpl. f_equal. lia. Qed.

Lemma floor_no_fraction n :
  is_number (JNum n) = true -> no_fraction (JNum (floor_num n)) = true.
Proof.
  destruct n as [|neg|m e]; [discriminate|reflexivity|]. intros _. simpl.
  destruct (Z.leb_spec 0 e) as [He|He]; simpl; [|reflexivity].
  now apply Z.leb_le.
Qed.

(** The update made of one normalised item. *)
Lemma shopify_update_record o :
  item_record o = true ->
  exists u, InventoryService.shopify_update o = Ret u /\
            inventory_update u /\
            prop u "sku" = (if truthy (prop o "eanCode") then prop o "eanCode"
                            else prop o "itemCode").
Proof.
  unfold item_record. intros H.
  repeat (apply andb_prop in H as [H ?]).
  apply negb_true_iff in H.
  unfold InventoryService.shopify_update, object. cbn [fieldsR].
  rewrite !(get_ok _ _ H), orR_Ret. cbn [bindR].
  destruct (prop o "stock") as [| |b|stock|s|l|fs|name]; try discriminate.
  cbn [Math_floor ToNumber ToNumber_primitive bindR].
  destruct (truthy (prop o "eanCode")); cbn [bindR];
    (eexists; split; [reflexivity|split; [|reflexivity]]);
    (do 4 eexists; split; [reflexivity|]);
    (split; [now apply floor_no_fraction|split; assumption]).
Qed.

Lemma push_items items :
  forallb item_record items = true ->
  forall updates, exists us,
    foldR (fun updates item =>
             let* u := InventoryService.shopify_update item in
             Ret (updates ++ [u])%list) updates items
    = Ret (updates ++ us)%list /\
    List.length us = List.length items /\ Forall inventory_update us.
Proof.
  induction items as [|item items IH]; intros Hrec updates; cbn [foldR].
  - exists []. rewrite app_nil_r. repeat split. constructor.
  - cbn [forallb] in Hrec. apply andb_prop in Hrec as [Hitem Hrec].
    destruct (shopify_update_record _ Hitem) as (u & -> & Hu & _). cbn [bindR].
    destruct (IH Hrec (updates ++ [u])%list) as (us & -> & Hlen & Hus).
    exists (u :: us). rewrite <- app_assoc. simpl.
    repeat split; [now rewrite Hlen|now constructor].
Qed.

(** [totalItems] counts the items of all locations, and the updates are
    as many. *)
Lemma add_item_count_sum out :
  Forall location_record out ->
  forall acc updates, exists us,
    foldR InventoryService.add_item_count (int acc) out
    = Ret (int (acc + Z.of_nat (List.length us))) /\
    foldR InventoryService.push_location updates out = Ret (updates ++ us)%list /\
    Forall inventory_update us.
Proof.
  induction 1 as [|loc out (location & items & -> & Hitems) _ IH];
    intros acc updates; cbn [foldR].
  - exists []. rewrite app_nil_r, Z.add_0_r. repeat split. constructor.
  - unfold InventoryService.add_item_count at 1.
    unfold InventoryService.push_location at 1.
    change (get (JObj [("location", location); ("items", JArr items)]) "items")
      with (Ret (JArr items)).
    cbn [bindR for_of]. change (get (JArr items) "length")
      with (Ret (num (Z.of_nat (List.length items)))).
    cbn [bindR ToNumber_primitive num]. rewrite whole_sum.
    destruct (push_items items Hitems updates) as (us & -> & Hlen & Hus).
    cbn [bindR].
    destruct (IH (acc + Z.of_nat (List.length items)) (updates ++ us)%list)
      as (us' & -> & -> & Hus').
    exists (us ++ us')%list. rewrite length_app, Nat2Z.inj_add, Hlen, app_assoc.
    repeat split; [f_equal; f_equal; lia|now apply Forall_app].
Qed.

Lemma locations_records v out :
  match v with
  | JArr l => mapiR InventoryService.normalize_location 0 l
  | _ => if truthy v
         then let* one := InventoryService.normalize_location v 0 in Ret [one]
         else Ret []
  end = Ret out ->
  Forall location_record out.
Proof.
  assert (Hone : forall x out',
            (let* one := InventoryService.normalize_location x 0 in Ret [one])
            = Ret out' -> Forall location_record out').
  { intros x out' H. bind_inv H o Ho. injection H as <-.
    repeat constructor. eapply normalize_location_record; eassumption. }
  assert (Hnone : forall out' : list JsVal,
            Ret [] = Ret out' -> Forall location_record out').
  { intros out' H; injection H as <-; constructor. }
  destruct v as [| |b|n|s|l|fs|name]; try (apply Hnone);
    try (destruct (truthy _); [apply Hone|apply Hnone]).
  intros H.
  eapply Forall2_right;
    [|eapply (mapiR_Forall2_inv InventoryService.normalize_location
                (fun _ o => location_record o)); [|exact H]].
  - intros x y Hy. exact Hy.
  - intros x i y. apply normalize_location_record.
Qed.

(** X13. Whatever [parseInventoryResponse] returns, on a success, a
    failure or a response without [Response], [formatForShopify] accepts
    it and never throws on it; it yields exactly [totalItems] updates,
    one per item of every location, each a record [{sku, quantity,
    price, compareAtPrice}] whose [quantity] is whole and whose prices
    are numbers, none of them [NaN]. *)
Theorem inventory_updates_cover_every_item response parsed :
  InventoryService.parseInventoryResponse response = Ret parsed ->
  exists updates,
    InventoryService.formatForShopify parsed = Ret (JArr updates) /\
    prop parsed "totalItems" = num (Z.of_nat (List.length updates)) /\
    Forall inventory_update updates.
Proof.
  unfold InventoryService.parseInventoryResponse. intros H.
  assert (Hempty : forall success error,
            exists updates,
              InventoryService.formatForShopify
                (JObj [ ("success", JBool success);
                        ("inventoryByLocation", JArr []);
                        ("totalItems", JNum (int 0));
                        ("error", error) ]) = Ret (JArr updates) /\
              JNum (int 0) = num (Z.of_nat (List.length updates)) /\
              Forall inventory_update updates).
  { intros success error. exists []. repeat split. constructor. }
  bind_inv H r Hr.
  destruct (truthy r); [|injection H as <-; apply Hempty].
  bind_inv H res Hres.
  destruct (is_str "SUCCESS" res).
  - bind_inv H data Hdata. bind_inv H out Hout. bind_inv H total Htotal.
    injection H as <-.
    apply locations_records in Hout.
    destruct (add_item_count_sum out Hout 0 []) as (us & Hcount & Hpush & Hus).
    rewrite Hcount in Htotal. injection Htotal as <-.
    exists us. split; [|split; [reflexivity|exact Hus]].
    unfold InventoryService.formatForShopify.
    change (get _ "inventoryByLocation") with (Ret (JArr out)).
    cbn [bindR for_of]. now rewrite Hpush.
  - bind_inv H err Herr. injection H as <-. apply Hempty.
Qed.

Lemma inventory_updates_cover_every_item_witness :
  exists parsed updates,
    InventoryService.parseInventoryResponse two_location_response = Ret parsed /\
    InventoryService.formatForShopify parsed = Ret (JArr updates) /\
    prop parsed "totalItems" = num 3 /\
    List.length updates = 3%nat.
Proof.
  destruct (InventoryService.parseInventoryResponse two_location_response)
    as [parsed|e] eqn:Hparse; [|discriminate Hparse].
  destruct (inventory_updates_cover_every_item two_location_response parsed Hparse)
    as (updates & Hrun & Htotal & _).
  exists parsed, updates.
  assert (Hthree : prop parsed "totalItems" = num 3).
  { vm_compute in Hparse. now injection Hparse as <-. }
  repeat split; try assumption.
  rewrite Hthree in Htotal. injection Htotal as Htotal. lia.
Defined.

(** X14. The [sku] of an update is the item's [EANCode] turned into a
    string, and the [ItemCode] only when that string is empty: an item
    with no [EANCode] at all gets the sku ["undefined"], whatever its
    [ItemCode]. *)
Theorem sku_falls_back_only_on_empty_ean item i o :
  InventoryService.normalize_item item i = Ret o ->
  exists ean u,
    ToString (prop item "EANCode") = Ret ean /\
    InventoryService.shopify_update o = Ret u /\
    prop u "sku" = (if (ean =? "")%string then prop item "ItemCode" else JStr ean) /\
    (prop item "EANCode" = JUndefined -> prop u "sku" = JStr "undefined").
Proof.
  intros H. apply normalize_item_shape in H as (Hrec & ean & Hean & Eean & Ecode).
  destruct (shopify_update_record o Hrec) as (u & Hu & _ & Hsku).
  rewrite Eean, Ecode in Hsku. cbn [truthy] in Hsku.
  exists ean, u. repeat split; try assumption.
  - rewrite Hsku. now destruct (ean =? "")%string.
  - intros Hnone. rewrite Hnone in Hean. injection Hean as <-. exact Hsku.
Qed.

Lemma sku_falls_back_only_on_empty_ean_witness :
  exists o u,
    InventoryService.normalize_item
      (JObj [ ("ItemCode", JStr "IC-7"); ("Stock", JStr "4.75") ]) 0 = Ret o /\
    InventoryService.shopify_update o = Ret u /\
    prop u "sku" = JStr "undefined".
Proof.
  destruct (InventoryService.normalize_item
              (JObj [ ("ItemCode", JStr "IC-7"); ("Stock", JStr "4.75") ]) 0)
    as [o|e] eqn:Hrun; [|discriminate Hrun].
  destruct (sku_falls_back_only_on_empty_ean _ _ _ Hrun)
    as (ean & u & _ & Hu & _ & Hsku).
  exists o, u. repeat split; [exact Hu|]. now apply Hsku.
Defined.

(** ** The webhook handlers *)

Lemma parseInventoryResponse_shape response parsed :
  InventoryService.parseInventoryResponse response = Ret parsed ->
  exists b out total err,
    parsed = JObj [ ("success", JBool b);
                    ("inventoryByLocation", JArr out);
                    ("totalItems", JNum total);
                    ("error", err) ] /\
    Forall location_record out.
Proof.
  unfold InventoryService.parseInventoryResponse. intros H.
  bind_inv H r Hr.
  destruct (truthy r); [|injection H as <-; do 4 eexists; split; [reflexivity|constructor]].
  bind_inv H res Hres.
  destruct (is_str "SUCCESS" res).
  - bind_inv H data Hdata. bind_inv H out Hout. bind_inv H total Htotal.
    injection H as <-. apply locations_records in Hout.
    do 4 eexists; split; [reflexivity|exact Hout].
  - bind_inv H err Herr. injection H as <-.
    do 4 eexists; split; [reflexivity|constructor].
Qed.

Lemma getInventoryByLocation_result h location w result w' :
  InventoryService.getInventoryByLocation h location w = (Ret result, w') ->
  exists response, InventoryService.parseInventoryResponse response = Ret result.
Proof.
  unfold InventoryService.getInventoryByLocation, bind, liftR. cbv zeta.
  destruct (ToString _) as [s|e]; [|discriminate].
  destruct (InventoryService.makeRequest _ _ _ _) as [[response|e] w1];
    [|discriminate].
  intros H. injection H as H _. eauto.
Qed.

(** X15. [triggerInventorySync] never throws, whatever the location
    argument, the token cache and the network: every failure of the
    inventory request or of its parsing comes back as
    [{success: false, error}].  Its [success] is always a boolean; when
    it is [true], [itemCount] is a number and [inventory] an array of
    normalised locations. *)
Theorem triggerInventorySync_never_throws h location w :
  exists out,
    fst (WebhookHandlers.triggerInventorySync h location w) = Ret out /\
    ((exists n locs,
        out = JObj [ ("success", JBool true); ("itemCount", JNum n);
                     ("inventory", JArr locs) ] /\
        Forall location_record locs) \/
     (exists e, out = JObj [ ("success", JBool false); ("error", e) ])).
Proof.
  unfold WebhookHandlers.triggerInventorySync, try_catch, bind.
  destruct (InventoryService.getInventoryByLocation h location w)
    as [[result|e] w1] eqn:Hget.
  - apply getInventoryByLocation_result in Hget as (response & Hparse).
    apply parseInventoryResponse_shape in Hparse
      as (b & out & total & err & -> & Hout).
    destruct b; cbn.
    + eexists. split; [reflexivity|left]. eauto.
    + eexists. split; [reflexivity|right]. eauto.
  - cbn. eexists. split; [reflexivity|right]. eauto.
Qed.

Lemma bind_Ret_inv {A B} (m : M A) (k : A -> M B) w v w' :
  bind m k w = (Ret v, w') ->
  exists a w1, m w = (Ret a, w1) /\ k a w1 = (Ret v, w').
Proof.
  unfold bind. destruct (m w) as [[a|e] w1]; [eauto|discriminate].
Qed.

Lemma liftR_Ret_inv {A} (r : Res A) w v w' :
  liftR r w = (Ret v, w') -> r = Ret v /\ w' = w.
Proof. unfold liftR. intros H. injection H as -> ->. auto. Qed.

Lemma handleRefundCreate_outcome h refund order w :
  match fst (WebhookHandlers.handleRefundCreate h refund order w) with
  | Ret _ =>
      nullish order = false /\ stringifiable (prop order "name") = true /\
      nullish refund = false
  | Throw e =>
      nullish order = true \/ stringifiable (prop order "name") = false \/
      (nullish refund = true /\
       e = TypeError ("Cannot read properties of " ++ nullish_name refund
                        ++ " (reading 'id')"))
  end.
Proof.
  unfold WebhookHandlers.handleRefundCreate.
  unfold bind at 1. unfold liftR at 1.
  destruct (nullish order) eqn:Hn.
  { unfold get. rewrite Hn. cbn [bindR fst]. now left. }
  rewrite (get_ok _ _ Hn). cbn [bindR].
  destruct (ToString (prop order "name")) as [s|e] eqn:Hname.
  2:{ cbn [fst]. right; left.
      destruct (stringifiable (prop order "name")) eqn:Hs; [|reflexivity].
      apply ToString_returns in Hs as (s & Hs). congruence. }
  assert (Hs : stringifiable (prop order "name") = true).
  { apply ToString_returns. eexists; exact Hname. }
  unfold try_catch.
  match goal with |- context [match ?m w with _ => _ end] =>
    destruct (m w) as [[out|e] w1] eqn:Hrun end.
  - (* the [try] block returned: it has read [refund.refund_line_items] *)
    cbn [fst]. repeat split; [exact Hs|].
    apply bind_Ret_inv in Hrun as (t & w2 & _ & Hrun).
    apply bind_Ret_inv in Hrun as (created_at & w3 & _ & Hrun).
    apply bind_Ret_inv in Hrun as (iso & w4 & _ & Hrun).
    apply bind_Ret_inv in Hrun as (items & w5 & Hitems & _).
    apply liftR_Ret_inv in Hitems as [Hitems _].
    bind_inv Hitems lines Hlines. now apply get_Ret_inv in Hlines.
  - unfold liftR, object. cbn [fieldsR bindR fst].
    destruct (nullish refund) eqn:Hr.
    + unfold get. rewrite Hr. cbn [bindR]. right; right.
      split; [reflexivity|]. destruct refund; try discriminate Hr; reflexivity.
    + rewrite (get_ok _ _ Hr). unfold str. cbn [bindR]. repeat split; assumption.
Qed.

(** X16. [handleRefundCreate] throws in two cases only: the order is
    [null] or [undefined] or has a [name] that cannot be printed, so the
    log line before the [try] fails; or the refund is [null] or
    [undefined], so the [catch] block itself fails on [refund.id].  On
    every other input, whatever the network does, it returns a
    record. *)
Theorem handleRefundCreate_rejects_without_payload h refund order w :
  (returns (fst (WebhookHandlers.handleRefundCreate h refund order w)) <->
   nullish order = false /\ stringifiable (prop order "name") = true /\
   nullish refund = false) /\
  (nullish order = false -> stringifiable (prop order "name") = true ->
   nullish refund = true ->
   fst (WebhookHandlers.handleRefundCreate h refund order w)
   = Throw (TypeError ("Cannot read properties of " ++ nullish_name refund
                         ++ " (reading 'id')"))).
Proof.
  pose proof (handleRefundCreate_outcome h refund order w) as H.
  destruct (fst (WebhookHandlers.handleRefundCreate h refund order w)) as [out|e].
  - split; [split; [auto|intros _; apply returns_Ret]|].
    intros _ _ Hr. destruct H as (_ & _ & H). congruence.
  - split.
    + split; [intros Hret; exfalso; eapply returns_throw; exact Hret|].
      intros (Hn & Hs & Hr).
      destruct H as [H|[H|[H _]]]; congruence.
    + intros Hn Hs Hr. destruct H as [H|[H|[_ ->]]]; congruence.
Qed.

Lemma handleRefundCreate_rejects_without_payload_witness :
  fst (WebhookHandlers.handleRefundCreate utc_host JNull sample_order rejecting_world)
  = Throw (TypeError "Cannot read properties of null (reading 'id')").
Proof.
  apply (proj2 (handleRefundCreate_rejects_without_payload
                  utc_host JNull sample_order rejecting_world));
    reflexivity.
Defined.

(** A handler that prints a field of its payload and then wraps its
    work in a [try] whose [catch] answers with the payload's [id]. *)
Lemma guarded_handler_returns payload key idname (body : M JsVal) w :
  returns (fst ((liftR (let* x := get payload key in ToString x) ;;
                 try_catch body
                   (fun error =>
                      liftR (object
                        [ ("success", Ret (JBool false));
                          (idname, get payload "id");
                          ("error", str (message error)) ])))%js w)) <->
  nullish payload = false /\ stringifiable (prop payload key) = true.
Proof.
  unfold bind at 1. unfold liftR at 1.
  destruct (nullish payload) eqn:Hn.
  { unfold get. rewrite Hn. cbn [bindR fst].
    split; [intros H; exfalso; eapply returns_throw; exact H|].
    intros (H & _); discriminate H. }
  rewrite (get_ok _ _ Hn). cbn [bindR].
  destruct (ToString (prop payload key)) as [s|e] eqn:Hs.
  - assert (Hok : stringifiable (prop payload key) = true).
    { apply ToString_returns. eexists; exact Hs. }
    split; [auto|intros _].
    unfold try_catch. destruct (body w) as [[out|e] w1]; [apply returns_Ret|].
    unfold liftR, object, str. cbn [fieldsR]. rewrite (get_ok _ _ Hn).
    apply returns_Ret.
  - cbn [fst].
    split; [intros H; exfalso; eapply returns_throw; exact H|].
    intros (_ & H). apply ToString_returns in H as (s & H). congruence.
Qed.

(** X17. Each handler of one payload throws exactly when the log line
    before its [try] cannot be printed: the payload is [null] or
    [undefined], or the printed field ([name] of an order, [email] of a
    customer) has no string form.  No failure of the transform, of the
    token or of the network makes these handlers throw. *)
Theorem handlers_reject_only_unprintable_payload h payload code w :
  let printable key :=
    nullish payload = false /\ stringifiable (prop payload key) = true in
  (returns (fst (WebhookHandlers.handleOrderCreate h payload w))
   <-> printable "name") /\
  (returns (fst (WebhookHandlers.handleOrderUpdate h payload w))
   <-> printable "name") /\
  (returns (fst (WebhookHandlers.handleOrderCancelled h payload w))
   <-> printable "name") /\
  (returns (fst (WebhookHandlers.handleCustomerCreate h payload w))
   <-> printable "email") /\
  (returns (fst (WebhookHandlers.handleCustomerUpdate h payload code w))
   <-> printable "email").
Proof.
  cbv zeta.
  repeat match goal with |- _ /\ _ => split end;
    apply guarded_handler_returns.
Qed.

(** X18. On an order that carries [cancelled_at], [handleOrderUpdate]
    does what [handleOrderCancelled] does: the same requests are posted,
    the same world is left, and the two results agree on [success],
    [orderId] and [error]; the update's result only adds
    [status: "CANCELLED"] when the status request went through. *)
Theorem cancelled_order_update_agrees h order w :
  truthy (prop order "cancelled_at") = true ->
  snd (WebhookHandlers.handleOrderUpdate h order w)
  = snd (WebhookHandlers.handleOrderCancelled h order w) /\
  match fst (WebhookHandlers.handleOrderUpdate h order w),
        fst (WebhookHandlers.handleOrderCancelled h order w) with
  | Ret u, Ret c =>
      prop u "success" = prop c "success" /\
      prop u "orderId" = prop c "orderId" /\
      prop u "error" = prop c "error" /\
      (u = c \/ prop u "status" = JStr "CANCELLED")
  | Throw e, Throw e' => e = e'
  | _, _ => False
  end.
Proof.
  intros Hc.
  unfold WebhookHandlers.handleOrderUpdate, WebhookHandlers.handleOrderCancelled.
  unfold bind, liftR, try_catch.
  destruct (nullish order) eqn:Hn.
  { unfold get. rewrite Hn. cbn. repeat split; auto. }
  unfold WebhookHandlers.resolve_status.
  rewrite !(get_ok _ _ Hn). cbn [bindR]. rewrite Hc. unfold str. cbn [truthy String.eqb negb].
  destruct (ToString (prop order "name")) as [s|e]; [|cbn; auto].
  destruct (Date_new h (prop order "created_at")) as [d|e]; cbn [bindR].
  2:{ unfold object. cbn [fieldsR]. rewrite ?(get_ok _ _ Hn). cbn. repeat split; auto. }
  destruct (toISOString d) as [iso|e]; cbn [bindR].
  2:{ unfold object. cbn [fieldsR]. rewrite ?(get_ok _ _ Hn). cbn. repeat split; auto. }
  destruct (OrderService.setOrderStatus h (prop order "name")
              (JStr (slice 0 10 iso)) (JStr "CANCELLED") w) as [[result|e] w1].
  2:{ unfold object. cbn [fieldsR]. rewrite ?(get_ok _ _ Hn). cbn. repeat split; auto. }
  unfold object. cbn [fieldsR]. rewrite ?(get_ok _ _ Hn).
  destruct (get result "success") as [success|e]; cbn [bindR].
  2:{ cbn. repeat split; auto. }
  destruct (get result "error") as [err|e]; cbn.
  - repeat split; auto.
  - repeat split; auto.
Qed.

Lemma cancelled_order_update_agrees_witness :
  snd (WebhookHandlers.handleOrderUpdate utc_host cancelled_order issuing_world)
  = snd (WebhookHandlers.handleOrderCancelled utc_host cancelled_order issuing_world).
Proof.
  apply (proj1 (cancelled_order_update_agrees
                  utc_host cancelled_order issuing_world eq_refl)).
Defined.

(** ** The customer record *)

Lemma object_Forall (P : JsVal -> Prop) fs :
  Forall (fun f => exists v, snd f = Ret v /\ P v) fs ->
  exists vs, object fs = Ret (JObj vs) /\
             map fst vs = map fst fs /\ Forall P (map snd vs).
Proof.
  unfold object.
  induction 1 as [|[k e] fs (v & He & Hv) _ (vs & IH & Hk & HP)]; cbn [fieldsR].
  - exists []. repeat split. constructor.
  - cbn [snd] in He. rewrite He. cbn [bindR].
    destruct (fieldsR fs) as [vs'|]; [|discriminate IH].
    cbn [bindR] in *. injection IH as ->.
    exists ((k, v) :: vs). simpl. rewrite Hk. repeat split. now constructor.
Qed.

Lemma orR_default a s :
  returns a ->
  exists v, a ||| str s = Ret v /\ (truthy v = true \/ v = JStr s).
Proof.
  intros (x & ->). rewrite orR_Ret. unfold str.
  destruct (truthy x) eqn:Hx; eauto.
Qed.

Lemma formatCustomerData_record data :
  nullish data = false ->
  exists fs,
    CustomerService.formatCustomerData data = Ret (JObj fs) /\
    map fst fs = customer_fields /\
    Forall filled_or_empty (map snd fs).
Proof.
  intros Hn. unfold CustomerService.formatCustomerData.
  apply (object_Forall filled_or_empty).
  repeat (constructor;
          [cbn [snd]; apply orR_default; auto 6 with js|]).
  constructor.
Qed.

(** X19. [formatCustomerData] throws exactly on [null] and
    [undefined].  On anything else it returns a record of the
    twenty-two customer fields, in that order, in which no field is
    ever [undefined], [null], [0], [false] or [NaN]: every falsy value is
    replaced by the empty string. *)
Theorem formatCustomerData_total data :
  (nullish data = false ->
   exists fs,
     CustomerService.formatCustomerData data = Ret (JObj fs) /\
     map fst fs = customer_fields /\
     Forall filled_or_empty (map snd fs)) /\
  (nullish data = true ->
   CustomerService.formatCustomerData data
   = Throw (TypeError ("Cannot read properties of " ++ nullish_name data
                         ++ " (reading 'title')"))).
Proof.
  split; intros Hn.
  - now apply formatCustomerData_record.
  - destruct data; try discriminate Hn; reflexivity.
Qed.

Lemma formatCustomerData_total_witness :
  exists fs,
    CustomerService.formatCustomerData
      (JObj [ ("firstName", JStr "Asha"); ("dobDay", num 0) ]) = Ret (JObj fs) /\
    map fst fs = customer_fields /\
    Forall filled_or_empty (map snd fs).
Proof.
  apply (proj1 (formatCustomerData_total
                  (JObj [ ("firstName", JStr "Asha"); ("dobDay", num 0) ]))).
  reflexivity.
Defined.

(** The three birthday fields: all empty, or all numbers of the date
    read from [birthday] or, without one, from [metafields.dob]. *)
Lemma parse_dob_cases h customer day month year :
  CustomerService.parse_dob h customer = Ret (day, month, year) ->
  let birthday := prop customer "birthday" in
  let source := if truthy birthday then birthday
                else getOpt (prop customer "metafields") "dob" in
  ((truthy source = false \/ Date_new h source = Ret None) /\
   day = JStr "" /\ month = JStr "" /\ year = JStr "") \/
  (exists t,
     truthy source = true /\
     Date_new h source = Ret (Some t) /\
     day = num (getDate h t) /\ month = num (getMonth h t + 1) /\
     year = num (getFullYear h t)).
Proof.
  intros H birthday source. unfold CustomerService.parse_dob in H.
  bind_inv H present Hpresent.
  assert (Hn : nullish customer = false).
  { destruct (orR_left_returns _ _ _ Hpresent) as (x & Hx).
    now apply get_Ret_inv in Hx. }
  assert (Hsource : present = source).
  { rewrite !(get_ok _ _ Hn), orR_Ret in Hpresent. cbn [bindR] in Hpresent.
    subst source birthday.
    destruct (truthy (prop customer "birthday")); now injection Hpresent as <-. }
  subst present.
  destruct (truthy source) eqn:Ht;
    [|injection H as <- <- <-; left; auto].
  bind_inv H source' Hsource'.
  assert (Hsame : source' = source).
  { rewrite !(get_ok _ _ Hn), orR_Ret in Hsource'. cbn [bindR] in Hsource'.
    subst source birthday.
    destruct (truthy (prop customer "birthday")); [now injection Hsource' as <-|].
    apply get_Ret_inv in Hsource' as [Hm ->]. unfold getOpt. now rewrite Hm. }
  subst source'.
  bind_inv H dob Hdob.
  destruct dob as [t|]; injection H as <- <- <-; [right|left; auto].
  exists t. auto 6.
Qed.

(** The record [transformShopifyCustomer] returns. *)
Lemma transformShopifyCustomer_shape h customer d :
  CustomerService.transformShopifyCustomer h customer = Ret d ->
  exists firstName lastName email phone address1 address2 city state pincode
         day month year,
    d = JObj [ ("firstName", firstName); ("lastName", lastName);
               ("email", email); ("phone", phone);
               ("address1", address1); ("address2", address2);
               ("city", city); ("state", state); ("pincode", pincode);
               ("dobDay", day); ("dobMonth", month); ("dobYear", year) ] /\
    Forall filled_or_empty
      [firstName; lastName; email; phone; address1; address2; city; state; pincode] /\
    CustomerService.parse_dob h customer = Ret (day, month, year).
Proof.
  unfold CustomerService.transformShopifyCustomer. intros H.
  bind_inv H address Haddress. bind_inv H dob Hdob.
  destruct dob as [[day month] year].
  apply object_cons_inv in H as (v1 & vs1 & H1 & H & ->).
  apply object_cons_inv in H as (v2 & vs2 & H2 & H & E). injection E as ->.
  apply object_cons_inv in H as (v3 & vs3 & H3 & H & E). injection E as ->.
  apply object_cons_inv in H as (v4 & vs4 & H4 & H & E). injection E as ->.
  apply object_cons_inv in H as (v5 & vs5 & H5 & H & E). injection E as ->.
  apply object_cons_inv in H as (v6 & vs6 & H6 & H & E). injection E as ->.
  apply object_cons_inv in H as (v7 & vs7 & H7 & H & E). injection E as ->.
  apply object_cons_inv in H as (v8 & vs8 & H8 & H & E). injection E as ->.
  apply object_cons_inv in H as (v9 & vs9 & H9 & H & E). injection E as ->.
  apply object_cons_inv in H as (v10 & vs10 & H10 & H & E). injection E as ->.
  apply object_cons_inv in H as (v11 & vs11 & H11 & H & E). injection E as ->.
  apply object_cons_inv in H as (v12 & vs12 & H12 & H & E). injection E as ->.
  injection H as <-. injection H10 as <-. injection H11 as <-. injection H12 as <-.
  do 12 eexists. split; [reflexivity|]. split; [|exact Hdob].
  repeat (constructor; [eapply orR_default_inv; eassumption|]). constructor.
Qed.

Lemma filled_first v :
  filled_or_empty v -> Ret v ||| Ret JUndefined ||| str "" = Ret v.
Proof.
  intros [Hv | ->]; [|reflexivity].
  now rewrite orR_Ret, Hv, orR_Ret, Hv.
Qed.

(** X20. The customer record made of a Shopify customer
    ([formatCustomerData] of [transformShopifyCustomer]) always exists
    when the transform returns; it takes name, contact and address as
    the transform gave them, and its title, middle name, gender, third
    address line and whole delivery address are always empty: nothing
    in a Shopify customer reaches them. *)
Theorem synced_customer_record h customer d :
  CustomerService.transformShopifyCustomer h customer = Ret d ->
  exists body,
    CustomerService.formatCustomerData d = Ret body /\
    Forall (fun k => prop body k = JStr "")
      [ "TitleName"; "MiddleName"; "Gender"; "CustomerAddressLine3";
        "DeliveryAddressLine1"; "DeliveryAddressLine2"; "DeliveryAddressLine3";
        "DeliveryCityName"; "DeliveryStateName"; "DeliveryPincode" ] /\
    Forall (fun p => prop body (fst p) = prop d (snd p))
      [ ("FirstName", "firstName"); ("LastName", "lastName");
        ("EmailID", "email"); ("MobileNumber", "phone");
        ("CustomerAddressLine1", "address1"); ("CustomerAddressLine2", "address2");
        ("CustomerCityName", "city"); ("CustomerStateName", "state");
        ("Pincode", "pincode") ].
Proof.
  intros H. apply transformShopifyCustomer_shape in H
    as (firstName & lastName & email & phone & address1 & address2 & city
        & state & pincode & day & month & year & -> & Hfilled & _).
  repeat match goal with
         | H : Forall _ (_ :: _) |- _ => inversion H; clear H; subst
         end.
  unfold CustomerService.formatCustomerData, object.
  cbn [fieldsR get nullish prop lookup String.eqb Ascii.eqb Bool.eqb inherited
       existsb object_prototype orb].
  unfold str.
  repeat (first [ rewrite filled_first by assumption
                | rewrite orR_Ret; cbn [truthy] ];
          cbn [bindR]).
  destruct (truthy day), (truthy month), (truthy year); cbn [bindR];
    (eexists; split; [reflexivity|]; split; repeat constructor).
Qed.

Lemma synced_customer_record_witness :
  exists d body,
    CustomerService.transformShopifyCustomer utc_host sample_customer = Ret d /\
    CustomerService.formatCustomerData d = Ret body /\
    prop body "DeliveryCityName" = JStr "" /\
    prop body "CustomerCityName" = JStr "New Delhi".
Proof.
  destruct (CustomerService.transformShopifyCustomer utc_host sample_customer)
    as [d|e] eqn:Hrun; [|discriminate Hrun].
  destruct (synced_customer_record utc_host sample_customer d Hrun)
    as (body & Hbody & Hempty & Hsame).
  exists d, body. split; [reflexivity|]. split; [exact Hbody|].
  rewrite Forall_forall in Hempty, Hsame. split.
  - apply Hempty. simpl. auto 10.
  - assert (Hcity : prop body "CustomerCityName" = prop d "city")
      by (apply (Hsame ("CustomerCityName", "city")); simpl; auto 10).
    rewrite Hcity. vm_compute in Hrun. now injection Hrun as <-.
Defined.

(** X21. The birthday of a transformed customer is all or nothing, and
    comes from one place: from [birthday] when that is truthy, and from
    [metafields.dob] only otherwise.  When that source is missing (or
    any other falsy value) or makes no valid date, [dobDay], [dobMonth] and [dobYear] are three
    empty strings; otherwise they are the day, month (from 1) and year
    of its date, read in the local time zone. *)
Theorem customer_birthday_all_or_nothing h customer d :
  CustomerService.transformShopifyCustomer h customer = Ret d ->
  let birthday := prop customer "birthday" in
  let source := if truthy birthday then birthday
                else getOpt (prop customer "metafields") "dob" in
  ((truthy source = false \/ Date_new h source = Ret None) /\
   prop d "dobDay" = JStr "" /\ prop d "dobMonth" = JStr "" /\
   prop d "dobYear" = JStr "") \/
  (exists t,
     truthy source = true /\
     Date_new h source = Ret (Some t) /\
     prop d "dobDay" = num (getDate h t) /\
     prop d "dobMonth" = num (getMonth h t + 1) /\
     prop d "dobYear" = num (getFullYear h t)).
Proof.
  intros H. apply transformShopifyCustomer_shape in H
    as (firstName & lastName & email & phone & address1 & address2 & city
        & state & pincode & day & month & year & -> & _ & Hdob).
  apply parse_dob_cases in Hdob. exact Hdob.
Qed.

Lemma customer_birthday_all_or_nothing_witness :
  exists d,
    CustomerService.transformShopifyCustomer utc_host sample_customer = Ret d /\
    prop d "dobDay" = num 15 /\ prop d "dobMonth" = num 5 /\
    prop d "dobYear" = num 1990.
Proof.
  destruct (CustomerService.transformShopifyCustomer utc_host sample_customer)
    as [d|e] eqn:Hrun; [|discriminate Hrun].
  exists d. split; [reflexivity|].
  destruct (customer_birthday_all_or_nothing utc_host sample_customer d Hrun)
    as [(_ & Hday & _)|(t & _ & Hdate & Hday & Hmonth & Hyear)].
  - vm_compute in Hrun. injection Hrun as <-. discriminate Hday.
  - vm_compute in Hdate. injection Hdate as <-.
    rewrite Hday, Hmonth, Hyear. repeat split.
Defined.

Lemma lookup_absent k (fs : list (string * JsVal)) :
  ~ In k (map fst fs) -> lookup k fs = None.
Proof.
  induction fs as [|[k' v] fs IH]; simpl; [reflexivity|]. intros Hk.
  destruct (String.eqb_spec k' k) as [->|_]; [tauto|]. apply IH. tauto.
Qed.

Lemma lookup_assign k v (fs : list (string * JsVal)) :
  lookup k (assign k v fs) = Some v.
Proof.
  induction fs as [|[k' x] fs IH]; simpl.
  - now rewrite String.eqb_refl.
  - destruct (k' =? k)%string eqn:Hk; simpl.
    + now rewrite String.eqb_refl.
    + now rewrite Hk.
Qed.

Lemma formatCustomerData_inv data customer :
  CustomerService.formatCustomerData data = Ret customer ->
  exists fs, customer = JObj fs /\ map fst fs = customer_fields.
Proof.
  intros H.
  assert (Hn : nullish data = false).
  { unfold CustomerService.formatCustomerData in H.
    apply object_cons_inv in H as (v & _ & Hv & _).
    apply orR_left_returns in Hv as (x & Hx). now apply get_Ret_inv in Hx. }
  destruct (formatCustomerData_record data Hn) as (fs & Hfs & Hkeys & _).
  rewrite Hfs in H. injection H as <-. eauto.
Qed.

(** X22. A returning [syncFromShopify] has posted, as its last request,
    one customer record: to [ModifyCustomer], with [CustomerCode] set to
    the given code, when that code is truthy; to [AddCustomer], with no
    [CustomerCode] at all, otherwise.  So an empty or missing code never
    modifies a customer: it adds one. *)
Theorem sync_customer_dispatch h customer code w r w' :
  CustomerService.syncFromShopify h customer code w = (Ret r, w') ->
  exists tok before body,
    sent w' = (before ++ [process_request h
                            (if truthy code then Config.MODIFY_CUSTOMER
                             else Config.ADD_CUSTOMER)
                            tok (JObj [ ("Customer", body) ])])%list /\
    prop body "CustomerCode" = (if truthy code then code else JUndefined).
Proof.
  unfold CustomerService.syncFromShopify, bind at 1, liftR at 1.
  destruct (CustomerService.transformShopifyCustomer h customer) as [data|e];
    [|discriminate].
  replace (truthy match code with JUndefined => JNull | _ => code end)
    with (truthy code) by now destruct code.
  destruct (truthy code) eqn:Hcode.
  - replace (match code with JUndefined => JNull | _ => code end) with code
      by (destruct code; try reflexivity; discriminate Hcode).
    unfold CustomerService.modifyCustomer, bind, liftR.
    destruct (CustomerService.formatCustomerData data) as [c|e] eqn:Hc;
      [|discriminate].
    destruct (ToString code); [|discriminate].
    destruct (CustomerService.makeRequest h Config.MODIFY_CUSTOMER _ w)
      as [[response|e] w1] eqn:Hreq; [|discriminate].
    destruct (CustomerService.parseResponse response); [|discriminate].
    intros H. injection H as _ <-.
    apply (makeRequest_sent h) in Hreq as (tok & before & Hsent).
    exists tok, before, (set_prop c "CustomerCode" code). split; [exact Hsent|].
    apply formatCustomerData_inv in Hc as (fs & -> & _).
    cbn [set_prop prop]. now rewrite lookup_assign.
  - unfold CustomerService.addCustomer, bind, liftR.
    destruct (CustomerService.formatCustomerData data) as [c|e] eqn:Hc;
      [|discriminate].
    destruct (let* label := get data "email" ||| get data "phone" in
              ToString label); [|discriminate].
    destruct (CustomerService.makeRequest h Config.ADD_CUSTOMER _ w)
      as [[response|e] w1] eqn:Hreq; [|discriminate].
    destruct (CustomerService.parseResponse response); [|discriminate].
    intros H. injection H as _ <-.
    apply (makeRequest_sent h) in Hreq as (tok & before & Hsent).
    exists tok, before, c. split; [exact Hsent|].
    apply formatCustomerData_inv in Hc as (fs & -> & Hkeys).
    cbn [prop]. rewrite lookup_absent; [reflexivity|].
    rewrite Hkeys. unfold customer_fields. simpl.
    intros Hin. repeat (destruct Hin as [Hin|Hin]; [discriminate Hin|]).
    exact Hin.
Qed.

Lemma sync_customer_dispatch_witness :
  exists tok before body,
    sent (snd (CustomerService.syncFromShopify utc_host sample_customer (JStr "")
                 rejecting_world))
    = (before ++ [process_request utc_host Config.ADD_CUSTOMER tok
                    (JObj [ ("Customer", body) ])])%list /\
    prop body "CustomerCode" = JUndefined.
Proof.
  destruct (CustomerService.syncFromShopify utc_host sample_customer (JStr "")
              rejecting_world) as [[r|e] w'] eqn:Hrun;
    [|vm_compute in Hrun; discriminate Hrun].
  exact (sync_customer_dispatch utc_host sample_customer (JStr "")
           rejecting_world r w' Hrun).
Defined.

(** ** Refunds *)




(** The total of the return data is a number. *)
Lemma refund_returnData_total today orderDate items refund order d :
  WebhookHandlers.refund_returnData today orderDate items refund order = Ret d ->
  nullish refund = false /\ is_number (prop d "totalValue") = true.
Proof.
  unfold WebhookHandlers.refund_returnData. intros H.
  field_of H "totalValue" total Etotal.
  assert (Hn : nullish refund = false).
  { apply orR_left_returns in H as (x & Hx).
    bind_inv Hx ts Hts. now apply get_Ret_inv in Hts. }
  split; [exact Hn|].
  rewrite (get_ok _ _ Hn) in H. cbn [bindR] in H. rewrite Etotal.
  apply orR_Ret_inv in H as [[H Htruthy]|(x & _ & _ & H)];
    [|now injection H as <-].
  unfold array_methodOpt in H.
  destruct (prop refund "transactions"); try discriminate H;
    try (injection H as <-; discriminate Htruthy).
  bind_inv H s Hs. injection H as <-. now destruct s.
Qed.

(** The accumulator of [reduce] over the transactions, in terms of their
    amounts. *)
Lemma refund_amounts ts : forall acc sum,
  foldR WebhookHandlers.add_transaction acc ts = Ret sum ->
  exists amounts,
    Forall2 (fun t n => transaction_amount t = Ret n) ts amounts /\
    sum = fold_left num_add amounts acc.
Proof.
  induction ts as [|t ts IH]; intros acc sum H; cbn [foldR] in H.
  - injection H as <-. exists []. split; [constructor|reflexivity].
  - bind_inv H acc' Ht.
    unfold WebhookHandlers.add_transaction in Ht.
    bind_inv Ht a Ha. bind_inv Ht n Hn. injection Ht as <-.
    apply IH in H as (amounts & Hamounts & ->).
    exists (n :: amounts). split; [|reflexivity].
    constructor; [|exact Hamounts].
    unfold transaction_amount. rewrite Ha. exact Hn.
Qed.

(** Adding a number to [0] leaves it zero or not zero as it was. *)
Lemma num_add_zero_truthy n : num_truthy (num_add (int 0) n) = num_truthy n.
Proof.
  destruct n as [|x|m e]; cbn [num_add int num_truthy]; try reflexivity.
  pose proof (pow10_pos (e - Z.min 0 e) ltac:(lia)) as Hp.
  destruct (Z.eqb_spec m 0) as [->|Hm].
  - now rewrite !Z.mul_0_l.
  - cbn [negb]. destruct (Z.eqb_spec (0 * 10 ^ (0 - Z.min 0 e)
                                      + m * 10 ^ (e - Z.min 0 e)) 0) as [Hz|];
      [|reflexivity].
    exfalso. nia.
Qed.

Lemma num_gt0_truthy n : num_gt0 n = true -> num_truthy n = true.
Proof.
  destruct n as [|x|m e]; cbn [num_gt0 num_truthy]; try discriminate; auto.
  intros H. apply Z.ltb_lt in H. destruct (Z.eqb_spec m 0); [lia|reflexivity].
Qed.

(** X24. In the return data of a refund, [totalValue] is always a
    number and never [NaN].  It is 0 for a refund without transactions,
    none given or an empty list, and when the amount of a transaction,
    [parseFloat(t.amount || 0)], is [NaN]; with one transaction it is
    the amount of that one, [0 + amount], as a number; it is not above
    zero when no amount is, and above zero when every amount is zero or
    more and one is above zero.  The items are the ones handed in, and
    the one payment, of mode ["Refund"], carries as [PaymentValue] the
    amount of the first transaction as it was given, or 0, whatever the
    other transactions are. *)
Theorem refund_total_and_payment today orderDate items refund order d :
  WebhookHandlers.refund_returnData today orderDate items refund order = Ret d ->
  let transactions := prop refund "transactions" in
  is_number (prop d "totalValue") = true /\
  (exists total,
     prop d "totalValue" = JNum total /\
     ((nullish transactions = true /\ total = int 0) \/
      exists ts amounts,
        transactions = JArr ts /\
        Forall2 (fun t n => transaction_amount t = Ret n) ts amounts /\
        (amounts = [] -> total = int 0) /\
        (forall n, amounts = [n] ->
                   total = if num_truthy n then num_add (int 0) n else int 0) /\
        (Exists (fun n => n = NaN) amounts -> total = int 0) /\
        (Forall (fun n => num_gt0 n = false) amounts -> num_gt0 total = false) /\
        (Forall (fun n => num_ge0 n = true) amounts ->
         Exists (fun n => num_gt0 n = true) amounts -> num_gt0 total = true))) /\
  prop d "items" = items /\
  exists p first,
    prop d "payments" = JArr [p] /\
    first = getOpt (getOpt transactions "0") "amount" /\
    prop p "PaymentMode" = JStr "Refund" /\
    prop p "PaymentValue" = (if truthy first then first else num 0).
Proof.
  intros H transactions.
  destruct (refund_returnData_total _ _ _ _ _ _ H) as [Hn Htotal].
  split; [exact Htotal|]. clear Htotal.
  split.
  { unfold WebhookHandlers.refund_returnData in H.
    field_of H "totalValue" total Etotal.
    rewrite (get_ok _ _ Hn) in H. cbn [bindR] in H. rewrite Etotal.
    fold transactions in H. clearbody transactions.
    destruct transactions as [| |b|n|s|ts|fs|f];
      try discriminate H;
      try (injection H as <-; exists (int 0); split; [reflexivity|];
           left; split; reflexivity).
    cbn [array_methodOpt] in H.
    destruct (foldR WebhookHandlers.add_transaction (int 0) ts)
      as [sum|e] eqn:Hfold; [|discriminate H].
    apply refund_amounts in Hfold as (amounts & Hamounts & ->).
    cbn [bindR] in H. rewrite orR_Ret in H. cbn [truthy] in H.
    set (sum := fold_left num_add amounts (int 0)) in *.
    exists (if num_truthy sum then sum else int 0).
    split; [destruct (num_truthy sum); now injection H as <-|].
    right. exists ts, amounts.
    split; [reflexivity|]. split; [exact Hamounts|]. clear H Hamounts.
    repeat split.
    - intros ->. reflexivity.
    - intros n ->. subst sum. cbn [fold_left].
      now rewrite num_add_zero_truthy.
    - intros Hex. subst sum. rewrite sum_NaN; [reflexivity|now right].
    - intros HF.
      assert (Hs : num_gt0 sum = false) by (now apply sum_not_positive).
      now destruct (num_truthy sum).
    - intros HF Hex.
      assert (Hs : num_gt0 sum = true) by (apply sum_positive; auto).
      now rewrite (num_gt0_truthy _ Hs). }
  unfold WebhookHandlers.refund_returnData in H.
  pose proof H as Hitems. field_of Hitems "items" its Eits. injection Hitems as <-.
  field_of H "payments" pays Epays.
  bind_inv H p Hp. injection H as <-.
  pose proof Hp as Hmode. field_of Hmode "PaymentMode" mode Emode.
  injection Hmode as <-.
  field_of Hp "PaymentValue" pv Epv.
  rewrite (get_ok _ _ Hn) in Hp. cbn [bindR] in Hp.
  rewrite orR_Ret in Hp.
  split; [exact Eits|].
  exists p, (getOpt (getOpt (prop refund "transactions") "0") "amount").
  rewrite Epays, Emode, Epv. repeat split.
  destruct (truthy _); now injection Hp as <-.
Qed.

Lemma refund_total_and_payment_witness :
  exists d p,
    WebhookHandlers.refund_returnData "20240120" "20240116" (JArr [])
      sample_refund sample_order = Ret d /\
    prop d "totalValue" = JNum (Dec 50000 (-2)) /\
    prop d "payments" = JArr [p] /\
    prop p "PaymentValue" = JStr "400.00".
Proof.
  destruct (WebhookHandlers.refund_returnData "20240120" "20240116" (JArr [])
              sample_refund sample_order) as [d|e] eqn:Hrun;
    [|discriminate Hrun].
  destruct (refund_total_and_payment _ _ _ _ _ _ Hrun)
    as (_ & _ & _ & p & first & Hpays & -> & _ & Hvalue).
  exists d, p. split; [reflexivity|].
  split; [vm_compute in Hrun; now injection Hrun as <-|].
  split; [exact Hpays|exact Hvalue].
Defined.

(** ** How an order is referred to after it was created *)

(** The date and number a transformed order is created with. *)
Lemma transformShopifyOrder_reference h order r :
  OrderService.transformShopifyOrder h order = Ret r ->
  exists iso,
    (let* orderDate := Date_new h (prop order "created_at") in
     toISOString orderDate) = Ret iso /\
    prop (prop (prop r "Order") "Header") "OrderDate"
    = JStr (remove_dashes (slice 0 10 iso)) /\
    (truthy (prop order "name") = true ->
     prop (prop (prop r "Order") "Header") "OrderNumber" = prop order "name").
Proof.
  intros H. transform_inv H order.
  field_of H "Order" ord Eord. rewrite Eord. clear Eord.
  field_of H "Header" hdr Ehdr. rewrite Ehdr. clear Ehdr.
  pose proof H as Hdate'. field_of Hdate' "OrderDate" date Edate.
  injection Hdate' as <-.
  field_of H "OrderNumber" number Enumber.
  exists iso. rewrite Hdate. cbn [bindR]. split; [exact Hiso|].
  split; [exact Edate|].
  intros Hname. rewrite (get_ok _ _ Hn), orR_Ret, Hname in H.
  injection H as <-. exact Enumber.
Qed.

(** A successful [handleOrderCancelled] has posted its status update
    last. *)
Lemma handleOrderCancelled_sent h order w out w' :
  WebhookHandlers.handleOrderCancelled h order w = (Ret out, w') ->
  truthy (prop out "success") = true ->
  exists iso tok before,
    (let* orderDate := Date_new h (prop order "created_at") in
     toISOString orderDate) = Ret iso /\
    sent w' = (before ++
      [process_request h Config.SET_ORDER_STATUS tok
         (JObj [ ("OrderStatusUpdate",
                  JObj [ ("VendorOrderDate", JStr (slice 0 10 iso));
                         ("VendorOrderNumber", prop order "name");
                         ("OrderLocation",
                          JStr (Config.storeLocation (Config.eshopaid h)));
                         ("OrderStatus", JStr "CANCELLED") ]) ])])%list.
Proof.
  unfold WebhookHandlers.handleOrderCancelled.
  unfold bind at 1. unfold liftR at 1.
  destruct (nullish order) eqn:Hn.
  { unfold get. rewrite Hn. discriminate. }
  rewrite (get_ok _ _ Hn). cbn [bindR].
  destruct (ToString (prop order "name")) as [s|e]; [|discriminate].
  unfold try_catch, bind, liftR.
  rewrite !(get_ok _ _ Hn).
  destruct (let* orderDate := Date_new h (prop order "created_at") in
            toISOString orderDate) as [iso|e].
  2:{ unfold object, str. cbn [fieldsR bindR]. rewrite ?(get_ok _ _ Hn). cbn [bindR].
      intros H. injection H as <- _. discriminate. }
  unfold OrderService.setOrderStatus, bind, liftR. cbv zeta.
  destruct (let* _ := ToString (prop order "name") in ToString (JStr "CANCELLED"))
    as [x|e].
  2:{ unfold object, str. cbn [fieldsR bindR]. rewrite ?(get_ok _ _ Hn). cbn [bindR].
      intros H. injection H as <- _. discriminate. }
  destruct (OrderService.makeRequest h Config.SET_ORDER_STATUS _ w)
    as [[response|e] w1] eqn:Hreq.
  2:{ unfold object, str. cbn [fieldsR bindR]. rewrite ?(get_ok _ _ Hn). cbn [bindR].
      intros H. injection H as <- _. discriminate. }
  apply makeRequest_sent in Hreq as (tok & before & Hsent).
  destruct (OrderService.parseStatusResponse response) as [result|e].
  2:{ unfold object, str. cbn [fieldsR bindR]. rewrite ?(get_ok _ _ Hn). cbn [bindR].
      intros H. injection H as <- _. discriminate. }
  destruct (object _) as [o|e] eqn:Ho.
  - intros H _. injection H as _ <-. exists iso, tok, before. auto.
  - unfold object, str. cbn [fieldsR bindR]. rewrite ?(get_ok _ _ Hn). cbn [bindR].
    intros H. injection H as <- _. discriminate.
Qed.

(** X25. An order is created under the date [YYYYMMDD] of its
    [created_at] in UTC, and its status is later updated under the same
    ten leading characters of the ISO date with the dashes left in: the
    [OrderDate] of [createSalesOrder] is the [VendorOrderDate] of a
    successful [handleOrderCancelled] without its dashes.  Both carry
    the order's [name] as the order number when it has one. *)
Theorem status_date_keeps_dashes h order r w out w' :
  OrderService.transformShopifyOrder h order = Ret r ->
  WebhookHandlers.handleOrderCancelled h order w = (Ret out, w') ->
  truthy (prop out "success") = true ->
  exists date tok before update,
    sent w' = (before ++ [process_request h Config.SET_ORDER_STATUS tok
                            (JObj [ ("OrderStatusUpdate", update) ])])%list /\
    prop update "VendorOrderDate" = JStr date /\
    prop (prop (prop r "Order") "Header") "OrderDate" = JStr (remove_dashes date) /\
    prop update "VendorOrderNumber" = prop order "name" /\
    (truthy (prop order "name") = true ->
     prop (prop (prop r "Order") "Header") "OrderNumber" = prop order "name").
Proof.
  intros Hr Hrun Hok.
  apply transformShopifyOrder_reference in Hr as (iso & Hiso & Hdate & Hnumber).
  apply handleOrderCancelled_sent in Hrun as (iso' & tok & before & Hiso' & Hsent);
    [|exact Hok].
  rewrite Hiso in Hiso'. injection Hiso' as <-.
  do 4 eexists. split; [exact Hsent|]. repeat split; assumption.
Qed.

Lemma status_date_keeps_dashes_witness :
  exists r out w' date tok before update,
    OrderService.transformShopifyOrder utc_host sample_order = Ret r /\
    WebhookHandlers.handleOrderCancelled utc_host sample_order issuing_world
    = (Ret out, w') /\
    sent w' = (before ++ [process_request utc_host Config.SET_ORDER_STATUS tok
                            (JObj [ ("OrderStatusUpdate", update) ])])%list /\
    prop update "VendorOrderDate" = JStr date /\
    prop (prop (prop r "Order") "Header") "OrderDate" = JStr (remove_dashes date).
Proof.
  destruct (OrderService.transformShopifyOrder utc_host sample_order)
    as [r|e] eqn:Hr; [|discriminate Hr].
  destruct (WebhookHandlers.handleOrderCancelled utc_host sample_order issuing_world)
    as [[out|e] w'] eqn:Hrun; [|vm_compute in Hrun; discriminate Hrun].
  assert (Hok : truthy (prop out "success") = true).
  { vm_compute in Hrun. now injection Hrun as <- _. }
  destruct (status_date_keeps_dashes utc_host sample_order r issuing_world out w'
              Hr Hrun Hok)
    as (date & tok & before & update & Hsent & Hdate & Horder & _).
  exists r, out, w', date, tok, before, update. auto.
Defined.

Lemma try_catch_success (m : M JsVal) handler w out w' :
  try_catch m handler w = (Ret out, w') ->
  (forall e w1 o w2, handler e w1 = (Ret o, w2) ->
                     truthy (prop o "success") = false) ->
  truthy (prop out "success") = true ->
  m w = (Ret out, w').
Proof.
  unfold try_catch. destruct (m w) as [[o|e] w1]; [auto|].
  intros H Hhandler Hok. apply Hhandler in H. congruence.
Qed.

(** What a returning [createReturnOrder] has posted last. *)
Lemma createReturnOrder_sent h returnData w result w' :
  OrderService.createReturnOrder h returnData w = (Ret result, w') ->
  exists tok before body header,
    sent w' = (before ++ [process_request h Config.CREATE_RETURN_ORDER
                            tok body])%list /\
    prop (prop body "ReturnOrder") "Header" = header /\
    prop header "RefOrderDate" = prop returnData "refOrderDate" /\
    prop header "RefOrderNumber" = prop returnData "refOrderNumber" /\
    prop header "ReturnOrderDate" = prop returnData "returnDate" /\
    prop header "TotalReturnOrderValue" = prop returnData "totalValue" /\
    prop (prop (prop body "ReturnOrder") "Items") "Item" = prop returnData "items".
Proof.
  unfold OrderService.createReturnOrder. cbv zeta. intros H.
  apply bind_Ret_inv in H as (x & w1 & Hlog & H).
  apply liftR_Ret_inv in Hlog as [Hlog ->].
  assert (Hn : nullish returnData = false).
  { bind_inv Hlog ref Href. now apply get_Ret_inv in Href. }
  apply bind_Ret_inv in H as (body & w2 & Hbody & H).
  apply liftR_Ret_inv in Hbody as [Hbody ->].
  apply bind_Ret_inv in H as (response & w3 & Hreq & H).
  apply liftR_Ret_inv in H as [_ ->].
  apply makeRequest_sent in Hreq as (tok & before & Hsent).
  exists tok, before, body, (prop (prop body "ReturnOrder") "Header").
  split; [exact Hsent|]. split; [reflexivity|].
  rewrite !(get_ok _ _ Hn) in Hbody.
  field_of Hbody "ReturnOrder" ro Ero. rewrite Ero. clear Ero.
  pose proof Hbody as Hitems. field_of Hitems "Items" its Eits. rewrite Eits.
  field_of Hitems "Item" it Eit. injection Hitems as <-.
  field_of Hbody "Header" hdr Ehdr. rewrite Ehdr.
  pose proof Hbody as H1. field_of H1 "RefOrderDate" v1 E1. injection H1 as <-.
  pose proof Hbody as H2. field_of H2 "RefOrderNumber" v2 E2. injection H2 as <-.
  pose proof Hbody as H3. field_of H3 "ReturnOrderDate" v3 E3. injection H3 as <-.
  field_of Hbody "TotalReturnOrderValue" v4 E4. injection Hbody as <-.
  auto 6.
Qed.

(** X26. A refund that [handleRefundCreate] reports as successful was
    posted to [CreateReturnOrder] last, referring to its order by
    [order.name] and by the date [YYYYMMDD] of the order's [created_at]:
    for an order that was transformed, the very [OrderDate] it was
    created with.  The return itself is dated by the clock, and its
    total is a number. *)
Theorem refund_refers_to_created_order h refund order r w out w' :
  OrderService.transformShopifyOrder h order = Ret r ->
  WebhookHandlers.handleRefundCreate h refund order w = (Ret out, w') ->
  truthy (prop out "success") = true ->
  exists tok before body header,
    sent w' = (before ++ [process_request h Config.CREATE_RETURN_ORDER
                            tok body])%list /\
    prop (prop body "ReturnOrder") "Header" = header /\
    prop header "RefOrderDate"
    = prop (prop (prop r "Order") "Header") "OrderDate" /\
    prop header "RefOrderNumber" = prop order "name" /\
    prop header "ReturnOrderDate"
    = JStr (remove_dashes (slice 0 10 (iso_string (now w)))) /\
    is_number (prop header "TotalReturnOrderValue") = true.
Proof.
  intros Hr Hrun Hok.
  apply transformShopifyOrder_reference in Hr as (iso & Hiso & Hdate & _).
  unfold WebhookHandlers.handleRefundCreate in Hrun.
  apply bind_Ret_inv in Hrun as (x & w1 & Hlog & Hrun).
  apply liftR_Ret_inv in Hlog as [Hlog ->].
  assert (Hn : nullish order = false).
  { bind_inv Hlog name Hname. now apply get_Ret_inv in Hname. }
  apply try_catch_success in Hrun; [|clear; intros e w1 o w2 H|exact Hok].
  2:{ apply liftR_Ret_inv in H as [H _].
      apply object_prop_here in H as (v & Hv & <-). now injection Hv as <-. }
  apply bind_Ret_inv in Hrun as (t & w2 & Ht & Hrun).
  injection Ht as <- <-.
  apply bind_Ret_inv in Hrun as (created_at & w3 & Hc & Hrun).
  apply liftR_Ret_inv in Hc as [Hc ->]. apply get_Ret_inv in Hc as [_ ->].
  apply bind_Ret_inv in Hrun as (iso' & w4 & Hiso' & Hrun).
  apply liftR_Ret_inv in Hiso' as [Hiso' ->].
  rewrite Hiso in Hiso'. injection Hiso' as <-.
  apply bind_Ret_inv in Hrun as (items & w5 & Hitems & Hrun).
  apply liftR_Ret_inv in Hitems as [Hitems ->].
  apply bind_Ret_inv in Hrun as (returnData & w6 & Hdata & Hrun).
  apply liftR_Ret_inv in Hdata as [Hdata ->].
  apply bind_Ret_inv in Hrun as (result & w7 & Hcreate & Hlast).
  apply liftR_Ret_inv in Hlast as [_ ->].
  apply createReturnOrder_sent in Hcreate
    as (tok & before & body & header & Hsent & Hheader & Hrefdate & Hrefnum
        & Hretdate & Htotal & _).
  exists tok, before, body, header. split; [exact Hsent|]. split; [exact Hheader|].
  rewrite Hrefdate, Hrefnum, Hretdate, Htotal, Hdate.
  destruct (refund_returnData_total _ _ _ _ _ _ Hdata) as (_ & Hnumber).
  unfold WebhookHandlers.refund_returnData in Hdata.
  pose proof Hdata as H1. field_of H1 "refOrderDate" v1 E1. injection H1 as <-.
  pose proof Hdata as H2. field_of H2 "refOrderNumber" v2 E2.
  rewrite (get_ok _ _ Hn) in H2. injection H2 as <-.
  field_of Hdata "returnDate" v3 E3. injection Hdata as <-.
  rewrite E1, E2, E3. auto.
Qed.

Lemma refund_refers_to_created_order_witness :
  exists r out w' tok before body,
    OrderService.transformShopifyOrder utc_host sample_order = Ret r /\
    WebhookHandlers.handleRefundCreate utc_host sample_refund sample_order
      issuing_world = (Ret out, w') /\
    sent w' = (before ++ [process_request utc_host Config.CREATE_RETURN_ORDER
                            tok body])%list /\
    prop (prop (prop body "ReturnOrder") "Header") "RefOrderDate"
    = JStr "20240116".
Proof.
  destruct (OrderService.transformShopifyOrder utc_host sample_order)
    as [r|e] eqn:Hr; [|discriminate Hr].
  destruct (WebhookHandlers.handleRefundCreate utc_host sample_refund sample_order
              issuing_world) as [[out|e] w'] eqn:Hrun;
    [|vm_compute in Hrun; discriminate Hrun].
  assert (Hok : truthy (prop out "success") = true).
  { vm_compute in Hrun. now injection Hrun as <- _. }
  destruct (refund_refers_to_created_order utc_host sample_refund sample_order r
              issuing_world out w' Hr Hrun Hok)
    as (tok & before & body & header & Hsent & <- & Hdate & _).
  exists r, out, w', tok, before, body.
  repeat split; [exact Hsent|].
  rewrite Hdate. vm_compute in Hr. now injection Hr as <-.
Defined.
